(** * DualExplorer: the dual-panel file-operation engine

    A shallow embedding of [dual_explorer.py]: the directory listing, sorting
    and live search of [FilePanel], the SQLite history of [ChatDatabase], and
    the command pipeline of [AIDialog] ([send], [on_response], [execute],
    [do_copy], [do_move], [do_delete], [do_create_folder],
    [do_create_file], [do_rename]).

    Conventions of the embedding.
    - A Python [str] is a list of Unicode code points ([list N]);
      [str.lower] is the full lower-case mapping of the Unicode database
      with CPython's rule for the capital sigma.
    - [os.path] is [posixpath]; [fnmatch.fnmatch] therefore compares case
      sensitively ([os.path.normcase] is the identity on POSIX).
    - The operating system ([os], [shutil], [open]) is an interface, the
      class [OS]; the program is written against it.  [TreeFS] is one
      instance, a directory tree, on which concrete runs are evaluated.
      [json.loads] is a parameter of the dialog.
    - An exception does not undo what was done before it: a command is a
      function from the world to an outcome and the world it left behind.
      The calls that list a directory or change the file system are noted
      in the world, in the order they are made.
    - A widget is what it holds: the chat a list of lines, the input line
      its lock, a list widget its items.  Message boxes, icons and style
      sheets are left out. *)

From Stdlib Require Import String Ascii.
From Stdlib Require Import List ZArith NArith Lia Bool.
From Stdlib Require Import Sorting.Sorted Sorting.Permutation.
Import ListNotations.

Set Implicit Arguments.

(** ** Python strings *)

Module PyStr.

Definition str := list N.

(** A literal of the source whose characters are all ASCII. *)
Definition lit (s : string) : str :=
  map N_of_ascii (list_ascii_of_string s).

Fixpoint eqb (a b : str) : bool :=
  match a, b with
  | [], [] => true
  | x :: a', y :: b' => N.eqb x y && eqb a' b'
  | _, _ => false
  end.

(** [a < b] on [str]: code point by code point, a proper prefix first. *)
Fixpoint ltb (a b : str) : bool :=
  match a, b with
  | _, [] => false
  | [], _ :: _ => true
  | x :: a', y :: b' =>
      if N.ltb x y then true
      else if N.eqb x y then ltb a' b' else false
  end.

(** *** [str.lower]

    CPython lower-cases a string code point by code point with the full
    case mapping of the Unicode database, and treats the capital sigma
    by its context ([lower_ucs4], [handle_capital_sigma] in
    [unicodeobject.c]). *)

(** The code points [str.lower] maps to another single code point, in
    runs: [(first, last, step, target)] stands for [first],
    [first + step], ... up to [last], and the lower case of
    [first + k] is [target + k].  These are the lower-case mappings of
    Unicode 14.0, the data of CPython 3.11. *)
Definition lower_runs : list (N * N * N * N) :=
  [(65, 90, 1, 97); (192, 214, 1, 224); (216, 222, 1, 248);
   (256, 302, 2, 257); (306, 310, 2, 307); (313, 327, 2, 314);
   (330, 374, 2, 331); (376, 376, 1, 255); (377, 381, 2, 378);
   (385, 385, 1, 595); (386, 388, 2, 387); (390, 390, 1, 596);
   (391, 391, 1, 392); (393, 394, 1, 598); (395, 395, 1, 396);
   (398, 398, 1, 477); (399, 399, 1, 601); (400, 400, 1, 603);
   (401, 401, 1, 402); (403, 403, 1, 608); (404, 404, 1, 611);
   (406, 406, 1, 617); (407, 407, 1, 616); (408, 408, 1, 409);
   (412, 412, 1, 623); (413, 413, 1, 626); (415, 415, 1, 629);
   (416, 420, 2, 417); (422, 422, 1, 640); (423, 423, 1, 424);
   (425, 425, 1, 643); (428, 428, 1, 429); (430, 430, 1, 648);
   (431, 431, 1, 432); (433, 434, 1, 650); (435, 437, 2, 436);
   (439, 439, 1, 658); (440, 440, 1, 441); (444, 444, 1, 445);
   (452, 452, 1, 454); (453, 453, 1, 454); (455, 455, 1, 457);
   (456, 456, 1, 457); (458, 458, 1, 460); (459, 475, 2, 460);
   (478, 494, 2, 479); (497, 497, 1, 499); (498, 500, 2, 499);
   (502, 502, 1, 405); (503, 503, 1, 447); (504, 542, 2, 505);
   (544, 544, 1, 414); (546, 562, 2, 547); (570, 570, 1, 11365);
   (571, 571, 1, 572); (573, 573, 1, 410); (574, 574, 1, 11366);
   (577, 577, 1, 578); (579, 579, 1, 384); (580, 580, 1, 649);
   (581, 581, 1, 652); (582, 590, 2, 583); (880, 882, 2, 881);
   (886, 886, 1, 887); (895, 895, 1, 1011); (902, 902, 1, 940);
   (904, 906, 1, 941); (908, 908, 1, 972); (910, 911, 1, 973);
   (913, 929, 1, 945); (931, 939, 1, 963); (975, 975, 1, 983);
   (984, 1006, 2, 985); (1012, 1012, 1, 952); (1015, 1015, 1, 1016);
   (1017, 1017, 1, 1010); (1018, 1018, 1, 1019); (1021, 1023, 1, 891);
   (1024, 1039, 1, 1104); (1040, 1071, 1, 1072); (1120, 1152, 2, 1121);
   (1162, 1214, 2, 1163); (1216, 1216, 1, 1231); (1217, 1229, 2, 1218);
   (1232, 1326, 2, 1233); (1329, 1366, 1, 1377); (4256, 4293, 1, 11520);
   (4295, 4295, 1, 11559); (4301, 4301, 1, 11565); (5024, 5103, 1, 43888);
   (5104, 5109, 1, 5112); (7312, 7354, 1, 4304); (7357, 7359, 1, 4349);
   (7680, 7828, 2, 7681); (7838, 7838, 1, 223); (7840, 7934, 2, 7841);
   (7944, 7951, 1, 7936); (7960, 7965, 1, 7952); (7976, 7983, 1, 7968);
   (7992, 7999, 1, 7984); (8008, 8013, 1, 8000); (8025, 8031, 2, 8017);
   (8040, 8047, 1, 8032); (8072, 8079, 1, 8064); (8088, 8095, 1, 8080);
   (8104, 8111, 1, 8096); (8120, 8121, 1, 8112); (8122, 8123, 1, 8048);
   (8124, 8124, 1, 8115); (8136, 8139, 1, 8050); (8140, 8140, 1, 8131);
   (8152, 8153, 1, 8144); (8154, 8155, 1, 8054); (8168, 8169, 1, 8160);
   (8170, 8171, 1, 8058); (8172, 8172, 1, 8165); (8184, 8185, 1, 8056);
   (8186, 8187, 1, 8060); (8188, 8188, 1, 8179); (8486, 8486, 1, 969);
   (8490, 8490, 1, 107); (8491, 8491, 1, 229); (8498, 8498, 1, 8526);
   (8544, 8559, 1, 8560); (8579, 8579, 1, 8580); (9398, 9423, 1, 9424);
   (11264, 11311, 1, 11312); (11360, 11360, 1, 11361);
   (11362, 11362, 1, 619); (11363, 11363, 1, 7549); (11364, 11364, 1, 637);
   (11367, 11371, 2, 11368); (11373, 11373, 1, 593); (11374, 11374, 1, 625);
   (11375, 11375, 1, 592); (11376, 11376, 1, 594); (11378, 11378, 1, 11379);
   (11381, 11381, 1, 11382); (11390, 11391, 1, 575);
   (11392, 11490, 2, 11393); (11499, 11501, 2, 11500);
   (11506, 11506, 1, 11507); (42560, 42604, 2, 42561);
   (42624, 42650, 2, 42625); (42786, 42798, 2, 42787);
   (42802, 42862, 2, 42803); (42873, 42875, 2, 42874);
   (42877, 42877, 1, 7545); (42878, 42886, 2, 42879);
   (42891, 42891, 1, 42892); (42893, 42893, 1, 613);
   (42896, 42898, 2, 42897); (42902, 42920, 2, 42903);
   (42922, 42922, 1, 614); (42923, 42923, 1, 604); (42924, 42924, 1, 609);
   (42925, 42925, 1, 620); (42926, 42926, 1, 618); (42928, 42928, 1, 670);
   (42929, 42929, 1, 647); (42930, 42930, 1, 669); (42931, 42931, 1, 43859);
   (42932, 42946, 2, 42933); (42948, 42948, 1, 42900);
   (42949, 42949, 1, 642); (42950, 42950, 1, 7566);
   (42951, 42953, 2, 42952); (42960, 42960, 1, 42961);
   (42966, 42968, 2, 42967); (42997, 42997, 1, 42998);
   (65313, 65338, 1, 65345); (66560, 66599, 1, 66600);
   (66736, 66771, 1, 66776); (66928, 66938, 1, 66967);
   (66940, 66954, 1, 66979); (66956, 66962, 1, 66995);
   (66964, 66965, 1, 67003); (68736, 68786, 1, 68800);
   (71840, 71871, 1, 71872); (93760, 93791, 1, 93792);
   (125184, 125217, 1, 125218)]%N.

(** The code points with the property Case_Ignorable, as ranges. *)
Definition case_ignorable_ranges : list (N * N) :=
  [(39, 39); (46, 46); (58, 58); (94, 94); (96, 96); (168, 168); (173, 173);
   (175, 175); (180, 180); (183, 184); (688, 879); (884, 885); (890, 890);
   (900, 901); (903, 903); (1155, 1161); (1369, 1369); (1375, 1375);
   (1425, 1469); (1471, 1471); (1473, 1474); (1476, 1477); (1479, 1479);
   (1524, 1524); (1536, 1541); (1552, 1562); (1564, 1564); (1600, 1600);
   (1611, 1631); (1648, 1648); (1750, 1757); (1759, 1768); (1770, 1773);
   (1807, 1807); (1809, 1809); (1840, 1866); (1958, 1968); (2027, 2037);
   (2042, 2042); (2045, 2045); (2070, 2093); (2137, 2139); (2184, 2184);
   (2192, 2193); (2200, 2207); (2249, 2306); (2362, 2362); (2364, 2364);
   (2369, 2376); (2381, 2381); (2385, 2391); (2402, 2403); (2417, 2417);
   (2433, 2433); (2492, 2492); (2497, 2500); (2509, 2509); (2530, 2531);
   (2558, 2558); (2561, 2562); (2620, 2620); (2625, 2626); (2631, 2632);
   (2635, 2637); (2641, 2641); (2672, 2673); (2677, 2677); (2689, 2690);
   (2748, 2748); (2753, 2757); (2759, 2760); (2765, 2765); (2786, 2787);
   (2810, 2815); (2817, 2817); (2876, 2876); (2879, 2879); (2881, 2884);
   (2893, 2893); (2901, 2902); (2914, 2915); (2946, 2946); (3008, 3008);
   (3021, 3021); (3072, 3072); (3076, 3076); (3132, 3132); (3134, 3136);
   (3142, 3144); (3146, 3149); (3157, 3158); (3170, 3171); (3201, 3201);
   (3260, 3260); (3263, 3263); (3270, 3270); (3276, 3277); (3298, 3299);
   (3328, 3329); (3387, 3388); (3393, 3396); (3405, 3405); (3426, 3427);
   (3457, 3457); (3530, 3530); (3538, 3540); (3542, 3542); (3633, 3633);
   (3636, 3642); (3654, 3662); (3761, 3761); (3764, 3772); (3782, 3782);
   (3784, 3789); (3864, 3865); (3893, 3893); (3895, 3895); (3897, 3897);
   (3953, 3966); (3968, 3972); (3974, 3975); (3981, 3991); (3993, 4028);
   (4038, 4038); (4141, 4144); (4146, 4151); (4153, 4154); (4157, 4158);
   (4184, 4185); (4190, 4192); (4209, 4212); (4226, 4226); (4229, 4230);
   (4237, 4237); (4253, 4253); (4348, 4348); (4957, 4959); (5906, 5908);
   (5938, 5939); (5970, 5971); (6002, 6003); (6068, 6069); (6071, 6077);
   (6086, 6086); (6089, 6099); (6103, 6103); (6109, 6109); (6155, 6159);
   (6211, 6211); (6277, 6278); (6313, 6313); (6432, 6434); (6439, 6440);
   (6450, 6450); (6457, 6459); (6679, 6680); (6683, 6683); (6742, 6742);
   (6744, 6750); (6752, 6752); (6754, 6754); (6757, 6764); (6771, 6780);
   (6783, 6783); (6823, 6823); (6832, 6862); (6912, 6915); (6964, 6964);
   (6966, 6970); (6972, 6972); (6978, 6978); (7019, 7027); (7040, 7041);
   (7074, 7077); (7080, 7081); (7083, 7085); (7142, 7142); (7144, 7145);
   (7149, 7149); (7151, 7153); (7212, 7219); (7222, 7223); (7288, 7293);
   (7376, 7378); (7380, 7392); (7394, 7400); (7405, 7405); (7412, 7412);
   (7416, 7417); (7468, 7530); (7544, 7544); (7579, 7679); (8125, 8125);
   (8127, 8129); (8141, 8143); (8157, 8159); (8173, 8175); (8189, 8190);
   (8203, 8207); (8216, 8217); (8228, 8228); (8231, 8231); (8234, 8238);
   (8288, 8292); (8294, 8303); (8305, 8305); (8319, 8319); (8336, 8348);
   (8400, 8432); (11388, 11389); (11503, 11505); (11631, 11631);
   (11647, 11647); (11744, 11775); (11823, 11823); (12293, 12293);
   (12330, 12333); (12337, 12341); (12347, 12347); (12441, 12446);
   (12540, 12542); (40981, 40981); (42232, 42237); (42508, 42508);
   (42607, 42610); (42612, 42621); (42623, 42623); (42652, 42655);
   (42736, 42737); (42752, 42785); (42864, 42864); (42888, 42890);
   (42994, 42996); (43000, 43001); (43010, 43010); (43014, 43014);
   (43019, 43019); (43045, 43046); (43052, 43052); (43204, 43205);
   (43232, 43249); (43263, 43263); (43302, 43309); (43335, 43345);
   (43392, 43394); (43443, 43443); (43446, 43449); (43452, 43453);
   (43471, 43471); (43493, 43494); (43561, 43566); (43569, 43570);
   (43573, 43574); (43587, 43587); (43596, 43596); (43632, 43632);
   (43644, 43644); (43696, 43696); (43698, 43700); (43703, 43704);
   (43710, 43711); (43713, 43713); (43741, 43741); (43756, 43757);
   (43763, 43764); (43766, 43766); (43867, 43871); (43881, 43883);
   (44005, 44005); (44008, 44008); (44013, 44013); (64286, 64286);
   (64434, 64450); (65024, 65039); (65043, 65043); (65056, 65071);
   (65106, 65106); (65109, 65109); (65279, 65279); (65287, 65287);
   (65294, 65294); (65306, 65306); (65342, 65342); (65344, 65344);
   (65392, 65392); (65438, 65439); (65507, 65507); (65529, 65531);
   (66045, 66045); (66272, 66272); (66422, 66426); (67456, 67461);
   (67463, 67504); (67506, 67514); (68097, 68099); (68101, 68102);
   (68108, 68111); (68152, 68154); (68159, 68159); (68325, 68326);
   (68900, 68903); (69291, 69292); (69446, 69456); (69506, 69509);
   (69633, 69633); (69688, 69702); (69744, 69744); (69747, 69748);
   (69759, 69761); (69811, 69814); (69817, 69818); (69821, 69821);
   (69826, 69826); (69837, 69837); (69888, 69890); (69927, 69931);
   (69933, 69940); (70003, 70003); (70016, 70017); (70070, 70078);
   (70089, 70092); (70095, 70095); (70191, 70193); (70196, 70196);
   (70198, 70199); (70206, 70206); (70367, 70367); (70371, 70378);
   (70400, 70401); (70459, 70460); (70464, 70464); (70502, 70508);
   (70512, 70516); (70712, 70719); (70722, 70724); (70726, 70726);
   (70750, 70750); (70835, 70840); (70842, 70842); (70847, 70848);
   (70850, 70851); (71090, 71093); (71100, 71101); (71103, 71104);
   (71132, 71133); (71219, 71226); (71229, 71229); (71231, 71232);
   (71339, 71339); (71341, 71341); (71344, 71349); (71351, 71351);
   (71453, 71455); (71458, 71461); (71463, 71467); (71727, 71735);
   (71737, 71738); (71995, 71996); (71998, 71998); (72003, 72003);
   (72148, 72151); (72154, 72155); (72160, 72160); (72193, 72202);
   (72243, 72248); (72251, 72254); (72263, 72263); (72273, 72278);
   (72281, 72283); (72330, 72342); (72344, 72345); (72752, 72758);
   (72760, 72765); (72767, 72767); (72850, 72871); (72874, 72880);
   (72882, 72883); (72885, 72886); (73009, 73014); (73018, 73018);
   (73020, 73021); (73023, 73029); (73031, 73031); (73104, 73105);
   (73109, 73109); (73111, 73111); (73459, 73460); (78896, 78904);
   (92912, 92916); (92976, 92982); (92992, 92995); (94031, 94031);
   (94095, 94111); (94176, 94177); (94179, 94180); (110576, 110579);
   (110581, 110587); (110589, 110590); (113821, 113822); (113824, 113827);
   (118528, 118573); (118576, 118598); (119143, 119145); (119155, 119170);
   (119173, 119179); (119210, 119213); (119362, 119364); (121344, 121398);
   (121403, 121452); (121461, 121461); (121476, 121476); (121499, 121503);
   (121505, 121519); (122880, 122886); (122888, 122904); (122907, 122913);
   (122915, 122916); (122918, 122922); (123184, 123197); (123566, 123566);
   (123628, 123631); (125136, 125142); (125252, 125259); (127995, 127999);
   (917505, 917505); (917536, 917631); (917760, 917999)]%N.

(** The code points with the property Cased among those that are not
    Case_Ignorable (the only ones [str.lower] asks it of), as ranges. *)
Definition cased_ranges : list (N * N) :=
  [(65, 90); (97, 122); (170, 170); (181, 181); (186, 186); (192, 214);
   (216, 246); (248, 442); (444, 447); (452, 659); (661, 687); (880, 883);
   (886, 887); (891, 893); (895, 895); (902, 902); (904, 906); (908, 908);
   (910, 929); (931, 1013); (1015, 1153); (1162, 1327); (1329, 1366);
   (1376, 1416); (4256, 4293); (4295, 4295); (4301, 4301); (4304, 4346);
   (4349, 4351); (5024, 5109); (5112, 5117); (7296, 7304); (7312, 7354);
   (7357, 7359); (7424, 7467); (7531, 7543); (7545, 7578); (7680, 7957);
   (7960, 7965); (7968, 8005); (8008, 8013); (8016, 8023); (8025, 8025);
   (8027, 8027); (8029, 8029); (8031, 8061); (8064, 8116); (8118, 8124);
   (8126, 8126); (8130, 8132); (8134, 8140); (8144, 8147); (8150, 8155);
   (8160, 8172); (8178, 8180); (8182, 8188); (8450, 8450); (8455, 8455);
   (8458, 8467); (8469, 8469); (8473, 8477); (8484, 8484); (8486, 8486);
   (8488, 8488); (8490, 8493); (8495, 8500); (8505, 8505); (8508, 8511);
   (8517, 8521); (8526, 8526); (8544, 8575); (8579, 8580); (9398, 9449);
   (11264, 11387); (11390, 11492); (11499, 11502); (11506, 11507);
   (11520, 11557); (11559, 11559); (11565, 11565); (42560, 42605);
   (42624, 42651); (42786, 42863); (42865, 42887); (42891, 42894);
   (42896, 42954); (42960, 42961); (42963, 42963); (42965, 42969);
   (42997, 42998); (43002, 43002); (43824, 43866); (43872, 43880);
   (43888, 43967); (64256, 64262); (64275, 64279); (65313, 65338);
   (65345, 65370); (66560, 66639); (66736, 66771); (66776, 66811);
   (66928, 66938); (66940, 66954); (66956, 66962); (66964, 66965);
   (66967, 66977); (66979, 66993); (66995, 67001); (67003, 67004);
   (68736, 68786); (68800, 68850); (71840, 71903); (93760, 93823);
   (119808, 119892); (119894, 119964); (119966, 119967); (119970, 119970);
   (119973, 119974); (119977, 119980); (119982, 119993); (119995, 119995);
   (119997, 120003); (120005, 120069); (120071, 120074); (120077, 120084);
   (120086, 120092); (120094, 120121); (120123, 120126); (120128, 120132);
   (120134, 120134); (120138, 120144); (120146, 120485); (120488, 120512);
   (120514, 120538); (120540, 120570); (120572, 120596); (120598, 120628);
   (120630, 120654); (120656, 120686); (120688, 120712); (120714, 120744);
   (120746, 120770); (120772, 120779); (122624, 122633); (122635, 122654);
   (125184, 125251); (127280, 127305); (127312, 127337); (127344, 127369)]%N.

Definition in_run (c : N) (run : N * N * N * N) : bool :=
  let '(first, last, step, _) := run in
  ((first <=? c) && (c <=? last) && ((c - first) mod step =? 0))%N.

(** The simple lower-case mapping of one code point. *)
Definition lower_cp (c : N) : N :=
  match find (in_run c) lower_runs with
  | Some (first, _, _, target) => (target + (c - first))%N
  | None => c
  end.

Definition in_ranges (ranges : list (N * N)) (c : N) : bool :=
  existsb (fun range => (fst range <=? c) && (c <=? snd range))%N ranges.

Definition case_ignorable : N -> bool := in_ranges case_ignorable_ranges.
Definition cased : N -> bool := in_ranges cased_ranges.

Fixpoint skip_ignorable (s : str) : str :=
  match s with
  | c :: s' => if case_ignorable c then skip_ignorable s' else s
  | [] => []
  end.

(** [handle_capital_sigma]: a capital sigma is final when the nearest
    code point before it that is not case-ignorable is cased, and the
    nearest such code point after it, if any, is not.  [before] is what
    stands before the sigma, the nearest code point first. *)
Definition final_sigma (before after : str) : bool :=
  match skip_ignorable before with
  | c :: _ =>
      cased c
      && match skip_ignorable after with
         | c' :: _ => negb (cased c')
         | [] => true
         end
  | [] => false
  end.

Definition capital_sigma : N := 931.
Definition small_sigma : N := 963.
Definition small_final_sigma : N := 962.

(** The code points one code point becomes: the capital sigma by its
    context, the capital I with a dot above (U+0130) an [i] and a
    combining dot (the one entry of SpecialCasing that holds everywhere),
    any other by the simple mapping. *)
Definition lower_at (before : str) (c : N) (after : str) : str :=
  if N.eqb c capital_sigma then
    [if final_sigma before after then small_final_sigma else small_sigma]
  else if N.eqb c 304 then [105; 775]%N
  else [lower_cp c].

Fixpoint lower_from (before s : str) : str :=
  match s with
  | [] => []
  | c :: rest => lower_at before c rest ++ lower_from (c :: before) rest
  end.

(** [s.lower()] *)
Definition lower (s : str) : str := lower_from [] s.

(** [s.startswith(pre)] *)
Fixpoint startswith (pre s : str) : bool :=
  match pre, s with
  | [], _ => true
  | _ :: _, [] => false
  | x :: pre', y :: s' => N.eqb x y && startswith pre' s'
  end.

(** [needle in hay] *)
Fixpoint contains (needle hay : str) : bool :=
  startswith needle hay ||
  match hay with
  | [] => false
  | _ :: hay' => contains needle hay'
  end.

(** Truth value of a string: the empty string is falsy. *)
Definition truthy (s : str) : bool :=
  match s with [] => false | _ :: _ => true end.

(** [s.rfind('/') + 1]: the length of the longest prefix ending in a
    slash, 0 when there is no slash. *)
Fixpoint after_last (c : N) (s : str) : nat :=
  match s with
  | [] => 0
  | x :: s' =>
      match after_last c s' with
      | O => if N.eqb x c then 1 else 0
      | S k => S (S k)
      end
  end.

(** [s.rstrip(c)] *)
Fixpoint rstrip (c : N) (s : str) : str :=
  match s with
  | [] => []
  | x :: s' =>
      match rstrip c s' with
      | [] => if N.eqb x c then [] else [x]
      | r => x :: r
      end
  end.

(** [s.split(c)] *)
Fixpoint split (c : N) (s : str) : list str :=
  match s with
  | [] => [[]]
  | x :: s' =>
      if N.eqb x c then [] :: split c s'
      else match split c s' with
           | [] => [[x]]
           | w :: ws => (x :: w) :: ws
           end
  end.

(** [sep.join(parts)] *)
Fixpoint join (sep : str) (parts : list str) : str :=
  match parts with
  | [] => []
  | [p] => p
  | p :: ps => p ++ sep ++ join sep ps
  end.

Definition all_eq (c : N) (s : str) : bool := forallb (N.eqb c) s.

End PyStr.

Import PyStr.

Declare Scope py_scope.
Delimit Scope py_scope with py.
Notation "'$' s" := (lit s%string) (at level 1, format "'$' s") : py_scope.
Open Scope py_scope.

(** ** [sorted] *)

Section Sorted.

Variables (A K : Type) (klt : K -> K -> bool) (key : A -> K).

(** Insertion before the first element that is not smaller: an element
    put in front of equal ones stays in front of them. *)
Fixpoint insert_by (x : A) (l : list A) : list A :=
  match l with
  | [] => [x]
  | y :: l' =>
      if klt (key y) (key x) then y :: insert_by x l'
      else x :: y :: l'
  end.

(** The stable ascending sort. *)
Fixpoint sort_by (l : list A) : list A :=
  match l with
  | [] => []
  | x :: l' => insert_by x (sort_by l')
  end.

(** [sorted(l, key=key, reverse=reverse)].  With [reverse=True] CPython
    reverses the list, sorts it, and reverses the result, so equal keys
    keep their original order in both directions. *)
Definition sorted (reverse : bool) (l : list A) : list A :=
  if reverse then rev (sort_by (rev l)) else sort_by l.

End Sorted.

(** ** [posixpath] *)

Module Posixpath.

Definition slash : N := 47.

(** [os.path.join(a, b)] *)
Definition join (a b : str) : str :=
  if startswith [slash] b then b
  else match a with
       | [] => b
       | _ => if N.eqb (last a 0%N) slash then a ++ b
              else a ++ slash :: b
       end.

(** [os.path.basename(p)] *)
Definition basename (p : str) : str := skipn (after_last slash p) p.

(** [os.path.dirname(p)] *)
Definition dirname (p : str) : str :=
  let head := firstn (after_last slash p) p in
  if truthy head && negb (all_eq slash head) then rstrip slash head
  else head.

Definition isabs (p : str) : bool := startswith [slash] p.

Definition dot : str := [46%N].
Definition dotdot : str := [46%N; 46%N].

Definition nonempty (l : list str) : bool :=
  match l with [] => false | _ :: _ => true end.

(** The loop of [normpath] over the components, [new_comps] kept in
    reverse. *)
Fixpoint norm_comps (initial_slashes : nat) (comps : list str)
         (rev_new : list str) : list str :=
  match comps with
  | [] => rev rev_new
  | comp :: rest =>
      if eqb comp [] || eqb comp dot then
        norm_comps initial_slashes rest rev_new
      else if negb (eqb comp dotdot)
              || (Nat.eqb initial_slashes 0 && negb (nonempty rev_new))
              || match rev_new with
                 | top :: _ => eqb top dotdot
                 | [] => false
                 end
      then norm_comps initial_slashes rest (comp :: rev_new)
      else match rev_new with
           | _ :: popped => norm_comps initial_slashes rest popped
           | [] => norm_comps initial_slashes rest rev_new
           end
  end.

(** [os.path.normpath(path)] *)
Definition normpath (path : str) : str :=
  match path with
  | [] => dot
  | _ =>
      let initial_slashes :=
        if startswith [slash] path then
          if startswith [slash; slash] path
             && negb (startswith [slash; slash; slash] path)
          then 2 else 1
        else 0 in
      let comps := norm_comps initial_slashes (split slash path) [] in
      let body := PyStr.join [slash] comps in
      let path' := repeat slash initial_slashes ++ body in
      match path' with [] => dot | _ => path' end
  end.

(** [os.path.abspath(path)], the working directory given. *)
Definition abspath (cwd path : str) : str :=
  normpath (if isabs path then path else join cwd path).

End Posixpath.


(** ** [fnmatch] *)

Module Fnmatch.

(** What [fnmatch.translate] turns a pattern into, piece by piece. *)
Inductive tok :=
| TStar                                       (* [*]: [.*] *)
| TAny                                        (* [?]: [.] *)
| TSet (negated : bool) (items : list (N * N))  (* [[seq]], [[!seq]] *)
| TLit (c : N).

Definition bang : N := 33.
Definition minus : N := 45.
Definition lbracket : N := 91.
Definition rbracket : N := 93.
Definition star : N := 42.
Definition question : N := 63.

(** The text up to the first [c], and what follows that [c]. *)
Fixpoint break_at (c : N) (s : str) : option (str * str) :=
  match s with
  | [] => None
  | x :: s' =>
      if N.eqb x c then Some ([], s')
      else match break_at c s' with
           | Some (a, b) => Some (x :: a, b)
           | None => None
           end
  end.

(** The scan for the bracket that closes a set: a leading [!] and a
    [']'] right after it belong to the set.  [s] is the text after the
    opening bracket; the result is the set's text and the rest of the
    pattern, or [None] when no bracket closes it. *)
Definition find_close (s : str) : option (str * str) :=
  let '(pre1, s1) :=
    match s with
    | x :: s' => if N.eqb x bang then ([x], s') else ([], s)
    | [] => ([], s)
    end in
  let '(pre2, s2) :=
    match s1 with
    | x :: s' => if N.eqb x rbracket then (pre1 ++ [x], s') else (pre1, s1)
    | [] => (pre1, s1)
    end in
  match break_at rbracket s2 with
  | Some (mid, rest) => Some (pre2 ++ mid, rest)
  | None => None
  end.

(** The members of a set: [a-b] is a range when a character stands on
    both sides of the hyphen, any other character stands for itself. *)
Fixpoint set_items (fuel : nat) (s : str) : list (N * N) :=
  match fuel with
  | O => []
  | S fuel' =>
      match s with
      | [] => []
      | lo :: m :: hi :: s' =>
          if N.eqb m minus then (lo, hi) :: set_items fuel' s'
          else (lo, lo) :: set_items fuel' (m :: hi :: s')
      | c :: s' => (c, c) :: set_items fuel' s'
      end
  end.

Definition mk_set (stuff : str) : tok :=
  match stuff with
  | x :: stuff' =>
      if N.eqb x bang then TSet true (set_items (length stuff') stuff')
      else TSet false (set_items (length stuff) stuff)
  | [] => TSet false []
  end.

Fixpoint translate_aux (fuel : nat) (pat : str) : list tok :=
  match fuel with
  | O => []
  | S fuel' =>
      match pat with
      | [] => []
      | c :: pat' =>
          if N.eqb c star then TStar :: translate_aux fuel' pat'
          else if N.eqb c question then TAny :: translate_aux fuel' pat'
          else if N.eqb c lbracket then
            match find_close pat' with
            | None => TLit c :: translate_aux fuel' pat'
            | Some (stuff, rest) => mk_set stuff :: translate_aux fuel' rest
            end
          else TLit c :: translate_aux fuel' pat'
      end
  end.

Definition translate (pat : str) : list tok :=
  translate_aux (length pat) pat.

Definition in_set (items : list (N * N)) (c : N) : bool :=
  existsb (fun '(lo, hi) => N.leb lo c && N.leb c hi) items.

(** A full match of the name against the translated pattern. *)
Fixpoint matches (ts : list tok) (name : str) : bool :=
  match ts with
  | [] => match name with [] => true | _ :: _ => false end
  | TStar :: ts' =>
      (fix star_from (s : str) : bool :=
         matches ts' s ||
         match s with
         | [] => false
         | _ :: s' => star_from s'
         end) name
  | TAny :: ts' =>
      match name with
      | [] => false
      | _ :: s' => matches ts' s'
      end
  | TSet negated items :: ts' =>
      match name with
      | [] => false
      | c :: s' => xorb negated (in_set items c) && matches ts' s'
      end
  | TLit x :: ts' =>
      match name with
      | [] => false
      | c :: s' => N.eqb x c && matches ts' s'
      end
  end.

Definition fnmatchcase (name pat : str) : bool :=
  matches (translate pat) name.

(** [fnmatch.fnmatch(name, pat)]: both sides go through
    [os.path.normcase], the identity of [posixpath]. *)
Definition normcase (s : str) : str := s.

Definition fnmatch (name pat : str) : bool :=
  fnmatchcase (normcase name) (normcase pat).

End Fnmatch.

(** ** JSON values, as [json.loads] returns them *)

#[warnings="-register-all"]
Inductive json :=
| JNull
| JBool (b : bool)
| JNum (n : Z)                      (* whole numbers suffice here *)
| JStr (s : str)
| JArr (l : list json)
| JObj (members : list (str * json)).

(** [d.get(k)] on the members of a [dict], [None] when the key is absent.
    [json.loads] keeps the last of several equal keys; the members are
    listed with that one first. *)
Fixpoint dict_get (members : list (str * json)) (k : str) : option json :=
  match members with
  | [] => None
  | (k', v) :: rest => if eqb k' k then Some v else dict_get rest k
  end.

(** Truth value of a JSON value. *)
Definition json_truthy (v : json) : bool :=
  match v with
  | JNull => false
  | JBool b => b
  | JNum n => negb (Z.eqb n 0)
  | JStr s => truthy s
  | JArr l => match l with [] => false | _ => true end
  | JObj m => match m with [] => false | _ => true end
  end.

(** [v == 'literal'] for a value of the decoded command. *)
Definition is_str (v : json) (s : str) : bool :=
  match v with JStr s' => eqb s' s | _ => false end.

(** ** Exceptions and outcomes *)

Inductive os_errno :=
| ENOENT | EEXIST | EACCES | ENOTDIR | EISDIR | ENOTEMPTY | EINVAL.

(** The three pattern operations, for the texts that name them. *)
Inductive batch_op := Copying | Moving | Deleting.

Inductive exn :=
| OSError (errno : os_errno) (path : str)
    (* FileNotFoundError, FileExistsError, PermissionError,
       NotADirectoryError, IsADirectoryError, by errno *)
| ShutilError (path : str)
    (* shutil.Error, shutil.SameFileError *)
| TypeError
| AttributeError
| KeyError (key : str)
| JSONDecodeError
| SqliteBindError
    (* sqlite3: a list or a dict given for a column *)
| MultipleFiles (op : batch_op)
    (* ValueError("Нельзя копировать / перемещать / удалять несколько
       конкретных файлов за раз. ...") *)
| ItemFailed (op : batch_op) (item : str) (cause : exn)
    (* Exception(f"Не удалось скопировать / переместить / удалить
       {item}: {e}") *)
| NoMatch (pattern : str)
    (* Exception(f"Не найдено файлов, соответствующих шаблону
       '{pattern}'") *)
| NamesMissing
    (* ValueError('Не указаны старое или новое имя файла') *)
| OldNotFound (old_name : str)
    (* FileNotFoundError(f'Файл "{old_name}" не найден') *)
| NewExists (new_name : str).
    (* FileExistsError(f'Файл "{new_name}" уже существует') *)

Inductive result (A : Type) :=
| Ok (a : A)
| Err (e : exn).

Arguments Ok {A} a.
Arguments Err {A} e.

(** ** The operating system, as the program sees it *)

(** A query answers from the file system; a command returns its outcome
    together with the file system it leaves, which need not be the one it
    found even when it fails. *)
Class OS (FS : Type) := {
  getcwd : FS -> str;
  listdir : FS -> str -> result (list str);       (* os.listdir *)
  isdir : FS -> str -> bool;                      (* os.path.isdir *)
  path_exists : FS -> str -> bool;                (* os.path.exists *)
  getsize : FS -> str -> result Z;                (* os.path.getsize *)
  getmtime : FS -> str -> result Z;               (* os.path.getmtime *)
  copytree : str -> str -> FS -> result unit * FS;
    (* shutil.copytree(src, dst, dirs_exist_ok=True) *)
  copy2 : str -> str -> FS -> result unit * FS;   (* shutil.copy2 *)
  move : str -> str -> FS -> result unit * FS;    (* shutil.move *)
  rmtree : str -> FS -> result unit * FS;         (* shutil.rmtree *)
  remove : str -> FS -> result unit * FS;         (* os.remove *)
  makedirs : bool -> str -> FS -> result unit * FS;
    (* os.makedirs(path, exist_ok=...) *)
  write_text : str -> str -> FS -> result unit * FS;
    (* with open(path, 'w', encoding='utf-8') as f: f.write(content) *)
  rename : str -> str -> FS -> result unit * FS   (* os.rename *)
}.

(** The calls that enumerate or change the file system, in the order they
    were made. *)
Inductive syscall :=
| Sys_listdir (path : str)
| Sys_copytree (src dst : str)
| Sys_copy2 (src dst : str)
| Sys_move (src dst : str)
| Sys_rmtree (path : str)
| Sys_remove (path : str)
| Sys_makedirs (exist_ok : bool) (path : str)
| Sys_write_text (path content : str)
| Sys_rename (src dst : str).

(** ** [FilePanel] *)

Inductive sort_mode :=
| name_asc | name_desc | size_asc | size_desc | date_asc | date_desc.

(** A [QListWidgetItem]: its text and the path kept under
    [Qt.ItemDataRole.UserRole]. *)
Record item := {
  text : str;
  user_role : option str
}.

Record panel := {
  current_path : str;
  sort_mode_of : sort_mode;      (* self.sort_mode *)
  search_input : str;            (* self.search_input.text() *)
  file_list : list item;         (* the visible list *)
  all_items : list item          (* the cache the search filters *)
}.

(** Decimal digits of a number. *)
Fixpoint digits_aux (fuel : nat) (n : N) (acc : str) : str :=
  match fuel with
  | O => acc
  | S fuel' =>
      let acc' := (48 + n mod 10)%N :: acc in
      if (n <? 10)%N then acc' else digits_aux fuel' (n / 10)%N acc'
  end.

Definition digits (n : N) : str := digits_aux (S (N.size_nat n)) n [].

(** [f'{x:.1f}'] for [x = num / den]: the nearest tenth, a tie going to
    the even one. *)
Definition format_1f (num den : N) : str :=
  let q := (num * 10 / den)%N in
  let r := (num * 10 mod den)%N in
  let tenths :=
    if (den <? 2 * r)%N then (q + 1)%N
    else if (2 * r =? den)%N then (if N.even q then q else q + 1)%N
    else q in
  digits (tenths / 10)%N ++ 46%N :: digits (tenths mod 10)%N.

(** The unit names of [format_size]: Б, КБ, МБ, ГБ and, past them, ТБ. *)
Definition units : list str :=
  [[1041]; [1050; 1041]; [1052; 1041]; [1043; 1041]]%N.
Definition last_unit : str := [1058; 1041]%N.

Fixpoint format_size_loop (size den : N) (us : list str) : str :=
  match us with
  | [] => format_1f size den ++ 32%N :: last_unit
  | unit :: us' =>
      if (size <? 1024 * den)%N then format_1f size den ++ 32%N :: unit
      else format_size_loop size (1024 * den)%N us'
  end.

(** [FilePanel.format_size].  The running value [size / 1024**k] is kept
    as a fraction; the float of the source holds it exactly for every size
    below [2**53]. *)
Definition format_size (size : Z) : str :=
  format_size_loop (Z.to_N size) 1 units.

Section FilePanel.

Context {FS : Type} `{OS FS}.

Definition is_desc (m : sort_mode) : bool :=
  match m with
  | name_desc | size_desc | date_desc => true
  | _ => false
  end.

(** The [try: ... except: return 0] of the two key functions. *)
Definition or_zero (r : result Z) : Z :=
  match r with Ok z => z | Err _ => 0%Z end.

Definition get_size (fs : FS) (cur name : str) : Z :=
  or_zero (getsize fs (Posixpath.join cur name)).

Definition get_mtime (fs : FS) (cur name : str) : Z :=
  or_zero (getmtime fs (Posixpath.join cur name)).

(** [FilePanel.sort_entries] *)
Definition sort_entries (fs : FS) (cur : str) (mode : sort_mode)
           (entries : list str) (is_dir : bool) : list str :=
  match mode with
  | name_asc => sorted ltb lower false entries
  | name_desc => sorted ltb lower true entries
  | size_asc | size_desc =>
      if is_dir then sorted ltb lower false entries
      else sorted Z.ltb (get_size fs cur) (is_desc mode) entries
  | date_asc | date_desc =>
      sorted Z.ltb (get_mtime fs cur) (is_desc mode) entries
  end.

Definition parent_item (cur : str) : item :=
  {| text := $".."; user_role := Some (Posixpath.dirname cur) |}.

Definition dir_item (cur dir_name : str) : item :=
  {| text := dir_name; user_role := Some (Posixpath.join cur dir_name) |}.

Definition file_item (fs : FS) (cur file_name : str) : item :=
  let full_path := Posixpath.join cur file_name in
  match getsize fs full_path with
  | Ok size =>
      {| text := file_name ++ $" (" ++ format_size size ++ $")";
         user_role := Some full_path |}
  | Err _ => {| text := file_name; user_role := Some full_path |}
  end.

(** The items [load_directory] puts in front of the listing. *)
Definition parent_items (cur : str) : list item :=
  if eqb (Posixpath.dirname cur) cur then [] else [parent_item cur].

(** [FilePanel.load_directory].  When [os.listdir] raises, be it
    [PermissionError] or anything else, a message box is shown and the
    panel keeps what had been added by then.  ([search_input.clear()]
    runs [filter_files] on the cache just emptied, which shows nothing
    new.) *)
Definition load_directory (fs : FS) (p : panel) (path : str) : panel :=
  let cur := Posixpath.abspath (getcwd fs) path in
  let shown :=
    match listdir fs cur with
    | Err _ => parent_items cur
    | Ok entries =>
        let dirs :=
          filter (fun entry => isdir fs (Posixpath.join cur entry))
                 entries in
        let files :=
          filter (fun entry => negb (isdir fs (Posixpath.join cur entry)))
                 entries in
        let dirs := sort_entries fs cur (sort_mode_of p) dirs true in
        let files := sort_entries fs cur (sort_mode_of p) files false in
        parent_items cur
          ++ map (dir_item cur) dirs
          ++ map (file_item fs cur) files
    end in
  {| current_path := cur;
     sort_mode_of := sort_mode_of p;
     search_input := [];
     file_list := shown;
     all_items := shown |}.

(** [FilePanel.refresh] *)
Definition refresh (fs : FS) (p : panel) : panel :=
  load_directory fs p (current_path p).

End FilePanel.

(** The test of the search loop: the text typed, lower-cased, is looked for
    in the item's text and in the base name of its path. *)
Definition search_hit (search_text : str) (it : item) : bool :=
  let item_text := lower (text it) in
  let file_name :=
    match user_role it with
    | Some file_path =>
        if truthy file_path then lower (Posixpath.basename file_path) else []
    | None => []
    end in
  contains search_text item_text || contains search_text file_name.

(** [FilePanel.filter_files] *)
Definition filter_files (p : panel) : panel :=
  let search_text := lower (search_input p) in
  let shown :=
    if truthy search_text then filter (search_hit search_text) (all_items p)
    else all_items p in
  {| current_path := current_path p;
     sort_mode_of := sort_mode_of p;
     search_input := search_input p;
     file_list := shown;
     all_items := all_items p |}.

(** ** [ChatDatabase] *)

Inductive status := pending | success | error.

(** The text of an error as the history keeps it: the answer of a failed
    request, or [str(e)] of an exception. *)
Inductive errtext :=
| Text_of (answer : str)
| Str_of (e : exn).

(** A row of [chat_history].  [ai_response] and [action] hold what the
    decoded command gave for them, [params] the value whose JSON text the
    column stores. *)
Record row := {
  id : Z;
  timestamp : str;
  user_message : str;
  ai_response : option json;
  action : option json;
  params : option json;
  status_of : option status;
  error_message : option errtext
}.

(** The table in insertion order, and the largest id ever given out
    (SQLite's [sqlite_sequence] for an [AUTOINCREMENT] key). *)
Record database := {
  rows : list row;
  seq : Z
}.

(** [init_database] on a file that does not exist yet. *)
Definition init_database : database := {| rows := []; seq := 0 |}.

(** [x is not None] for an optional argument that came out of JSON. *)
Definition given (v : option json) : option json :=
  match v with
  | Some JNull => None
  | _ => v
  end.

(** sqlite3 binds numbers and strings; a list or a dict is refused. *)
Definition bindable (v : option json) : bool :=
  match v with
  | Some (JArr _) | Some (JObj _) => false
  | _ => true
  end.

Definition max_id (rs : list row) : Z :=
  fold_right (fun r m => Z.max (id r) m) 0%Z rs.

(** [ChatDatabase.add_message] at the time [now]. *)
Definition add_message (now : str) (d : database) (user_message' : str)
           (ai_response' action' params' : option json)
           (status' : option status) (error_message' : option errtext)
  : result Z * database :=
  let params_json :=
    match given params' with
    | Some v => if json_truthy v then Some v else None
    | None => None
    end in
  if bindable ai_response' && bindable action' then
    let message_id := (Z.max (seq d) (max_id (rows d)) + 1)%Z in
    (Ok message_id,
     {| rows := rows d ++
          [{| id := message_id; timestamp := now;
              user_message := user_message';
              ai_response := given ai_response'; action := given action';
              params := params_json; status_of := status';
              error_message := error_message' |}];
        seq := message_id |})
  else (Err SqliteBindError, d).

Definition or_else {A} (new old : option A) : option A :=
  match new with Some _ => new | None => old end.

Definition update_row (ai_response' action' params' : option json)
           (status' : option status) (error_message' : option errtext)
           (r : row) : row :=
  {| id := id r; timestamp := timestamp r; user_message := user_message r;
     ai_response := or_else (given ai_response') (ai_response r);
     action := or_else (given action') (action r);
     params := or_else (given params') (params r);
     status_of := or_else status' (status_of r);
     error_message := or_else error_message' (error_message r) |}.

(** [ChatDatabase.update_message]: the columns given are set in the row of
    that id; with none given nothing is executed. *)
Definition update_message (d : database) (message_id : Z)
           (ai_response' action' params' : option json)
           (status' : option status) (error_message' : option errtext)
  : result unit * database :=
  if bindable (given ai_response') && bindable (given action') then
    (Ok tt,
     {| rows :=
          map (fun r =>
                 if Z.eqb (id r) message_id
                 then update_row ai_response' action' params' status'
                                 error_message' r
                 else r) (rows d);
        seq := seq d |})
  else (Err SqliteBindError, d).

(** [ChatDatabase.get_recent_history]: [ORDER BY id DESC LIMIT count], a
    negative limit being no limit in SQLite, then [reversed]. *)
Definition get_recent_history (d : database) (count : Z) : list row :=
  let newest_first := sorted Z.ltb id true (rows d) in
  let limited :=
    if (count <? 0)%Z then newest_first
    else firstn (Z.to_nat count) newest_first in
  rev limited.

(** [ChatDatabase.clear_history] *)
Definition clear_history (d : database) : database :=
  {| rows := []; seq := seq d |}.

(** ** More of [str], for the text of a response *)

(** The code points for which [str.isspace] holds. *)
Definition isspace (c : N) : bool :=
  existsb (N.eqb c)
    [9; 10; 11; 12; 13; 28; 29; 30; 31; 32; 133; 160; 5760;
     8192; 8193; 8194; 8195; 8196; 8197; 8198; 8199; 8200; 8201; 8202;
     8232; 8233; 8239; 8287; 12288]%N.

Fixpoint lstrip (s : str) : str :=
  match s with
  | c :: s' => if isspace c then lstrip s' else s
  | [] => []
  end.

(** [s.strip()] *)
Definition strip (s : str) : str := rev (lstrip (rev (lstrip s))).

(** [s.split(sep)] for a separator of several characters; [skip] counts
    the characters of a separator just found that are still to be passed. *)
Fixpoint split_on_aux (sep : str) (skip : nat) (s : str) : list str :=
  match s with
  | [] => [[]]
  | c :: s' =>
      match skip with
      | S k => split_on_aux sep k s'
      | O =>
          if startswith sep s then [] :: split_on_aux sep (length sep - 1) s'
          else match split_on_aux sep 0 s' with
               | w :: ws => (c :: w) :: ws
               | [] => [[c]]
               end
      end
  end.

Definition split_on (sep s : str) : list str := split_on_aux sep 0 s.

(** ** [AIDialog] *)

Inductive side := Left | Right.

Inductive chat_line :=
| Chat_user (text : str)          (* Вы: ... *)
| Chat_thinking                   (* Думаю... *)
| Chat_ai (message : json)        (* AI: ... *)
| Chat_done                       (* Готово! *)
| Chat_failure (e : errtext)      (* Ошибка: ..., from [on_response] *)
| Chat_error (e : errtext).       (* Ошибка: ..., from [execute] *)

Definition is_thinking (l : chat_line) : bool :=
  match l with Chat_thinking => true | _ => false end.

(** What [send] hands to the text-generation endpoint. *)
Inductive api_message :=
| System_prompt (left right : str) (active : side)
| User_turn (content : str)
| Assistant_turn (content : json).

Section AIDialog.

Context {FS : Type} `{OS FS}.

(** [json.loads] *)
Variable json_loads : str -> result json.

(** The main window with its two panels, the dialog, the history and the
    file system they act on. *)
Record world := {
  fs : FS;
  left_panel : panel;
  right_panel : panel;
  active_panel : side;
  db : database;
  current_message_id : option Z;
  input_enabled : bool;
  chat : list chat_line;
  trace : list syscall
}.

Definition panel_of (w : world) (s : side) : panel :=
  match s with Left => left_panel w | Right => right_panel w end.

(** *** Commands: an outcome and the world left behind *)

Definition M (A : Type) : Type := world -> result A * world.

Definition ret {A} (a : A) : M A := fun w => (Ok a, w).

Definition raise {A} (e : exn) : M A := fun w => (Err e, w).

Definition bind {A B} (m : M A) (k : A -> M B) : M B :=
  fun w =>
    match m w with
    | (Ok a, w') => k a w'
    | (Err e, w') => (Err e, w')
    end.

(** [try: m except Exception as e: handler e] *)
Definition try_except {A} (m : M A) (handler : exn -> M A) : M A :=
  fun w =>
    match m w with
    | (Ok a, w') => (Ok a, w')
    | (Err e, w') => handler e w'
    end.

Definition lift {A} (r : result A) : M A := fun w => (r, w).

Definition read {A} (f : world -> A) : M A := fun w => (Ok (f w), w).

Definition modify (f : world -> world) : M unit := fun w => (Ok tt, f w).

Notation "x <- m ;; k" := (bind m (fun x => k))
  (at level 61, m at next level, right associativity).
Notation "m ;;; k" := (bind m (fun _ => k))
  (at level 61, right associativity).

(** *** The fields of the world, one at a time *)

Definition with_fs (fs' : FS) (c : syscall) (w : world) : world :=
  {| fs := fs'; left_panel := left_panel w; right_panel := right_panel w;
     active_panel := active_panel w; db := db w;
     current_message_id := current_message_id w;
     input_enabled := input_enabled w; chat := chat w;
     trace := trace w ++ [c] |}.

Definition with_panels (l r : panel) (w : world) : world :=
  {| fs := fs w; left_panel := l; right_panel := r;
     active_panel := active_panel w; db := db w;
     current_message_id := current_message_id w;
     input_enabled := input_enabled w; chat := chat w;
     trace := trace w |}.

Definition with_db (d : database) (w : world) : world :=
  {| fs := fs w; left_panel := left_panel w; right_panel := right_panel w;
     active_panel := active_panel w; db := d;
     current_message_id := current_message_id w;
     input_enabled := input_enabled w; chat := chat w;
     trace := trace w |}.

Definition with_current (i : option Z) (w : world) : world :=
  {| fs := fs w; left_panel := left_panel w; right_panel := right_panel w;
     active_panel := active_panel w; db := db w;
     current_message_id := i;
     input_enabled := input_enabled w; chat := chat w;
     trace := trace w |}.

Definition with_input (b : bool) (w : world) : world :=
  {| fs := fs w; left_panel := left_panel w; right_panel := right_panel w;
     active_panel := active_panel w; db := db w;
     current_message_id := current_message_id w;
     input_enabled := b; chat := chat w;
     trace := trace w |}.

Definition with_chat (c : list chat_line) (w : world) : world :=
  {| fs := fs w; left_panel := left_panel w; right_panel := right_panel w;
     active_panel := active_panel w; db := db w;
     current_message_id := current_message_id w;
     input_enabled := input_enabled w; chat := c;
     trace := trace w |}.

(** *** The calls into [os] and [shutil] *)

Definition os_listdir (path : str) : M (list str) :=
  fun w => (listdir (fs w) path, with_fs (fs w) (Sys_listdir path) w).

Definition os_call (c : syscall) (op : FS -> result unit * FS) : M unit :=
  fun w => let (r, fs') := op (fs w) in (r, with_fs fs' c w).

Definition os_isdir (path : str) : M bool :=
  read (fun w => isdir (fs w) path).

Definition os_exists (path : str) : M bool :=
  read (fun w => path_exists (fs w) path).

Definition shutil_copytree (src dst : str) : M unit :=
  os_call (Sys_copytree src dst) (copytree src dst).
Definition shutil_copy2 (src dst : str) : M unit :=
  os_call (Sys_copy2 src dst) (copy2 src dst).
Definition shutil_move (src dst : str) : M unit :=
  os_call (Sys_move src dst) (move src dst).
Definition shutil_rmtree (path : str) : M unit :=
  os_call (Sys_rmtree path) (rmtree path).
Definition os_remove (path : str) : M unit :=
  os_call (Sys_remove path) (remove path).
Definition os_makedirs (path : str) (exist_ok : bool) : M unit :=
  os_call (Sys_makedirs exist_ok path) (makedirs exist_ok path).
Definition open_write (path content : str) : M unit :=
  os_call (Sys_write_text path content) (write_text path content).
Definition os_rename (src dst : str) : M unit :=
  os_call (Sys_rename src dst) (rename src dst).

(** *** Reading the decoded command *)

(** [d.get(k)]: only a [dict] has the method. *)
Definition get (d : json) (k : str) : M (option json) :=
  match d with
  | JObj members => ret (dict_get members k)
  | _ => raise AttributeError
  end.

(** [d.get(k, default)] *)
Definition get_default (d : json) (k : str) (default : json) : M json :=
  v <- get d k ;;
  ret (match v with Some x => x | None => default end).

(** [d[k]] *)
Definition getitem (d : json) (k : str) : M json :=
  match d with
  | JObj members =>
      match dict_get members k with
      | Some v => ret v
      | None => raise (KeyError k)
      end
  | _ => raise TypeError
  end.

Definition opt_is_str (v : option json) (s : str) : bool :=
  match v with Some x => is_str x s | None => false end.

(** The words looked for between file names: " и " and " and ". *)
Definition sep_i : str := [32; 1080; 32]%N.
Definition sep_and : str := $" and ".

Definition has_separator (pattern : str) : bool :=
  contains $"," pattern
  || contains sep_i (lower pattern)
  || contains sep_and (lower pattern).

(** The guard at the head of the three pattern operations,
    [if ',' in pattern or ' и ' in pattern.lower() or
        ' and ' in pattern.lower(): raise ValueError(...)],
    on whatever value the command gave for the pattern: [in] needs a
    container, [lower] a string. *)
Definition reject_multiple (op : batch_op) (pattern : json) : M str :=
  match pattern with
  | JStr s =>
      if has_separator s then raise (MultipleFiles op) else ret s
  | JArr l =>
      if existsb (fun v => is_str v $",") l then raise (MultipleFiles op)
      else raise AttributeError
  | JObj members =>
      match dict_get members $"," with
      | Some _ => raise (MultipleFiles op)
      | None => raise AttributeError
      end
  | _ => raise TypeError
  end.

(** The body of a [for item in os.listdir(...)] loop that counts what it
    handled: [act] is the [try] block for one matching item. *)
Fixpoint for_matching (op : batch_op) (pattern : str)
         (act : str -> M unit) (items : list str) (count : nat) : M nat :=
  match items with
  | [] => ret count
  | item :: rest =>
      if Fnmatch.fnmatch item pattern then
        try_except (act item)
                   (fun e => raise (ItemFailed op item e)) ;;;
        for_matching op pattern act rest (S count)
      else for_matching op pattern act rest count
  end.

Definition from_side (p_from : option json) : side :=
  if opt_is_str p_from $"left" then Left else Right.

Definition to_side (p_to : option json) : side :=
  if opt_is_str p_to $"right" then Right else Left.

(** The [try] blocks of the three loops, for one item that matched. *)
Definition copy_item (from_path to_path item : str) : M unit :=
  let src := Posixpath.join from_path item in
  let dst := Posixpath.join to_path item in
  is_dir <- os_isdir src ;;
  if is_dir then shutil_copytree src dst else shutil_copy2 src dst.

Definition move_item (from_path to_path item : str) : M unit :=
  let src := Posixpath.join from_path item in
  let dst := Posixpath.join to_path item in
  shutil_move src dst.

Definition delete_item (panel_path item : str) : M unit :=
  let path := Posixpath.join panel_path item in
  is_dir <- os_isdir path ;;
  if is_dir then shutil_rmtree path else os_remove path.

(** [AIDialog.do_copy] *)
Definition do_copy (p : json) : M unit :=
  p_from <- get p $"from" ;;
  p_to <- get p $"to" ;;
  pattern <- get_default p $"pattern" (JStr $"*") ;;
  pattern <- reject_multiple Copying pattern ;;
  from_path <- read (fun w => current_path (panel_of w (from_side p_from))) ;;
  to_path <- read (fun w => current_path (panel_of w (to_side p_to))) ;;
  items <- os_listdir from_path ;;
  copied_count <-
    for_matching Copying pattern (copy_item from_path to_path) items 0 ;;
  if Nat.eqb copied_count 0 then raise (NoMatch pattern) else ret tt.

(** [AIDialog.do_move] *)
Definition do_move (p : json) : M unit :=
  p_from <- get p $"from" ;;
  p_to <- get p $"to" ;;
  pattern <- get_default p $"pattern" (JStr $"*") ;;
  pattern <- reject_multiple Moving pattern ;;
  from_path <- read (fun w => current_path (panel_of w (from_side p_from))) ;;
  to_path <- read (fun w => current_path (panel_of w (to_side p_to))) ;;
  items <- os_listdir from_path ;;
  moved_count <-
    for_matching Moving pattern (move_item from_path to_path) items 0 ;;
  if Nat.eqb moved_count 0 then raise (NoMatch pattern) else ret tt.

(** [AIDialog.do_delete] *)
Definition do_delete (p : json) : M unit :=
  p_from <- get p $"from" ;;
  pattern <- get_default p $"pattern" (JStr $"*") ;;
  pattern <- reject_multiple Deleting pattern ;;
  panel_path <- read (fun w => current_path (panel_of w (from_side p_from))) ;;
  items <- os_listdir panel_path ;;
  deleted_count <-
    for_matching Deleting pattern (delete_item panel_path) items 0 ;;
  if Nat.eqb deleted_count 0 then raise (NoMatch pattern) else ret tt.

(** A value used where [os.path.join] wants a string. *)
Definition path_part (v : json) : M str :=
  match v with
  | JStr s => ret s
  | _ => raise TypeError
  end.

(** The default names: 'Новая папка' and 'новый_файл.txt'. *)
Definition default_folder : str :=
  [1053; 1086; 1074; 1072; 1103; 32; 1087; 1072; 1087; 1082; 1072]%N.
Definition default_file : str :=
  [1085; 1086; 1074; 1099; 1081; 95; 1092; 1072; 1081; 1083]%N ++ $".txt".

Definition active_path : M str :=
  read (fun w => current_path (panel_of w (active_panel w))).

(** [AIDialog.do_create_folder] *)
Definition do_create_folder (p : json) : M unit :=
  name <- get_default p $"name" (JStr default_folder) ;;
  cur <- active_path ;;
  name <- path_part name ;;
  let path := Posixpath.join cur name in
  os_makedirs path true.

(** [AIDialog.do_create_file].  [len(content)] is asked for before the
    file is opened, and [f.write] takes a string only: a list or a dict
    for the content leaves the file opened for writing, hence empty. *)
Definition do_create_file (p : json) : M unit :=
  name <- get_default p $"name" (JStr default_file) ;;
  content <- get_default p $"content" (JStr []) ;;
  cur <- active_path ;;
  name <- path_part name ;;
  let path := Posixpath.join cur name in
  match content with
  | JStr text => open_write path text
  | JArr _ | JObj _ => open_write path [] ;;; raise TypeError
  | _ => raise TypeError
  end.

(** [p.get(k1) or p.get(k2, '')] *)
Definition get_or (p : json) (k1 k2 : str) : M json :=
  first <- get p k1 ;;
  match first with
  | Some v => if json_truthy v then ret v else get_default p k2 (JStr [])
  | None => get_default p k2 (JStr [])
  end.

(** [AIDialog.do_rename] *)
Definition do_rename (p : json) : M unit :=
  old_name <- get_or p $"old_name" $"old" ;;
  new_name <- get_or p $"new_name" $"new" ;;
  if negb (json_truthy old_name) || negb (json_truthy new_name)
  then raise NamesMissing
  else
    cur <- active_path ;;
    old_name <- path_part old_name ;;
    new_name <- path_part new_name ;;
    let old_path := Posixpath.join cur old_name in
    let new_path := Posixpath.join cur new_name in
    old_there <- os_exists old_path ;;
    if negb old_there then raise (OldNotFound old_name)
    else
      new_there <- os_exists new_path ;;
      if new_there then raise (NewExists new_name)
      else os_rename old_path new_path.

(** *** The dialog *)

Definition chat_append (l : chat_line) : M unit :=
  modify (fun w => with_chat (chat w ++ [l]) w).

(** [if self.current_message_id: self.db.update_message(...)] *)
Definition db_update (ai_response' action' params' : option json)
           (status' : option status) (error_message' : option errtext)
  : M unit :=
  fun w =>
    match current_message_id w with
    | Some message_id =>
        if Z.eqb message_id 0 then (Ok tt, w)
        else
          let (r, d) :=
            update_message (db w) message_id ai_response' action' params'
                           status' error_message' in
          (r, with_db d w)
    | None => (Ok tt, w)
    end.

(** [FilePanel.refresh] on one panel of the window; the listing it asks
    for is noted. *)
Definition refresh_panel (s : side) : M unit :=
  fun w =>
    let p := refresh (fs w) (panel_of w s) in
    let w' :=
      match s with
      | Left => with_panels p (right_panel w) w
      | Right => with_panels (left_panel w) p w
      end in
    (Ok tt, with_fs (fs w) (Sys_listdir (current_path p)) w').

(** [DualExplorerWindow.refresh_panels] *)
Definition refresh_panels : M unit :=
  refresh_panel Left ;;; refresh_panel Right.

(** The [if ... elif ...] chain of [execute]; it has no [else]. *)
Definition dispatch (action' params' : json) : M unit :=
  if is_str action' $"copy" then do_copy params'
  else if is_str action' $"move" then do_move params'
  else if is_str action' $"delete" then do_delete params'
  else if is_str action' $"create_folder" then do_create_folder params'
  else if is_str action' $"create_file" then do_create_file params'
  else if is_str action' $"rename" then do_rename params'
  else ret tt.

(** [AIDialog.execute] *)
Definition execute (cmd : json) : M unit :=
  action' <- getitem cmd $"action" ;;
  params' <- get_default cmd $"params" (JObj []) ;;
  try_except
    (dispatch action' params' ;;;
     refresh_panels ;;;
     chat_append Chat_done ;;;
     db_update None None None (Some success) None)
    (fun e =>
       chat_append (Chat_error (Str_of e)) ;;;
       db_update None None None (Some error) (Some (Str_of e))).

Definition fence : str := [96; 96; 96]%N.

(** The text [json.loads] is given: stripped, and taken out of a code
    fence when it starts with one. *)
Definition unfence (answer : str) : str :=
  let answer := strip answer in
  let answer :=
    if startswith fence answer then
      let inner := nth 1 (split_on fence answer) [] in
      if startswith $"json" inner then skipn 4 inner else inner
    else answer in
  strip answer.

(** The [try] block of [on_response]. *)
Definition interpret_and_run (answer : str) : M unit :=
  cmd <- lift (json_loads (unfence answer)) ;;
  ai_message <- get_default cmd $"message" (JStr []) ;;
  chat_append (Chat_ai ai_message) ;;;
  action' <- get cmd $"action" ;;
  params' <- get cmd $"params" ;;
  db_update (Some ai_message) action' params' None None ;;;
  action' <- getitem cmd $"action" ;;
  if is_str action' $"error"
  then db_update None None None (Some error) None
  else execute cmd.

(** [AIDialog.on_response]: the slot of [response_received]. *)
Definition on_response (answer : str) (succeeded : bool)
  : world -> world :=
  fun w =>
    let w := with_input true w in
    let w := with_chat (filter (fun l => negb (is_thinking l)) (chat w)) w in
    if negb succeeded then
      snd ((chat_append (Chat_failure (Text_of answer)) ;;;
            db_update None None None (Some error)
                      (Some (Text_of answer))) w)
    else
      snd (try_except
             (interpret_and_run answer)
             (fun e =>
                chat_append (Chat_failure (Str_of e)) ;;;
                db_update None None None (Some error)
                          (Some (Str_of e))) w).

(** What the [TEXT] column [ai_response] gives back for a value that
    was bound to it: a string as it is, a whole number as its decimal
    text, [True] and [False] as [1] and [0]; [None] was stored as
    [NULL], and a list or a dict is never stored. *)
Definition column_text (v : json) : option str :=
  match v with
  | JStr s => Some s
  | JNum n =>
      Some (if (n <? 0)%Z then 45%N :: digits (Z.to_N (- n))
            else digits (Z.to_N n))
  | JBool b => Some (if b then $"1" else $"0")
  | JNull | JArr _ | JObj _ => None
  end.

(** The turns of one history entry in the request:
    [if entry['ai_response']] is asked of the text read back. *)
Definition turns (entry : row) : list api_message :=
  User_turn (user_message entry) ::
  match ai_response entry with
  | Some v =>
      match column_text v with
      | Some content =>
          if truthy content then [Assistant_turn (JStr content)] else []
      | None => []
      end
  | None => []
  end.

(** [AIDialog.send], at the time [now] with [text] in the input line,
    up to the start of the worker thread: the world it leaves and the
    request the thread will make, if any. *)
Definition send (now text : str) (w : world)
  : world * option (list api_message) :=
  let text := strip text in
  if negb (truthy text) then (w, None)
  else
    match add_message now (db w) text None None None (Some pending) None
    with
    | (Err _, _) => (w, None)
    | (Ok message_id, d) =>
        let w := with_current (Some message_id) (with_db d w) in
        let w := with_input false w in
        let w := with_chat (chat w ++ [Chat_user text; Chat_thinking]) w in
        let messages :=
          System_prompt (current_path (left_panel w))
                        (current_path (right_panel w)) (active_panel w)
          :: flat_map turns (get_recent_history (db w) 6)
          ++ [User_turn text] in
        (w, Some messages)
    end.

End AIDialog.

(** ** A file system to run on: a directory tree *)

Module TreeFS.

(** Files carry their text, directories their entries in the order
    [os.listdir] reports them; both carry a modification time.  There
    are no links and no permissions: a call fails for the shape of the
    tree only. *)
#[warnings="-register-all"]
Inductive node :=
| File (mtime : Z) (content : str)
| Dir (mtime : Z) (entries : list (str * node)).

Record t := {
  root : list (str * node);     (* the entries of [/] *)
  cwd : str;
  clock : Z                     (* the time the next change is stamped *)
}.

Fixpoint assoc (es : list (str * node)) (k : str) : option node :=
  match es with
  | [] => None
  | (k', v) :: es' => if eqb k' k then Some v else assoc es' k
  end.

(** Replace the entry in place, or add it at the end. *)
Fixpoint put (es : list (str * node)) (k : str) (v : node)
  : list (str * node) :=
  match es with
  | [] => [(k, v)]
  | (k', v') :: es' =>
      if eqb k' k then (k, v) :: es' else (k', v') :: put es' k v
  end.

Fixpoint del (es : list (str * node)) (k : str) : list (str * node) :=
  match es with
  | [] => []
  | (k', v') :: es' =>
      if eqb k' k then es' else (k', v') :: del es' k
  end.

(** One step of walking a path: an empty component and [.] stay in
    place, [..] goes up (the root is its own parent), a name goes down. *)
Definition walk (at_ : list str) (comp : str) : list str :=
  if eqb comp [] || eqb comp Posixpath.dot then at_
  else if eqb comp Posixpath.dotdot then removelast at_
  else at_ ++ [comp].

(** The names from the root down to what a path stands for; a relative
    path starts at the working directory. *)
Definition comps_of (fs : t) (path : str) : list str :=
  fold_left walk
    (split Posixpath.slash
       (if Posixpath.isabs path then path
        else Posixpath.join (cwd fs) path))
    [].

(** What a path names: [ENOENT] when a component is missing, [ENOTDIR]
    when a file stands where a directory is needed. *)
Fixpoint stat_in (es : list (str * node)) (mt : Z) (comps : list str)
  : os_errno + node :=
  match comps with
  | [] => inr (Dir mt es)
  | c :: rest =>
      match assoc es c with
      | None => inl ENOENT
      | Some (File fm text) =>
          match rest with
          | [] => inr (File fm text)
          | _ => inl ENOTDIR
          end
      | Some (Dir dm des) => stat_in des dm rest
      end
  end.

Definition stat (fs : t) (path : str) : result node :=
  match stat_in (root fs) 0 (comps_of fs path) with
  | inr n => Ok n
  | inl e => Err (OSError e path)
  end.

(** Change the entry a path names: [f] is given what is there and
    answers with what shall be there ([None]: nothing), or an error.
    The directory that holds the entry is stamped [now]. *)
Fixpoint alter (now : Z) (f : option node -> os_errno + option node)
         (es : list (str * node)) (comps : list str)
  : os_errno + list (str * node) :=
  match comps with
  | [] => inl EINVAL
  | [c] =>
      match f (assoc es c) with
      | inl e => inl e
      | inr (Some v) => inr (put es c v)
      | inr None => inr (del es c)
      end
  | c :: rest =>
      match assoc es c with
      | None => inl ENOENT
      | Some (File _ _) => inl ENOTDIR
      | Some (Dir dm des) =>
          match alter now f des rest with
          | inl e => inl e
          | inr des' =>
              inr (put es c (Dir (match rest with
                                  | [_] => now
                                  | _ => dm
                                  end) des'))
          end
      end
  end.

Definition tick (fs : t) (root' : list (str * node)) : t :=
  {| root := root'; cwd := cwd fs; clock := (clock fs + 1)%Z |}.

(** Run a change at a path; a failed change leaves the tree as it was. *)
Definition change (path : str) (f : option node -> os_errno + option node)
           (fs : t) : result unit * t :=
  match alter (clock fs) f (root fs) (comps_of fs path) with
  | inl e => (Err (OSError e path), fs)
  | inr root' => (Ok tt, tick fs root')
  end.

(** *** Queries *)

Definition listdir (fs : t) (path : str) : result (list str) :=
  match stat fs path with
  | Ok (Dir _ es) => Ok (map fst es)
  | Ok (File _ _) => Err (OSError ENOTDIR path)
  | Err e => Err e
  end.

Definition isdir (fs : t) (path : str) : bool :=
  match stat fs path with
  | Ok (Dir _ _) => true
  | _ => false
  end.

Definition path_exists (fs : t) (path : str) : bool :=
  match stat fs path with
  | Ok _ => true
  | Err _ => false
  end.

Definition getsize (fs : t) (path : str) : result Z :=
  match stat fs path with
  | Ok (File _ text) => Ok (Z.of_nat (length text))
  | Ok (Dir _ _) => Ok 4096%Z
  | Err e => Err e
  end.

Definition getmtime (fs : t) (path : str) : result Z :=
  match stat fs path with
  | Ok (File m _) => Ok m
  | Ok (Dir m _) => Ok m
  | Err e => Err e
  end.

(** *** Commands *)

(** [os.remove]: files only. *)
Definition remove (path : str) : t -> result unit * t :=
  change path (fun old =>
    match old with
    | None => inl ENOENT
    | Some (Dir _ _) => inl EISDIR
    | Some (File _ _) => inr None
    end).

(** [shutil.rmtree]: a directory and all below it. *)
Definition rmtree (path : str) : t -> result unit * t :=
  change path (fun old =>
    match old with
    | None => inl ENOENT
    | Some (File _ _) => inl ENOTDIR
    | Some (Dir _ _) => inr None
    end).

(** [open(path, 'w')] and [write]: the file is created, or emptied and
    written anew. *)
Definition write_text (path content : str) (fs : t) : result unit * t :=
  change path (fun old =>
    match old with
    | Some (Dir _ _) => inl EISDIR
    | _ => inr (Some (File (clock fs) content))
    end) fs.

(** [os.makedirs]: the missing directories along the path are made,
    the last one too. *)
Fixpoint makedirs_in (now : Z) (exist_ok : bool)
         (es : list (str * node)) (comps : list str)
  : os_errno + list (str * node) :=
  match comps with
  | [] => if exist_ok then inr es else inl EEXIST
  | c :: rest =>
      match assoc es c with
      | Some (File _ _) =>
          match rest with
          | [] => inl EEXIST
          | _ => inl ENOTDIR
          end
      | Some (Dir dm des) =>
          match makedirs_in now exist_ok des rest with
          | inl e => inl e
          | inr des' => inr (put es c (Dir dm des'))
          end
      | None =>
          match makedirs_in now true [] rest with
          | inl e => inl e
          | inr des' => inr (put es c (Dir now des'))
          end
      end
  end.

Definition makedirs (exist_ok : bool) (path : str) (fs : t)
  : result unit * t :=
  if isdir fs path && exist_ok then (Ok tt, fs)   (* nothing to make *)
  else
    match makedirs_in (clock fs) exist_ok (root fs) (comps_of fs path) with
    | inl e => (Err (OSError e path), fs)
    | inr root' => (Ok tt, tick fs root')
    end.

Definition same_file (fs : t) (a b : str) : bool :=
  if list_eq_dec (list_eq_dec N.eq_dec) (comps_of fs a) (comps_of fs b)
  then true else false.

(** [shutil.copy2]: a file is copied with its time stamp, into the
    destination when that is a directory, over it when it is a file. *)
Definition copy2 (src dst : str) (fs : t) : result unit * t :=
  match stat fs src with
  | Err e => (Err e, fs)
  | Ok (Dir _ _) => (Err (OSError EISDIR src), fs)
  | Ok (File m text) =>
      let dst :=
        if isdir fs dst
        then Posixpath.join dst (Posixpath.basename src) else dst in
      if same_file fs src dst then (Err (ShutilError dst), fs)
      else
        change dst (fun old =>
          match old with
          | Some (Dir _ _) => inl EISDIR
          | _ => inr (Some (File m text))
          end) fs
  end.

(** The entries of a source directory laid over those of the
    destination, as [copytree] with [dirs_exist_ok=True] does: a
    directory is merged into the directory of its name, a file is copied
    by [copy2].  The flag tells whether every entry could be copied;
    [copytree] goes on after an entry that could not. *)
Fixpoint merge_into (src : node) (des : list (str * node)) {struct src}
  : list (str * node) * bool :=
  match src with
  | File _ _ => (des, false)
  | Dir _ es =>
      (fix go (es : list (str * node)) (des : list (str * node))
         : list (str * node) * bool :=
         match es with
         | [] => (des, true)
         | (k, v) :: es' =>
             let '(des1, ok1) :=
               match v with
               | File m text =>
                   match assoc des k with
                   | Some (Dir dm dd) =>
                       match assoc dd k with
                       | Some (Dir _ _) => (des, false)
                       | _ => (put des k (Dir dm (put dd k (File m text))),
                               true)
                       end
                   | _ => (put des k (File m text), true)
                   end
               | Dir m _ =>
                   match assoc des k with
                   | Some (File _ _) => (des, false)
                   | Some (Dir _ dd) =>
                       let '(dd', ok) := merge_into v dd in
                       (put des k (Dir m dd'), ok)
                   | None =>
                       let '(dd', ok) := merge_into v [] in
                       (put des k (Dir m dd'), ok)
                   end
               end in
             let '(des2, ok2) := go es' des1 in
             (des2, ok1 && ok2)
         end) es des
  end.

(** [shutil.copytree(src, dst, dirs_exist_ok=True)] *)
Definition copytree (src dst : str) (fs : t) : result unit * t :=
  match stat fs src with
  | Err e => (Err e, fs)
  | Ok (File _ _) => (Err (OSError ENOTDIR src), fs)
  | Ok (Dir m es) =>
      match makedirs true dst fs with
      | (Err e, _) => (Err e, fs)
      | (Ok _, fs1) =>
          match stat fs1 dst with
          | Ok (Dir _ des) =>
              let '(des', ok) := merge_into (Dir m es) des in
              match change dst (fun _ => inr (Some (Dir m des'))) fs1 with
              | (Err e, fs2) => (Err e, fs2)
              | (Ok _, fs2) =>
                  if ok then (Ok tt, fs2) else (Err (ShutilError dst), fs2)
              end
          | Ok (File _ _) => (Err (OSError EEXIST dst), fs1)
          | Err e => (Err e, fs1)
          end
      end
  end.

Fixpoint is_prefix (a b : list str) : bool :=
  match a, b with
  | [], _ => true
  | _ :: _, [] => false
  | x :: a', y :: b' => eqb x y && is_prefix a' b'
  end.

(** [os.rename] *)
Definition rename (src dst : str) (fs : t) : result unit * t :=
  match stat fs src with
  | Err e => (Err e, fs)
  | Ok n =>
      if same_file fs src dst then (Ok tt, fs)
      else if is_prefix (comps_of fs src) (comps_of fs dst)
      then (Err (OSError EINVAL dst), fs)
      else
        match
          change dst (fun old =>
            match old, n with
            | None, _ => inr (Some n)
            | Some (File _ _), File _ _ => inr (Some n)
            | Some (File _ _), Dir _ _ => inl ENOTDIR
            | Some (Dir _ _), File _ _ => inl EISDIR
            | Some (Dir _ []), Dir _ _ => inr (Some n)
            | Some (Dir _ (_ :: _)), Dir _ _ => inl ENOTEMPTY
            end) fs
        with
        | (Err e, fs1) => (Err e, fs1)
        | (Ok _, fs1) => change src (fun _ => inr None) fs1
        end
  end.

(** [shutil.move]: into the destination when that is a directory, where
    the name must be free; otherwise a rename. *)
Definition move (src dst : str) (fs : t) : result unit * t :=
  if isdir fs dst then
    if same_file fs src dst then rename src dst fs
    else
      let real_dst :=
        Posixpath.join dst
          (Posixpath.basename (rstrip Posixpath.slash src)) in
      if path_exists fs real_dst then (Err (ShutilError real_dst), fs)
      else rename src real_dst fs
  else rename src dst fs.

End TreeFS.

#[export] Instance TreeFS_OS : OS TreeFS.t := {
  getcwd := TreeFS.cwd;
  listdir := TreeFS.listdir;
  isdir := TreeFS.isdir;
  path_exists := TreeFS.path_exists;
  getsize := TreeFS.getsize;
  getmtime := TreeFS.getmtime;
  copytree := TreeFS.copytree;
  copy2 := TreeFS.copy2;
  move := TreeFS.move;
  rmtree := TreeFS.rmtree;
  remove := TreeFS.remove;
  makedirs := TreeFS.makedirs;
  write_text := TreeFS.write_text;
  rename := TreeFS.rename
}.

(** ** The main window: the operations of the keys and the menu *)

(** Once [init_ui] has run the window has an active panel, the left one
    at first, and each panel has the window as its [parent_window]; the
    operations are modelled from there on.  What the user selected and
    answered in the message boxes and input dialogs is given as
    arguments. *)

(** The message box an operation ends with: [QMessageBox.information]
    or [QMessageBox.critical] with the text of the exception. *)
Inductive notice :=
| Notice_done
| Notice_failed (e : errtext).

Definition other (s : side) : side :=
  match s with Left => Right | Right => Left end.

(** [panel_a == panel_b] on the two panels of the window. *)
Definition side_eqb (a b : side) : bool :=
  match a, b with
  | Left, Left | Right, Right => true
  | _, _ => false
  end.

Section Window.

Context {FS : Type} `{OS FS}.

(** [DualExplorerWindow.get_inactive_panel] *)
Definition get_inactive_panel (w : @world FS) : panel :=
  panel_of w (other (active_panel w)).

(** [try: body; QMessageBox.information(...); after
     except Exception as e: QMessageBox.critical(...)] *)
Definition attempt (body after : @M FS unit)
  : @world FS -> option notice * @world FS :=
  fun w =>
    match bind body (fun _ => after) w with
    | (Ok _, w') => (Some Notice_done, w')
    | (Err e, w') => (Some (Notice_failed (Str_of e)), w')
    end.

(** [if os.path.isdir(p): shutil.copytree(p, q, dirs_exist_ok=True)
     else: shutil.copy2(p, q)] *)
Definition copy_path (source_path target_path : str) : @M FS unit :=
  bind (os_isdir source_path)
       (fun is_dir =>
          if is_dir then shutil_copytree source_path target_path
          else shutil_copy2 source_path target_path).

(** [if os.path.isdir(p): shutil.rmtree(p) else: os.remove(p)] *)
Definition delete_path (selected_path : str) : @M FS unit :=
  bind (os_isdir selected_path)
       (fun is_dir =>
          if is_dir then shutil_rmtree selected_path
          else os_remove selected_path).

(** [DualExplorerWindow.copy_file], with the path of the current item
    of the active panel, if any, and the answer to the question. *)
Definition copy_file (selected : option str) (reply : bool)
  : @world FS -> option notice * @world FS :=
  fun w =>
    match selected with
    | Some source_path =>
        if negb (truthy source_path) then (None, w)
        else
          let target_dir := current_path (get_inactive_panel w) in
          let source_name := Posixpath.basename source_path in
          let target_path := Posixpath.join target_dir source_name in
          if reply
          then attempt (copy_path source_path target_path) refresh_panels w
          else (None, w)
    | None => (None, w)
    end.

(** [DualExplorerWindow.move_file] *)
Definition move_file (selected : option str) (reply : bool)
  : @world FS -> option notice * @world FS :=
  fun w =>
    match selected with
    | Some source_path =>
        if negb (truthy source_path) then (None, w)
        else
          let target_dir := current_path (get_inactive_panel w) in
          let source_name := Posixpath.basename source_path in
          let target_path := Posixpath.join target_dir source_name in
          if reply
          then attempt (shutil_move source_path target_path) refresh_panels w
          else (None, w)
    | None => (None, w)
    end.

(** [DualExplorerWindow.create_directory], with what the input dialog
    returned. *)
Definition create_directory (dir_name : str) (ok : bool)
  : @world FS -> option notice * @world FS :=
  fun w =>
    if ok && truthy dir_name then
      let new_dir_path :=
        Posixpath.join (current_path (panel_of w (active_panel w)))
                       dir_name in
      attempt (os_makedirs new_dir_path false)
              (refresh_panel (active_panel w)) w
    else (None, w).

(** [DualExplorerWindow.create_file] *)
Definition create_file (file_name : str) (ok : bool)
  : @world FS -> option notice * @world FS :=
  fun w =>
    if ok && truthy file_name then
      let new_file_path :=
        Posixpath.join (current_path (panel_of w (active_panel w)))
                       file_name in
      attempt (open_write new_file_path [])
              (refresh_panel (active_panel w)) w
    else (None, w).

(** [DualExplorerWindow.delete_file] *)
Definition delete_file (selected : option str) (reply : bool)
  : @world FS -> option notice * @world FS :=
  fun w =>
    match selected with
    | Some selected_path =>
        if negb (truthy selected_path) then (None, w)
        else if reply
        then attempt (delete_path selected_path)
                     (refresh_panel (active_panel w)) w
        else (None, w)
    | None => (None, w)
    end.

(** [DualExplorerWindow.rename_file] *)
Definition rename_file (selected : option str) (new_name : str) (ok : bool)
  : @world FS -> option notice * @world FS :=
  fun w =>
    match selected with
    | Some selected_path =>
        if negb (truthy selected_path) then (None, w)
        else
          let old_name := Posixpath.basename selected_path in
          if ok && truthy new_name && negb (eqb new_name old_name) then
            let new_path :=
              Posixpath.join (Posixpath.dirname selected_path) new_name in
            attempt (os_rename selected_path new_path)
                    (refresh_panel (active_panel w)) w
          else (None, w)
    | None => (None, w)
    end.

(** [FilePanel.copy_to_other_panel] and [FilePanel.move_to_other_panel]
    on the panel [self], from the context menu of an item. *)
Definition target_of (self : side) (w : @world FS) : panel :=
  if side_eqb (active_panel w) self then get_inactive_panel w
  else panel_of w (active_panel w).

Definition copy_to_other_panel (self : side) (source_path : str)
           (reply : bool) : @world FS -> option notice * @world FS :=
  fun w =>
    let target_dir := current_path (target_of self w) in
    let source_name := Posixpath.basename source_path in
    let target_path := Posixpath.join target_dir source_name in
    if reply
    then attempt (copy_path source_path target_path) refresh_panels w
    else (None, w).

Definition move_to_other_panel (self : side) (source_path : str)
           (reply : bool) : @world FS -> option notice * @world FS :=
  fun w =>
    let target_dir := current_path (target_of self w) in
    let source_name := Posixpath.basename source_path in
    let target_path := Posixpath.join target_dir source_name in
    if reply
    then attempt (shutil_move source_path target_path) refresh_panels w
    else (None, w).

(** [FilePanel.rename_item] *)
Definition rename_item (self : side) (file_path new_name : str) (ok : bool)
  : @world FS -> option notice * @world FS :=
  fun w =>
    let old_name := Posixpath.basename file_path in
    if ok && truthy new_name && negb (eqb new_name old_name) then
      let new_path :=
        Posixpath.join (Posixpath.dirname file_path) new_name in
      attempt (os_rename file_path new_path) (refresh_panel self) w
    else (None, w).

(** [FilePanel.delete_item] *)
Definition delete_item_of (self : side) (file_path : str) (reply : bool)
  : @world FS -> option notice * @world FS :=
  fun w =>
    if reply
    then attempt (delete_path file_path) (refresh_panel self) w
    else (None, w).

End Window.

(** [FilePanel.handle_file_drop] on the panel [self], with the path that
    was dropped and the answer to the question. *)
Definition handle_file_drop {FS : Type} `{OS FS} (self : side)
           (source_path : str) (reply : bool)
  : @world FS -> option notice * @world FS :=
  fun w =>
    if negb (path_exists (fs w) source_path) then (None, w)
    else
      let target_dir := current_path (panel_of w self) in
      let source_name := Posixpath.basename source_path in
      let target_path := Posixpath.join target_dir source_name in
      if eqb (Posixpath.dirname source_path) target_dir then (None, w)
      else if reply
      then attempt (shutil_move source_path target_path)
                   (bind (refresh_panel self) (fun _ => refresh_panels)) w
      else (None, w).

(** * Specification vocabulary *)

(** [needle] occurs in [hay]. *)
Definition is_substring (needle hay : str) : Prop :=
  exists before after, hay = before ++ needle ++ after.

(** The base name the search compares with, lower-cased. *)
Definition file_name_of (it : item) : str :=
  match user_role it with
  | Some file_path =>
      if truthy file_path then lower (Posixpath.basename file_path) else []
  | None => []
  end.

(** The search as the specification words it: the item's base name or its
    display string matches the pattern as a shell glob, letter case
    ignored. *)
Definition spec_glob_hit (pattern : str) (it : item) : bool :=
  Fnmatch.fnmatch (file_name_of it) (lower pattern)
  || Fnmatch.fnmatch (lower (text it)) (lower pattern).

(** The action names [execute] and [on_response] know. *)
Definition known_actions : list str :=
  [$"copy"; $"move"; $"delete"; $"create_folder"; $"create_file";
   $"rename"; $"error"].

Definition known_action (a : str) : bool := existsb (eqb a) known_actions.

(** The status of the history entry with a given id. *)
Definition status_in (d : database) (message_id : Z) : option status :=
  match find (fun r => Z.eqb (id r) message_id) (rows d) with
  | Some r => status_of r
  | None => None
  end.

(** The states the history can be in: an empty table, and what the three
    writing methods make of a state. *)
Inductive reachable : database -> Prop :=
| reach_init : reachable init_database
| reach_add now d msg a b c st e :
    reachable d -> reachable (snd (add_message now d msg a b c st e))
| reach_update d i a b c st e :
    reachable d -> reachable (snd (update_message d i a b c st e))
| reach_clear d :
    reachable d -> reachable (clear_history d).

(** A submission as [send] makes it: a pending entry for the text. *)
Definition submit (d : database) (stamped : str * str) : database :=
  snd (add_message (fst stamped) d (snd stamped)
                   None None None (Some pending) None).

(** [a] may stand before [b] in an ascending order: the key of [b] is not
    smaller than that of [a]. *)
Definition ascending_by {A K : Type} (klt : K -> K -> bool) (key : A -> K)
           (a b : A) : Prop :=
  klt (key b) (key a) = false.

(** Ordered by name, letter case ignored: no entry's lower-cased name is
    smaller than that of the entry before it. *)
Definition name_le (a b : str) : Prop := ltb (lower b) (lower a) = false.


(** The pattern operation of each kind, and its action on one item. *)
Section Batch.

Context {FS : Type} `{OS FS}.

Definition batch (op : batch_op) : json -> @M FS unit :=
  match op with
  | Copying => do_copy
  | Moving => do_move
  | Deleting => do_delete
  end.

Definition item_action (op : batch_op) (from_path to_path : str)
  : str -> @M FS unit :=
  match op with
  | Copying => copy_item from_path to_path
  | Moving => move_item from_path to_path
  | Deleting => delete_item from_path
  end.

(** The world once the source directory has been listed. *)
Definition listed (path : str) (w : @world FS) : @world FS :=
  with_fs (fs w) (Sys_listdir path) w.

End Batch.

(** Whether the path an item stands for is a directory. *)
Definition item_isdir {FS : Type} `{OS FS} (fs0 : FS) (it : item) : bool :=
  match user_role it with
  | Some path => isdir fs0 path
  | None => false
  end.

(** The file system root: a path of slashes only ([/], and [//] which
    POSIX keeps apart). *)
Definition is_root (path : str) : bool := all_eq Posixpath.slash path.

(** The rows stand in the order of their ids. *)
Definition by_id (a b : row) : Prop := (id a < id b)%Z.


(** The dialog once an answer has come in and its message is shown: the
    input line unlocked, the "thinking" line gone, the message added. *)
Definition answered {FS : Type} (msg : json) (w : @world FS) : @world FS :=
  let w := with_input true w in
  let w := with_chat (filter (fun l => negb (is_thinking l)) (chat w)) w in
  with_chat (chat w ++ [Chat_ai msg]) w.


(** ** More vocabulary: texts, the dialog, batches, the window *)

(** A text that does not start with white space. *)
Definition starts_black (s : str) : Prop :=
  match s with
  | [] => True
  | c :: _ => isspace c = false
  end.

(** What [rstrip()] leaves of a text. *)
Definition rstripped (s : str) : str := rev (lstrip (rev s)).

(** The character code fences are made of. *)
Definition backtick : N := 96.

(** A text without that character. *)
Definition no_backtick (s : str) : Prop :=
  existsb (N.eqb backtick) s = false.

(** Two worlds that differ in the file system and the noted calls at
    most: history, chat, lock, current entry and panels are the same. *)
Definition same_dialog {FS : Type} (w w' : @world FS) : Prop :=
  db w' = db w
  /\ current_message_id w' = current_message_id w
  /\ input_enabled w' = input_enabled w
  /\ chat w' = chat w
  /\ left_panel w' = left_panel w
  /\ right_panel w' = right_panel w
  /\ active_panel w' = active_panel w.

(** A command that acts on the file system only. *)
Definition fs_only {FS : Type} {A : Type} (m : @M FS A) : Prop :=
  forall w, same_dialog w (snd (m w)).

(** Two worlds with the same file system, noted calls and panels. *)
Definition same_disk {FS : Type} (w w' : @world FS) : Prop :=
  fs w' = fs w
  /\ trace w' = trace w
  /\ left_panel w' = left_panel w
  /\ right_panel w' = right_panel w.

(** The request in flight has an entry in the history. *)
Definition in_flight {FS : Type} (i : Z) (w : @world FS) : Prop :=
  current_message_id w = Some i
  /\ i <> 0%Z
  /\ In i (map id (rows (db w))).

(** The entry of a request has reached an end state. *)
Definition settled (d : database) (i : Z) : Prop :=
  status_in d i = Some success \/ status_in d i = Some error.

(** The error text the history keeps for an entry. *)
Definition error_in (d : database) (message_id : Z) : option errtext :=
  match find (fun r => Z.eqb (id r) message_id) (rows d) with
  | Some r => error_message r
  | None => None
  end.

(** What [json.loads] gave is no command to run: no JSON at all, no
    object, an object without [action], or one whose action is
    [error]. *)
Definition not_a_command (loaded : result json) : Prop :=
  match loaded with
  | Ok (JObj members) =>
      match dict_get members $"action" with
      | Some action' => is_str action' $"error" = true
      | None => True
      end
  | _ => True
  end.

(** [cmd.get('params', {})] *)
Definition params_of (members : list (str * json)) : json :=
  match dict_get members $"params" with
  | Some x => x
  | None => JObj []
  end.

(** The call a pattern operation makes for one item. *)
Definition acts_on (op : batch_op) (from_path to_path item : str)
           (c : syscall) : Prop :=
  let src := Posixpath.join from_path item in
  let dst := Posixpath.join to_path item in
  match op with
  | Copying => c = Sys_copytree src dst \/ c = Sys_copy2 src dst
  | Moving => c = Sys_move src dst
  | Deleting => c = Sys_rmtree src \/ c = Sys_remove src
  end.

(** The entries of a listing a pattern selects, in their order. *)
Definition selected_by (pattern : str) (items : list str) : list str :=
  filter (fun item => Fnmatch.fnmatch item pattern) items.

(** Something is selected: [get_selected_path] gave a path. *)
Definition picked (selected : option str) : bool :=
  match selected with Some p => truthy p | None => false end.

(** How an operation of the window ends.  It leaves the history, the
    chat and the choice of the active panel alone.  Without the user's
    consent there is no message box and the world is as it was; with it,
    a failure is reported and no panel listed again, a success is
    reported and the panels [refreshed] list their directories again
    from the file system the operation left. *)
Definition ends_as {FS : Type} `{OS FS} (refreshed : side -> bool)
           (consent : bool) (w : @world FS)
           (res : option notice * @world FS) : Prop :=
  db (snd res) = db w
  /\ chat (snd res) = chat w
  /\ active_panel (snd res) = active_panel w
  /\ match fst res with
     | None => consent = false /\ snd res = w
     | Some Notice_done =>
         consent = true
         /\ forall s,
             panel_of (snd res) s
             = if refreshed s
               then refresh (fs (snd res)) (panel_of w s)
               else panel_of w s
     | Some (Notice_failed _) =>
         consent = true /\ forall s, panel_of (snd res) s = panel_of w s
     end.

Definition both : side -> bool := fun _ => true.

(** A command that lists the panels [refreshed] again and does nothing
    else. *)
Definition refreshes {FS : Type} `{OS FS} (refreshed : side -> bool)
           (after : @M FS unit) : Prop :=
  forall w1, exists w2,
    after w1 = (Ok tt, w2)
    /\ fs w2 = fs w1 /\ db w2 = db w1 /\ chat w2 = chat w1
    /\ active_panel w2 = active_panel w1
    /\ forall s,
        panel_of w2 s
        = if refreshed s then refresh (fs w1) (panel_of w1 s)
          else panel_of w1 s.

(** A directory path as the panels keep it: without a slash at its end,
    or the root. *)
Definition tidy (path : str) : Prop :=
  rstrip Posixpath.slash path = path \/ is_root path = true.

(** * Sample worlds *)

(** Typing into the search box: [textChanged] runs [filter_files]. *)
Definition type_search (typed : str) (p : panel) : panel :=
  filter_files
    {| current_path := current_path p; sort_mode_of := sort_mode_of p;
       search_input := typed; file_list := file_list p;
       all_items := all_items p |}.

(** A panel that has not loaded anything yet. *)
Definition fresh_panel (path : str) (mode : sort_mode) : panel :=
  {| current_path := path; sort_mode_of := mode; search_input := [];
     file_list := []; all_items := [] |}.

(** A tree with the two directories [/A] and [/B]. *)
Definition two_dirs (a_entries b_entries : list (str * TreeFS.node))
  : TreeFS.t :=
  {| TreeFS.root := [($"A", TreeFS.Dir 1 a_entries);
                     ($"B", TreeFS.Dir 1 b_entries)];
     TreeFS.cwd := $"/";
     TreeFS.clock := 10 |}.

(** The window with [/A] on the left and [/B] on the right, the left
    panel active, an empty history and nothing in flight. *)
Definition window_on (fs0 : TreeFS.t) : @world TreeFS.t :=
  {| fs := fs0;
     left_panel := fresh_panel $"/A" name_asc;
     right_panel := fresh_panel $"/B" name_asc;
     active_panel := Left;
     db := init_database;
     current_message_id := None;
     input_enabled := true;
     chat := [];
     trace := [] |}.

(** [/A] holding [a.txt], [b.txt] and [c.log]. *)
Definition abc (ta tb tc : str) : list (str * TreeFS.node) :=
  [($"a.txt", TreeFS.File 1 ta); ($"b.txt", TreeFS.File 2 tb);
   ($"c.log", TreeFS.File 3 tc)].

Definition sample_fs : TreeFS.t := two_dirs (abc $"aa" $"bbb" $"c") [].

Definition sample_world : @world TreeFS.t := window_on sample_fs.

(** [{"pattern": pattern, "from": "left", "to": "right"}] *)
Definition left_to_right (pattern : str) : json :=
  JObj [($"pattern", JStr pattern); ($"from", JStr $"left");
        ($"to", JStr $"right")].


(** Ten submissions, stamped with the time and carrying the text. *)
Definition ten_requests : list (str * str) :=
  map (fun t => ($"2026-01-01", t))
      [$"r0"; $"r1"; $"r2"; $"r3"; $"r4"; $"r5"; $"r6"; $"r7"; $"r8"; $"r9"].

(** [/A] as before, and [/B] holding a directory [b.txt] with an entry
    [b.txt] in it: [shutil.move] of [/A/b.txt] to [/B/b.txt] finds the
    place taken. *)
Definition blocked_world : @world TreeFS.t :=
  window_on
    (two_dirs (abc $"aa" $"bbb" $"c")
              [($"b.txt", TreeFS.Dir 1 [($"b.txt", TreeFS.File 1 $"x")])]).

(** A text between double quotes. *)
Definition quoted (s : str) : str := 34%N :: s ++ [34%N].

(** The answer [{"action": "teleport", "params": {}, "message": "beam up"}]
    and the value it decodes to. *)
Definition teleport_text : str :=
  $"{" ++ quoted $"action" ++ $": " ++ quoted $"teleport" ++ $", "
       ++ quoted $"params" ++ $": {}, "
       ++ quoted $"message" ++ $": " ++ quoted $"beam up" ++ $"}".

Definition teleport_cmd : json :=
  JObj [($"action", JStr $"teleport"); ($"params", JObj []);
        ($"message", JStr $"beam up")].

(** A decoder that knows the texts of a table and raises on any other. *)
Definition loads_table (table : list (str * json)) (text : str)
  : result json :=
  match find (fun entry => eqb (fst entry) text) table with
  | Some entry => Ok (snd entry)
  | None => Err JSONDecodeError
  end.

(** The sample window after a request has been sent. *)
Definition pending_world : @world TreeFS.t :=
  fst (send $"2026-01-01T00:00:00" $"teleport me home" sample_world).

(** [/A] holding the directory [docs] and the file [a.txt]. *)
Definition cluttered_world : @world TreeFS.t :=
  window_on
    (two_dirs [($"docs", TreeFS.Dir 1 [($"x", TreeFS.File 1 $"x")]);
               ($"a.txt", TreeFS.File 1 $"aa")]
              []).

(** [{"name": name, "content": content}] *)
Definition named (name content : str) : json :=
  JObj [($"name", JStr name); ($"content", JStr content)].

(** The answer [{"action": "error", "message": 0}] and the value it
    decodes to: the message is the number zero. *)
Definition zero_text : str :=
  $"{" ++ quoted $"action" ++ $": " ++ quoted $"error" ++ $", "
       ++ quoted $"message" ++ $": 0}".

Definition zero_cmd : json :=
  JObj [($"action", JStr $"error"); ($"message", JNum 0)].

(** The sample window after that answer has come in for the request
    sent. *)
Definition answered_world : @world TreeFS.t :=
  on_response (loads_table [(zero_text, zero_cmd)]) zero_text true
              pending_world.

(** Names with letters outside ASCII: [éa], [Éb], [ÄB.txt], and the
    search text [äb]. *)
Definition e_acute_a : str := [233; 97]%N.
Definition cap_e_acute_b : str := [201; 98]%N.
Definition cap_a_umlaut_b_txt : str := [196; 66]%N ++ $".txt".
Definition a_umlaut_b : str := [228; 98]%N.

(** [/A] holding the directories [Éb] and [éa] and the file [ÄB.txt]. *)
Definition accented_fs : TreeFS.t :=
  two_dirs [(cap_e_acute_b, TreeFS.Dir 1 []);
            (e_acute_a, TreeFS.Dir 2 []);
            (cap_a_umlaut_b_txt, TreeFS.File 1 $"x")]
           [].

(** * Properties *)

(** ** Strings *)

Lemma eqb_eq (a b : str) : eqb a b = true <-> a = b.
Proof.
  revert b; induction a as [|x a IH]; intros [|y b]; simpl;
    try (split; [discriminate | congruence]); try tauto.
  rewrite andb_true_iff, N.eqb_eq, IH.
  split; [intros [-> ->]; reflexivity | intros E; inversion E; auto].
Qed.

Lemma eqb_refl (a : str) : eqb a a = true.
Proof. apply eqb_eq; reflexivity. Qed.

Lemma startswith_spec (pre s : str) :
  startswith pre s = true <-> exists rest, s = pre ++ rest.
Proof.
  revert s; induction pre as [|x pre IH]; intros s; simpl.
  - split; [eauto | reflexivity].
  - destruct s as [|y s].
    + split; [discriminate | intros [rest E]; discriminate].
    + rewrite andb_true_iff, N.eqb_eq, IH. split.
      * intros [-> [rest ->]]; eauto.
      * intros [rest E]; inversion E; eauto.
Qed.

Lemma contains_spec (needle hay : str) :
  contains needle hay = true <-> is_substring needle hay.
Proof.
  unfold is_substring.
  induction hay as [|c hay IH]; simpl.
  - rewrite orb_false_r, startswith_spec. split.
    + intros [rest E]; exists [], rest; exact E.
    + intros [[|b before] [after E]]; [eauto | discriminate].
  - rewrite orb_true_iff, startswith_spec, IH. split.
    + intros [[rest E] | [before [after E]]].
      * exists [], rest; exact E.
      * exists (c :: before), after; simpl; congruence.
    + intros [[|b before] [after E]]; simpl in E.
      * left; eauto.
      * right; inversion E; eauto.
Qed.

Lemma truthy_lower (s : str) : truthy (lower s) = truthy s.
Proof.
  destruct s as [|c s]; [reflexivity |].
  unfold lower. cbn [lower_from]. unfold lower_at.
  destruct (N.eqb c capital_sigma); [reflexivity |].
  destruct (N.eqb c 304); reflexivity.
Qed.

(** [str.lower] beyond ASCII: ['ÄB.txt'.lower()], a capital sigma within
    and at the end of a word, after a full stop, and the capital I with
    a dot. *)
Example lower_samples :
  lower cap_a_umlaut_b_txt = [228; 98]%N ++ $".txt"
  /\ lower [927; 916; 933; 931; 931; 917; 933; 931]%N
     = [959; 948; 965; 963; 963; 949; 965; 962]%N
  /\ lower ([913; 931]%N ++ $".TXT") = [945; 963]%N ++ $".txt"
  /\ lower [304; 1168]%N = [105; 775; 1169]%N.
Proof. vm_compute. repeat split. Qed.

(** ** The live search *)

Lemma filter_none {A} (f : A -> bool) (l : list A) :
  (forall x, In x l -> f x = false) -> filter f l = [].
Proof.
  induction l as [|x l IH]; simpl; intros Hall; [reflexivity |].
  rewrite (Hall x (or_introl eq_refl)). apply IH. auto.
Qed.

Lemma search_hit_spec (search_text : str) (it : item) :
  search_hit search_text it = true <->
  is_substring search_text (lower (text it))
  \/ is_substring search_text (file_name_of it).
Proof.
  unfold search_hit, file_name_of.
  rewrite orb_true_iff, !contains_spec. reflexivity.
Qed.

(** C3, as stated, fails: with [*.txt] typed over the listing of [/A] the
    search shows nothing, while the glob selects [a.txt] and [b.txt]. *)
Lemma search_is_not_glob :
  let p := type_search $"*.txt"
             (load_directory sample_fs (fresh_panel $"/A" name_asc) $"/A") in
  file_list p = []
  /\ map text (filter (spec_glob_hit (search_input p)) (all_items p))
     = [$"a.txt (2.0 " ++ [1041%N] ++ $")"; $"b.txt (3.0 " ++ [1041%N] ++ $")"]
  /\ file_list p <> filter (spec_glob_hit (search_input p)) (all_items p).
Proof.
  vm_compute. repeat split. discriminate.
Qed.

(** C3, amended: for a non-empty text typed, the search shows exactly the
    cached items, in cache order, whose lower-cased display text or
    lower-cased base name contains the lower-cased text as a substring
    (no glob matching; the pattern operations use [fnmatch] instead); the
    cache is left as it is, and when no item qualifies the list shown is
    empty. *)
Theorem filter_files_substring_search (p : panel) :
  search_input p <> [] ->
  let typed := lower (search_input p) in
  let qualifies it :=
    is_substring typed (lower (text it))
    \/ is_substring typed (file_name_of it) in
  (exists keep,
      file_list (filter_files p) = filter keep (all_items p)
      /\ forall it, keep it = true <-> qualifies it)
  /\ (forall it, In it (file_list (filter_files p)) <->
                 In it (all_items p) /\ qualifies it)
  /\ all_items (filter_files p) = all_items p
  /\ ((forall it, In it (all_items p) -> ~ qualifies it) ->
      file_list (filter_files p) = []).
Proof.
  intros Hne.
  assert (Htruthy : truthy (lower (search_input p)) = true).
  { rewrite truthy_lower.
    destruct (search_input p); [congruence | reflexivity]. }
  intros typed qualifies.
  assert (Hshown : file_list (filter_files p)
                   = filter (search_hit typed) (all_items p)).
  { unfold filter_files; simpl. unfold typed. rewrite Htruthy. reflexivity. }
  split; [| split; [| split]].
  - exists (search_hit typed). split; [exact Hshown |].
    intros it. apply search_hit_spec.
  - intros it. rewrite Hshown, filter_In, search_hit_spec.
    unfold qualifies. tauto.
  - reflexivity.
  - intros Hnone. rewrite Hshown. apply filter_none.
    intros it Hin. destruct (search_hit typed it) eqn:E; [| reflexivity].
    apply search_hit_spec in E. destruct (Hnone it Hin E).
Qed.

Lemma filter_files_substring_search_witness :
  let p := type_search a_umlaut_b
             (load_directory accented_fs (fresh_panel $"/A" name_asc) $"/A") in
  search_input p <> []
  /\ map text (file_list (filter_files p))
     = [cap_a_umlaut_b_txt ++ $" (1.0 " ++ [1041%N] ++ $")"]
  /\ all_items (filter_files p) = all_items p.
Proof.
  split; [vm_compute; discriminate |].
  split; [vm_compute; reflexivity |].
  apply (filter_files_substring_search
           (type_search a_umlaut_b
              (load_directory accented_fs (fresh_panel $"/A" name_asc)
                              $"/A"))).
  vm_compute; discriminate.
Defined.

(** ** The guard of the pattern operations *)

Section Guard.

Context {FS : Type} `{OS FS}.

Lemma has_separator_spec (pattern : str) :
  has_separator pattern = true <->
  is_substring $"," pattern
  \/ is_substring sep_and (lower pattern)
  \/ is_substring sep_i (lower pattern).
Proof.
  unfold has_separator.
  rewrite !orb_true_iff, !contains_spec. tauto.
Qed.

(** C6: a pattern operation whose pattern holds a comma, or the word
    [and] or [и] between spaces in any letter case, raises the
    several-files error and leaves the world as it found it: no
    directory has been listed, nothing has been changed. *)
Theorem separator_pattern_rejected
        (op : batch_op) (members : list (str * json)) (pattern : str)
        (w : @world FS) :
  dict_get members $"pattern" = Some (JStr pattern) ->
  is_substring $"," pattern
  \/ is_substring sep_and (lower pattern)
  \/ is_substring sep_i (lower pattern) ->
  batch op (JObj members) w = (Err (MultipleFiles op), w).
Proof.
  intros Hpat Hsep. apply has_separator_spec in Hsep.
  destruct op; unfold batch, do_copy, do_move, do_delete, get_default,
    get, bind, ret, raise, reject_multiple;
    rewrite Hpat, Hsep; reflexivity.
Qed.

End Guard.

Lemma separator_pattern_rejected_witness :
  batch Deleting (JObj [($"pattern", JStr $"a.txt AND b.txt");
                        ($"from", JStr $"left")]) sample_world
  = (Err (MultipleFiles Deleting), sample_world).
Proof.
  apply (separator_pattern_rejected Deleting
           [($"pattern", JStr $"a.txt AND b.txt"); ($"from", JStr $"left")]
           (pattern := $"a.txt AND b.txt")).
  - reflexivity.
  - right; left. exists $"a.txt", $"b.txt". reflexivity.
Defined.

(** ** [sorted] *)

Section SortedFacts.

Variables (A K : Type) (klt : K -> K -> bool) (key : A -> K).

Hypothesis klt_asym : forall a b, klt a b = true -> klt b a = false.

Lemma insert_by_perm (x : A) (l : list A) :
  Permutation (insert_by klt key x l) (x :: l).
Proof.
  induction l as [|y l IH]; simpl; [reflexivity |].
  destruct (klt (key y) (key x)); [| reflexivity].
  rewrite IH. apply perm_swap.
Qed.

Lemma sort_by_perm (l : list A) : Permutation (sort_by klt key l) l.
Proof.
  induction l as [|x l IH]; simpl; [reflexivity |].
  rewrite insert_by_perm. constructor. exact IH.
Qed.

Lemma sorted_perm (reverse : bool) (l : list A) :
  Permutation (sorted klt key reverse l) l.
Proof.
  unfold sorted. destruct reverse.
  - rewrite <- Permutation_rev, sort_by_perm, <- Permutation_rev.
    reflexivity.
  - apply sort_by_perm.
Qed.

Lemma insert_by_HdRel (y x : A) (l : list A) :
  HdRel (ascending_by klt key) y l -> ascending_by klt key y x ->
  HdRel (ascending_by klt key) y (insert_by klt key x l).
Proof.
  intros Hhd Hyx. destruct l as [|z l]; simpl; [constructor; exact Hyx |].
  destruct (klt (key z) (key x)); constructor; [| exact Hyx].
  inversion Hhd; assumption.
Qed.

Lemma insert_by_Sorted (x : A) (l : list A) :
  Sorted (ascending_by klt key) l ->
  Sorted (ascending_by klt key) (insert_by klt key x l).
Proof.
  induction 1 as [|y l Hs IH Hhd]; simpl.
  - repeat constructor.
  - destruct (klt (key y) (key x)) eqn:E.
    + constructor; [exact IH |].
      apply insert_by_HdRel; [exact Hhd |].
      unfold ascending_by. apply klt_asym. exact E.
    + constructor; [constructor; assumption |].
      constructor. exact E.
Qed.

Lemma sort_by_Sorted (l : list A) :
  Sorted (ascending_by klt key) (sort_by klt key l).
Proof.
  induction l as [|x l IH]; simpl; [constructor |].
  apply insert_by_Sorted. exact IH.
Qed.

Lemma Sorted_snoc (R : A -> A -> Prop) (m : list A) (a : A) :
  Sorted R m ->
  (forall pre y, m = pre ++ [y] -> R y a) ->
  Sorted R (m ++ [a]).
Proof.
  induction 1 as [|y m Hs IH Hhd]; simpl; intros Hlast.
  - repeat constructor.
  - constructor.
    + apply IH. intros pre z E. apply (Hlast (y :: pre) z).
      simpl; congruence.
    + destruct m as [|z m]; simpl.
      * constructor. apply (Hlast [] y). reflexivity.
      * constructor. inversion Hhd; assumption.
Qed.

Lemma Sorted_rev (R : A -> A -> Prop) (l : list A) :
  Sorted R l -> Sorted (fun a b => R b a) (rev l).
Proof.
  induction 1 as [|x l Hs IH Hhd]; simpl; [constructor |].
  apply Sorted_snoc; [exact IH |].
  intros pre y E.
  assert (El : l = y :: rev pre).
  { rewrite <- (rev_involutive l), E, rev_app_distr. reflexivity. }
  subst l. inversion Hhd; assumption.
Qed.

Lemma sorted_Sorted (reverse : bool) (l : list A) :
  Sorted (fun a b => if reverse then ascending_by klt key b a
                     else ascending_by klt key a b)
         (sorted klt key reverse l).
Proof.
  unfold sorted. destruct reverse.
  - apply Sorted_rev with (R := (ascending_by klt key)). apply sort_by_Sorted.
  - apply sort_by_Sorted.
Qed.

End SortedFacts.

Lemma ltb_asym (a b : str) : ltb a b = true -> ltb b a = false.
Proof.
  revert b; induction a as [|x a IH]; intros [|y b]; simpl; try congruence.
  destruct (N.ltb_spec x y) as [Hlt | Hge].
  - intros _. destruct (N.ltb_spec y x); [lia |].
    destruct (N.eqb_spec y x); [lia | reflexivity].
  - destruct (N.eqb_spec x y) as [-> | Hne]; [| discriminate].
    rewrite N.ltb_irrefl, N.eqb_refl. apply IH.
Qed.





(** ** The order of a listing *)


Section Order.

Context {FS : Type} `{OS FS}.


End Order.


(** ** The root test of [load_directory] *)

Lemma after_last_all (c : N) (s : str) :
  all_eq c s = true -> after_last c s = length s.
Proof.
  unfold all_eq. induction s as [|x s IH]; simpl; [reflexivity |].
  rewrite andb_true_iff, N.eqb_eq. intros [<- Hs].
  rewrite (IH Hs), N.eqb_refl. destruct s; reflexivity.
Qed.

Lemma firstn_after_last (c : N) (s : str) (k : nat) :
  after_last c s = S k -> firstn (S k) s = firstn k s ++ [c].
Proof.
  revert k; induction s as [|x s IH]; simpl; intros k; [discriminate |].
  destruct (after_last c s) as [|j] eqn:E.
  - destruct (N.eqb_spec x c) as [-> |]; [| discriminate].
    intros [= <-]. reflexivity.
  - intros [= <-]. rewrite (IH j eq_refl). reflexivity.
Qed.

Lemma rstrip_snoc (c : N) (s : str) : rstrip c (s ++ [c]) = rstrip c s.
Proof.
  induction s as [|x s IH]; simpl.
  - rewrite N.eqb_refl. reflexivity.
  - rewrite IH. reflexivity.
Qed.

Lemma rstrip_length (c : N) (s : str) : length (rstrip c s) <= length s.
Proof.
  induction s as [|x s IH]; simpl; [lia |].
  destruct (rstrip c s); [destruct (N.eqb x c) |]; simpl in *; lia.
Qed.

(** [os.path.dirname(p) != p] is the test for "not the root". *)
Lemma dirname_fixed_iff_root (p : str) :
  Posixpath.dirname p = p <-> is_root p = true.
Proof.
  unfold Posixpath.dirname, is_root. split.
  - destruct (after_last Posixpath.slash p) as [|k] eqn:E.
    + simpl. intros <-. reflexivity.
    + rewrite (firstn_after_last _ _ E).
      destruct (truthy _ && negb (all_eq _ _)) eqn:C.
      * rewrite rstrip_snoc. intros Heq. exfalso.
        assert (Hlen : length (rstrip Posixpath.slash (firstn k p))
                       <= length (firstn k p)) by apply rstrip_length.
        assert (Hk : length (firstn (S k) p) <= length p)
          by (rewrite length_firstn; lia).
        rewrite (firstn_after_last _ _ E), length_app in Hk. simpl in Hk.
        rewrite Heq in Hlen. lia.
      * intros Heq. rewrite Heq in C.
        destruct p as [|x p]; [reflexivity |].
        apply andb_false_iff in C. destruct C as [C | C]; [discriminate |].
        apply negb_false_iff in C. exact C.
  - intros Hall. rewrite (after_last_all _ _ Hall), firstn_all, Hall.
    rewrite andb_false_r. reflexivity.
Qed.

Lemma parent_items_spec (cur : str) :
  parent_items cur = if is_root cur then [] else [parent_item cur].
Proof.
  unfold parent_items.
  destruct (eqb (Posixpath.dirname cur) cur) eqn:E.
  - apply eqb_eq, dirname_fixed_iff_root in E. rewrite E. reflexivity.
  - destruct (is_root cur) eqn:R; [| reflexivity].
    apply dirname_fixed_iff_root, eqb_eq in R. congruence.
Qed.

Lemma filter_split_perm {A} (f : A -> bool) (l : list A) :
  Permutation (filter f l ++ filter (fun x => negb (f x)) l) l.
Proof.
  induction l as [|x l IH]; simpl; [reflexivity |].
  destruct (f x); simpl.
  - constructor. exact IH.
  - rewrite <- Permutation_middle. constructor. exact IH.
Qed.

Section Listing.

Context {FS : Type} `{OS FS}.

Lemma sort_entries_perm (fs0 : FS) (cur : str) (mode : sort_mode)
      (entries : list str) (is_dir : bool) :
  Permutation (sort_entries fs0 cur mode entries is_dir) entries.
Proof.
  unfold sort_entries. destruct mode, is_dir; apply sorted_perm.
Qed.

Lemma parent_items_fields (cur : str) :
  map text (parent_items cur) = (if is_root cur then [] else [$".."])
  /\ map user_role (parent_items cur)
     = (if is_root cur then [] else [Some (Posixpath.dirname cur)]).
Proof.
  rewrite parent_items_spec. destruct (is_root cur); split; reflexivity.
Qed.

Lemma dir_items_fields (cur : str) (dirs : list str) :
  map text (map (dir_item cur) dirs) = dirs
  /\ map user_role (map (dir_item cur) dirs)
     = map (fun name => Some (Posixpath.join cur name)) dirs.
Proof.
  rewrite !map_map. split; [apply map_id | reflexivity].
Qed.

Lemma file_items_fields (fs0 : FS) (cur : str) (files : list str) :
  map text (map (file_item fs0 cur) files)
  = map (fun name =>
           match getsize fs0 (Posixpath.join cur name) with
           | Ok size => name ++ $" (" ++ format_size size ++ $")"
           | Err _ => name
           end) files
  /\ map user_role (map (file_item fs0 cur) files)
     = map (fun name => Some (Posixpath.join cur name)) files.
Proof.
  rewrite !map_map. split; apply map_ext; intros name; unfold file_item;
    destruct (getsize fs0 (Posixpath.join cur name)); reflexivity.
Qed.

(** C7: whatever the sort mode, the list [load_directory] shows is the
    [..] item when the path loaded is not the root (and no such item when
    it is), then an item for every directory of the listing, then an item
    for every other entry; the cache for the search holds the same list.
    When the directory cannot be listed only the [..] item is shown.
    The [..] item has the text [..] and stands for the parent directory,
    which is another path than the one loaded; the item of a directory
    has the name as its text, the item of any other entry the name and,
    when the size can be read, the size; each stands for the path of the
    entry in the directory loaded. *)
Theorem load_directory_layout (fs0 : FS) (p : panel) (path : str) :
  let p' := load_directory fs0 p path in
  let cur := current_path p' in
  (forall entries,
      listdir fs0 cur = Ok entries ->
      exists dirs files,
        file_list p'
        = parent_items cur
            ++ map (dir_item cur) dirs ++ map (file_item fs0 cur) files
        /\ Permutation (dirs ++ files) entries
        /\ Forall (fun it => item_isdir fs0 it = true)
                  (map (dir_item cur) dirs)
        /\ Forall (fun it => item_isdir fs0 it = false)
                  (map (file_item fs0 cur) files)
        /\ map text (file_list p')
           = (if is_root cur then [] else [$".."])
               ++ dirs
               ++ map (fun name =>
                         match getsize fs0 (Posixpath.join cur name) with
                         | Ok size =>
                             name ++ $" (" ++ format_size size ++ $")"
                         | Err _ => name
                         end) files
        /\ map user_role (file_list p')
           = (if is_root cur then [] else [Some (Posixpath.dirname cur)])
               ++ map (fun name => Some (Posixpath.join cur name))
                      (dirs ++ files))
  /\ (forall e, listdir fs0 cur = Err e -> file_list p' = parent_items cur)
  /\ (is_root cur = false -> parent_items cur = [parent_item cur])
  /\ (is_root cur = true -> parent_items cur = [])
  /\ all_items p' = file_list p'
  /\ cur = Posixpath.abspath (getcwd fs0) path
  /\ (is_root cur = false ->
      Posixpath.dirname cur <> cur
      /\ exists rest,
          file_list p'
          = {| text := $".."; user_role := Some (Posixpath.dirname cur) |}
              :: rest).
Proof.
  intros p' cur. subst p' cur. unfold load_directory. simpl.
  set (cur := Posixpath.abspath (getcwd fs0) path).
  split; [| split; [| split; [| split; [| split; [| split]]]]];
    try reflexivity.
  - intros entries Hls. rewrite Hls.
    set (is_d := fun entry => isdir fs0 (Posixpath.join cur entry)).
    exists (sort_entries fs0 cur (sort_mode_of p) (filter is_d entries) true),
           (sort_entries fs0 cur (sort_mode_of p)
              (filter (fun entry => negb (is_d entry)) entries) false).
    split; [reflexivity |]. split; [| split; [| split; [| split]]].
    + rewrite !sort_entries_perm. apply filter_split_perm.
    + apply Forall_map.
      eapply Permutation_Forall;
        [symmetry; apply sort_entries_perm |].
      apply Forall_forall. intros d Hd. apply filter_In in Hd.
      unfold item_isdir; simpl. apply Hd.
    + apply Forall_map.
      eapply Permutation_Forall;
        [symmetry; apply sort_entries_perm |].
      apply Forall_forall. intros f Hf. apply filter_In in Hf.
      destruct Hf as [_ Hf]. apply negb_true_iff in Hf.
      unfold item_isdir, file_item.
      destruct (getsize fs0 (Posixpath.join cur f)); simpl; exact Hf.
    + rewrite !map_app.
      rewrite (proj1 (parent_items_fields cur)),
        (proj1 (dir_items_fields cur _)),
        (proj1 (file_items_fields fs0 cur _)).
      reflexivity.
    + rewrite !map_app.
      rewrite (proj2 (parent_items_fields cur)),
        (proj2 (dir_items_fields cur _)),
        (proj2 (file_items_fields fs0 cur _)).
      reflexivity.
  - intros e Hls. rewrite Hls. reflexivity.
  - intros R. rewrite parent_items_spec, R. reflexivity.
  - intros R. rewrite parent_items_spec, R. reflexivity.
  - intros R. split.
    + intros E. apply dirname_fixed_iff_root in E. congruence.
    + rewrite parent_items_spec, R.
      destruct (listdir fs0 cur); eexists; reflexivity.
Qed.

End Listing.

Lemma load_directory_layout_witness :
  let fs0 := fs cluttered_world in
  let p' := load_directory fs0 (fresh_panel $"/" size_desc) $"/A" in
  listdir fs0 $"/A" = Ok [$"docs"; $"a.txt"]
  /\ is_root (current_path p') = false
  /\ map text (file_list p')
     = [$".."; $"docs"; $"a.txt (2.0 " ++ [1041%N] ++ $")"]
  /\ map user_role (file_list p')
     = [Some $"/"; Some $"/A/docs"; Some $"/A/a.txt"]
  /\ exists dirs files,
      file_list p'
      = parent_items (current_path p')
          ++ map (dir_item (current_path p')) dirs
          ++ map (file_item fs0 (current_path p')) files
      /\ Permutation (dirs ++ files) [$"docs"; $"a.txt"]
      /\ Forall (fun it => item_isdir fs0 it = true)
                (map (dir_item (current_path p')) dirs)
      /\ Forall (fun it => item_isdir fs0 it = false)
                (map (file_item fs0 (current_path p')) files).
Proof.
  split; [reflexivity |]. split; [reflexivity |].
  split; [vm_compute; reflexivity |]. split; [vm_compute; reflexivity |].
  pose proof (proj1 (@load_directory_layout
                       TreeFS.t TreeFS_OS (fs cluttered_world)
                       (fresh_panel $"/" size_desc) $"/A")
                    [$"docs"; $"a.txt"]) as Hlayout.
  destruct Hlayout as (dirs & files & H1 & H2 & H3 & H4 & _);
    [vm_compute; reflexivity |].
  exists dirs, files. auto.
Defined.

(** ** The history *)

Unset Implicit Arguments.

Lemma max_id_ge (rs : list row) (r : row) :
  In r rs -> (id r <= max_id rs)%Z.
Proof.
  induction rs as [|x rs IH]; simpl; [tauto |].
  intros [-> | Hin]; [lia |]. specialize (IH Hin). lia.
Qed.

Lemma StronglySorted_snoc {A} (R : A -> A -> Prop) (l : list A) (x : A) :
  StronglySorted R (l ++ [x]) <->
  StronglySorted R l /\ Forall (fun y => R y x) l.
Proof.
  induction l as [|y l IH]; simpl.
  - split; [intros _; split; constructor | intros _; repeat constructor].
  - split.
    + intros Hs. inversion Hs as [|? ? Hl Hy]; subst.
      apply IH in Hl. destruct Hl as [Hl Hx].
      apply Forall_app in Hy. destruct Hy as [Hy Hyx].
      split; constructor; auto. inversion Hyx; assumption.
    + intros [Hs Hx]. inversion Hs; subst. inversion Hx; subst.
      constructor; [apply IH; auto |].
      apply Forall_app. split; auto.
Qed.

Lemma add_message_rows now d msg a b c st e :
  rows (snd (add_message now d msg a b c st e)) = rows d
  \/ exists r,
      rows (snd (add_message now d msg a b c st e)) = rows d ++ [r]
      /\ id r = (Z.max (seq d) (max_id (rows d)) + 1)%Z
      /\ user_message r = msg.
Proof.
  unfold add_message. destruct (bindable a && bindable b); simpl; eauto.
Qed.

Lemma update_message_ids d i a b c st e :
  map id (rows (snd (update_message d i a b c st e))) = map id (rows d).
Proof.
  unfold update_message.
  destruct (bindable (given a) && bindable (given b)); simpl; [| reflexivity].
  rewrite map_map. apply map_ext. intros r.
  destruct (Z.eqb (id r) i); reflexivity.
Qed.

Lemma StronglySorted_by_id_map (l l' : list row) :
  map id l = map id l' ->
  StronglySorted by_id l -> StronglySorted by_id l'.
Proof.
  revert l'; induction l as [|x l IH]; intros [|y l'] E Hs;
    try discriminate; [constructor |].
  simpl in E. injection E as Exy El.
  inversion Hs as [|? ? Hl Hx]; subst.
  constructor; [apply IH; assumption |].
  unfold by_id in *. rewrite <- Exy.
  rewrite Forall_forall in *. intros z Hz.
  apply (in_map id) in Hz. rewrite <- El in Hz.
  apply in_map_iff in Hz. destruct Hz as [z' [Ez Hz']].
  rewrite <- Ez. apply Hx. exact Hz'.
Qed.

(** Every state of the history keeps its rows in the order of their ids:
    insertion order and id order are one. *)
Lemma reachable_by_id (d : database) :
  reachable d -> StronglySorted by_id (rows d).
Proof.
  induction 1 as [| now d msg a b c st e Hd IH | d i a b c st e Hd IH
                  | d Hd IH].
  - constructor.
  - destruct (add_message_rows now d msg a b c st e) as [-> | [r [-> [Hid _]]]];
      [exact IH |].
    apply StronglySorted_snoc. split; [exact IH |].
    apply Forall_forall. intros y Hy. unfold by_id. rewrite Hid.
    pose proof (max_id_ge _ _ Hy). lia.
  - eapply StronglySorted_by_id_map; [| exact IH].
    symmetry. apply update_message_ids.
  - constructor.
Qed.

Lemma insert_by_last {A K} (klt : K -> K -> bool) (key : A -> K)
      (x : A) (l : list A) :
  Forall (fun y => klt (key y) (key x) = true) l ->
  insert_by klt key x l = l ++ [x].
Proof.
  induction 1 as [|y l Hy Hl IH]; simpl; [reflexivity |].
  rewrite Hy, IH. reflexivity.
Qed.

Lemma sort_by_rev_sorted (l : list row) :
  StronglySorted by_id l -> sort_by Z.ltb id (rev l) = l.
Proof.
  induction l as [|x l IH] using rev_ind; intros Hs; [reflexivity |].
  apply StronglySorted_snoc in Hs. destruct Hs as [Hs Hx].
  rewrite rev_app_distr. simpl. rewrite (IH Hs).
  apply insert_by_last.
  eapply Forall_impl; [| exact Hx].
  intros y Hy. apply Z.ltb_lt. exact Hy.
Qed.

(** [ORDER BY id DESC] on rows kept in id order reverses them. *)
Lemma newest_first (l : list row) :
  StronglySorted by_id l -> sorted Z.ltb id true l = rev l.
Proof.
  intros Hs. unfold sorted. rewrite (sort_by_rev_sorted l Hs). reflexivity.
Qed.

Lemma get_recent_history_last (d : database) (n : nat) :
  StronglySorted by_id (rows d) ->
  get_recent_history d (Z.of_nat n) = skipn (length (rows d) - n) (rows d).
Proof.
  intros Hs. unfold get_recent_history. rewrite (newest_first (rows d) Hs).
  destruct (Z.ltb_spec (Z.of_nat n) 0); [lia |].
  rewrite Nat2Z.id, firstn_rev, rev_involutive. reflexivity.
Qed.

Lemma submit_rows (d : database) (stamped : str * str) :
  exists r, rows (submit d stamped) = rows d ++ [r]
            /\ user_message r = snd stamped.
Proof.
  unfold submit, add_message. simpl. eexists. split; reflexivity.
Qed.

Lemma submit_reachable (d : database) (stamped : str * str) :
  reachable d -> reachable (submit d stamped).
Proof. intros Hd. unfold submit. constructor. exact Hd. Qed.

Lemma submissions (texts : list (str * str)) (d : database) :
  reachable d ->
  reachable (fold_left submit texts d)
  /\ exists new,
      rows (fold_left submit texts d) = rows d ++ new
      /\ map user_message new = map snd texts.
Proof.
  revert d; induction texts as [|t texts IH]; simpl; intros d Hd.
  - split; [exact Hd |]. exists []. rewrite app_nil_r. split; reflexivity.
  - destruct (IH (submit d t) (submit_reachable d t Hd)) as [Hr [new [E Em]]].
    split; [exact Hr |].
    destruct (submit_rows d t) as [r [Er Et]].
    exists (r :: new). rewrite E, Er, <- app_assoc. simpl.
    split; [reflexivity | congruence].
Qed.

(** C9: in every state of the history, [get_recent_history(n)] is the
    last [n] rows in insertion order (all of them when there are fewer),
    the oldest first; after ten submissions [get_recent_history(6)] holds
    the six latest requests, the oldest of the six first. *)
Theorem recent_history_is_last_n (d : database) (n : nat) :
  reachable d ->
  get_recent_history d (Z.of_nat n) = skipn (length (rows d) - n) (rows d)
  /\ length (get_recent_history d (Z.of_nat n)) = Nat.min n (length (rows d))
  /\ StronglySorted by_id (get_recent_history d (Z.of_nat n))
  /\ forall texts,
      length texts = 10 ->
      map user_message (get_recent_history (fold_left submit texts d) 6)
      = map snd (skipn 4 texts).
Proof.
  intros Hd. pose proof (reachable_by_id d Hd) as Hs.
  rewrite (get_recent_history_last d n Hs).
  split; [reflexivity |]. split; [rewrite length_skipn; lia |].
  split.
  - rewrite <- (firstn_skipn (length (rows d) - n) (rows d)) in Hs.
    clear -Hs. induction (firstn _ _) as [|x l IH]; simpl in Hs;
      [exact Hs | inversion Hs; auto].
  - intros texts Hlen.
    destruct (submissions texts d Hd) as [Hr [new [E Em]]].
    change 6%Z with (Z.of_nat 6).
    rewrite (get_recent_history_last _ 6 (reachable_by_id _ Hr)), E.
    assert (Hn : length new = 10).
    { rewrite <- (length_map user_message), Em, length_map. exact Hlen. }
    rewrite length_app, Hn.
    replace (length (rows d) + 10 - 6) with (length (rows d) + 4) by lia.
    rewrite skipn_app, skipn_all2 by lia. cbn [app].
    replace (length (rows d) + 4 - length (rows d)) with 4 by lia.
    rewrite <- !skipn_map. congruence.
Qed.

Lemma recent_history_is_last_n_witness :
  reachable (fold_left submit ten_requests init_database)
  /\ map user_message
         (get_recent_history (fold_left submit ten_requests init_database)
                             (Z.of_nat 6))
     = [$"r4"; $"r5"; $"r6"; $"r7"; $"r8"; $"r9"].
Proof.
  assert (Hr : reachable (fold_left submit ten_requests init_database)).
  { apply submissions. constructor. }
  split; [exact Hr |].
  rewrite (proj1 (recent_history_is_last_n _ 6 Hr)).
  reflexivity.
Defined.

(** ** The loop of a pattern operation *)

Section Loop.

Context {FS : Type} `{OS FS}.

Variables (op : batch_op) (pattern : str) (act : str -> @M FS unit).

Lemma for_matching_app (pre post : list str) (count : nat) (w : @world FS) :
  for_matching op pattern act (pre ++ post) count w
  = match for_matching op pattern act pre count w with
    | (Ok count', w') => for_matching op pattern act post count' w'
    | (Err e, w') => (Err e, w')
    end.
Proof.
  revert count w; induction pre as [|item pre IH]; intros count w; simpl.
  - reflexivity.
  - destruct (Fnmatch.fnmatch item pattern); [| apply IH].
    unfold bind, try_except. destruct (act item w) as [[[] | e] w'].
    + apply IH.
    + reflexivity.
Qed.

Lemma for_matching_fails (item : str) (post : list str) (count : nat)
      (w w' : @world FS) (cause : exn) :
  Fnmatch.fnmatch item pattern = true ->
  act item w = (Err cause, w') ->
  for_matching op pattern act (item :: post) count w
  = (Err (ItemFailed op item cause), w').
Proof.
  intros Hm Hact. simpl. rewrite Hm.
  unfold bind, try_except, raise. rewrite Hact. reflexivity.
Qed.

Lemma for_matching_none (items : list str) (count : nat) (w : @world FS) :
  (forall item, In item items -> Fnmatch.fnmatch item pattern = false) ->
  for_matching op pattern act items count w = (Ok count, w).
Proof.
  revert count; induction items as [|item items IH]; intros count Hnone;
    simpl; [reflexivity |].
  rewrite (Hnone item (or_introl eq_refl)). apply IH.
  intros i Hi. apply Hnone. right. exact Hi.
Qed.

End Loop.

Section Pattern.

Context {FS : Type} `{OS FS}.

(** What a pattern operation comes to once its parameters are read and
    its pattern has passed the guard. *)
Lemma batch_unfold (op : batch_op) (members : list (str * json))
      (pattern : str) (w : @world FS) :
  dict_get members $"pattern" = Some (JStr pattern) ->
  has_separator pattern = false ->
  let from_path :=
    current_path (panel_of w (from_side (dict_get members $"from"))) in
  let to_path :=
    current_path (panel_of w (to_side (dict_get members $"to"))) in
  batch op (JObj members) w
  = match listdir (fs w) from_path with
    | Err e => (Err e, listed from_path w)
    | Ok items =>
        match for_matching op pattern (item_action op from_path to_path)
                           items 0 (listed from_path w) with
        | (Ok O, w') => (Err (NoMatch pattern), w')
        | (Ok (S _), w') => (Ok tt, w')
        | (Err e, w') => (Err e, w')
        end
    end.
Proof.
  intros Hpat Hsep from_path to_path. subst from_path to_path.
  destruct op; unfold batch, do_copy, do_move, do_delete, get_default, get,
    bind, ret, raise, read, reject_multiple, os_listdir, item_action, listed;
    rewrite Hpat, Hsep; cbv beta iota delta [ret];
    (destruct (listdir (fs w) _) as [items | e]; [| reflexivity]);
    (destruct (for_matching _ _ _ items 0 _) as [[[|n] | e] w']);
    reflexivity.
Qed.

(** C8: when the action on a matching item fails, the pattern operation
    ends there with the one error that names the item and the cause.  The
    world it leaves is the one the failed call left: what was done for
    the items before it stays done, and whatever stands after it in the
    listing is not touched. *)
Theorem batch_stops_at_first_failure
        (op : batch_op) (members : list (str * json)) (pattern : str)
        (w w_before w_after : @world FS)
        (pre post : list str) (item : str) (handled : nat) (cause : exn) :
  let from_path :=
    current_path (panel_of w (from_side (dict_get members $"from"))) in
  let to_path :=
    current_path (panel_of w (to_side (dict_get members $"to"))) in
  dict_get members $"pattern" = Some (JStr pattern) ->
  has_separator pattern = false ->
  listdir (fs w) from_path = Ok (pre ++ item :: post) ->
  for_matching op pattern (item_action op from_path to_path) pre 0
               (listed from_path w) = (Ok handled, w_before) ->
  Fnmatch.fnmatch item pattern = true ->
  item_action op from_path to_path item w_before = (Err cause, w_after) ->
  batch op (JObj members) w = (Err (ItemFailed op item cause), w_after).
Proof.
  intros from_path to_path Hpat Hsep Hls Hpre Hm Hfail.
  rewrite (batch_unfold op members pattern w Hpat Hsep).
  fold from_path to_path. rewrite Hls, for_matching_app, Hpre.
  rewrite (for_matching_fails op pattern _ item post handled
             w_before w_after cause Hm Hfail).
  reflexivity.
Qed.

End Pattern.

Lemma batch_stops_at_first_failure_witness :
  exists w_after,
    batch Moving (left_to_right $"*.txt") blocked_world
    = (Err (ItemFailed Moving $"b.txt" (ShutilError $"/B/b.txt/b.txt")),
       w_after)
    /\ listdir (fs w_after) $"/A" = Ok [$"b.txt"; $"c.log"]
    /\ listdir (fs w_after) $"/B" = Ok [$"b.txt"; $"a.txt"].
Proof.
  eexists. split.
  - apply (batch_stops_at_first_failure Moving
             [($"pattern", JStr $"*.txt"); ($"from", JStr $"left");
              ($"to", JStr $"right")]
             $"*.txt" blocked_world
             (snd (move_item $"/A" $"/B" $"a.txt"
                             (listed $"/A" blocked_world)))
             (snd (move_item $"/A" $"/B" $"b.txt"
                     (snd (move_item $"/A" $"/B" $"a.txt"
                                     (listed $"/A" blocked_world)))))
             [$"a.txt"] [$"c.log"] $"b.txt" 1
             (ShutilError $"/B/b.txt/b.txt")).
    + reflexivity.
    + reflexivity.
    + reflexivity.
    + vm_compute. reflexivity.
    + reflexivity.
    + vm_compute. reflexivity.
  - split; vm_compute; reflexivity.
Defined.

(** ** Copying by pattern *)

(** C4, as stated, fails in its second half: a pattern with a comma
    matches no entry of [/A], and the copy fails with the several-files
    error of the guard, not with the no-match error. *)
Lemma separated_names_are_not_no_match :
  let pattern := $"x.txt,y.txt" in
  listdir (fs sample_world) $"/A" = Ok [$"a.txt"; $"b.txt"; $"c.log"]
  /\ forallb (fun item => negb (Fnmatch.fnmatch item pattern))
             [$"a.txt"; $"b.txt"; $"c.log"] = true
  /\ fst (do_copy (left_to_right pattern) sample_world)
     = Err (MultipleFiles Copying)
  /\ fst (do_copy (left_to_right pattern) sample_world)
     <> Err (NoMatch pattern).
Proof.
  vm_compute. repeat split. discriminate.
Qed.

(** C4, amended: copying [*.txt] from [/A] holding [a.txt], [b.txt] and
    [c.log] to the empty [/B] leaves [/B] holding copies of [a.txt] and
    [b.txt] and [/A] as it was.  On any file system, a copy whose pattern
    is free of separators (no comma, no [and], no [и] between spaces) and
    matches none of the entries listed for the source directory raises the
    no-match error naming the pattern, after the listing and nothing
    else. *)
Theorem copy_pattern_amended :
  (forall ta tb tc : str,
      let w := window_on (two_dirs (abc ta tb tc) []) in
      exists w',
        do_copy (left_to_right $"*.txt") w = (Ok tt, w')
        /\ listdir (fs w') $"/B" = Ok [$"a.txt"; $"b.txt"]
        /\ TreeFS.stat (fs w') $"/B/a.txt" = Ok (TreeFS.File 1 ta)
        /\ TreeFS.stat (fs w') $"/B/b.txt" = Ok (TreeFS.File 2 tb)
        /\ TreeFS.stat (fs w') $"/A" = TreeFS.stat (fs w) $"/A"
        /\ TreeFS.stat (fs w') $"/A" = Ok (TreeFS.Dir 1 (abc ta tb tc)))
  /\ (forall (FS : Type) (os : OS FS) (members : list (str * json))
             (pattern : str) (w : @world FS) (items : list str),
         let from_path :=
           current_path (panel_of w (from_side (dict_get members $"from"))) in
         dict_get members $"pattern" = Some (JStr pattern) ->
         has_separator pattern = false ->
         listdir (fs w) from_path = Ok items ->
         (forall item, In item items ->
                       Fnmatch.fnmatch item pattern = false) ->
         do_copy (JObj members) w
         = (Err (NoMatch pattern), listed from_path w)).
Proof.
  split.
  - intros ta tb tc w. subst w. eexists.
    split; [vm_compute; reflexivity |].
    repeat split; vm_compute; reflexivity.
  - intros FS os members pattern w items from_path Hpat Hsep Hls Hnone.
    change (do_copy (JObj members) w) with (batch Copying (JObj members) w).
    rewrite (batch_unfold Copying members pattern w Hpat Hsep).
    fold from_path. rewrite Hls.
    rewrite (for_matching_none Copying pattern _ items 0 _ Hnone).
    reflexivity.
Qed.

Lemma copy_pattern_amended_witness :
  listdir (fs sample_world) $"/A" = Ok [$"a.txt"; $"b.txt"; $"c.log"]
  /\ has_separator $"*.pdf" = false
  /\ do_copy (left_to_right $"*.pdf") sample_world
     = (Err (NoMatch $"*.pdf"), listed $"/A" sample_world).
Proof.
  split; [reflexivity |]. split; [reflexivity |].
  apply (proj2 copy_pattern_amended TreeFS.t TreeFS_OS
           [($"pattern", JStr $"*.pdf"); ($"from", JStr $"left");
            ($"to", JStr $"right")]
           $"*.pdf" sample_world [$"a.txt"; $"b.txt"; $"c.log"]).
  - reflexivity.
  - reflexivity.
  - reflexivity.
  - intros item Hin. simpl in Hin.
    destruct Hin as [<- | [<- | [<- | []]]]; reflexivity.
Defined.

(** ** A command without a pattern *)



Section NoPattern.

Context {FS : Type} `{OS FS}.

Lemma os_call_trace (c : syscall) (f : FS -> result unit * FS)
      (w w' : @world FS) (r : result unit) :
  os_call c f w = (r, w') -> trace w' = trace w ++ [c].
Proof.
  unfold os_call. destruct (f (fs w)) as [r0 fs']. intros [= _ <-].
  reflexivity.
Qed.




End NoPattern.

(** ** The answer of the interpreter *)

Lemma find_map_update {A} (p : A -> bool) (g : A -> A) (l : list A) :
  (forall x, p (g x) = p x) ->
  find p (map (fun x => if p x then g x else x) l) = option_map g (find p l).
Proof.
  intros Hp. induction l as [|x l IH]; simpl; [reflexivity |].
  destruct (p x) eqn:E.
  - rewrite Hp, E. reflexivity.
  - rewrite E. exact IH.
Qed.

Lemma find_after_update (d : database) (i : Z) (a b c : option json)
      (st : option status) (e : option errtext) :
  bindable (given a) && bindable (given b) = true ->
  find (fun r => Z.eqb (id r) i) (rows (snd (update_message d i a b c st e)))
  = option_map (update_row a b c st e)
               (find (fun r => Z.eqb (id r) i) (rows d)).
Proof.
  intros Hb. unfold update_message. rewrite Hb. simpl.
  apply (find_map_update (fun r => Z.eqb (id r) i) (update_row a b c st e)).
  reflexivity.
Qed.

Lemma status_in_update (d : database) (i : Z) (a b c : option json)
      (st : option status) (e : option errtext) :
  bindable (given a) && bindable (given b) = true ->
  status_in (snd (update_message d i a b c st e)) i
  = match find (fun r => Z.eqb (id r) i) (rows d) with
    | Some r => or_else st (status_of r)
    | None => None
    end.
Proof.
  intros Hb. unfold status_in. rewrite (find_after_update d i a b c st e Hb).
  destruct (find _ (rows d)); reflexivity.
Qed.

Section Response.
Context {FS : Type} `{OS FS}.
Variable json_loads : str -> result json.

Lemma db_update_run (a b c : option json) (st : option status)
      (e : option errtext) (w : @world FS) (i : Z) :
  current_message_id w = Some i -> i <> 0%Z ->
  bindable (given a) && bindable (given b) = true ->
  db_update a b c st e w
  = (Ok tt, with_db (snd (update_message (db w) i a b c st e)) w).
Proof.
  intros Hcur Hi Hb. unfold db_update. rewrite Hcur.
  destruct (Z.eqb_spec i 0) as [E | _]; [contradiction |].
  unfold update_message. rewrite Hb. reflexivity.
Qed.

Lemma dispatch_unknown (a : str) (params' : json) (w : @world FS) :
  known_action a = false -> dispatch (JStr a) params' w = (Ok tt, w).
Proof.
  unfold known_action, known_actions. cbn [existsb].
  rewrite !orb_false_iff. intros (E1 & E2 & E3 & E4 & E5 & E6 & E7 & _).
  unfold dispatch, is_str. rewrite E1, E2, E3, E4, E5, E6. reflexivity.
Qed.

Lemma execute_unknown (members : list (str * json)) (a : str) (i : Z)
      (w : @world FS) :
  dict_get members $"action" = Some (JStr a) ->
  known_action a = false ->
  current_message_id w = Some i -> i <> 0%Z ->
  execute (JObj members) w
  = (Ok tt,
     let w := snd (refresh_panels w) in
     let w := with_chat (chat w ++ [Chat_done]) w in
     with_db (snd (update_message (db w) i None None None (Some success) None))
             w).
Proof.
  intros Hact Hunknown Hcur Hi.
  unfold execute, getitem, get_default, get, bind at 1 2 3, ret.
  rewrite Hact. cbv beta iota.
  unfold try_except, bind at 1. rewrite (dispatch_unknown _ _ _ Hunknown).
  unfold bind at 1. unfold refresh_panels at 1, bind at 1, refresh_panel.
  cbv beta iota. unfold bind, chat_append, modify.
  rewrite (db_update_run None None None (Some success) None _ i);
    try assumption; reflexivity.
Qed.

Lemma refresh_panels_fields (w : @world FS) :
  let w' := snd (refresh_panels w) in
  fs w' = fs w /\ db w' = db w /\ chat w' = chat w
  /\ current_message_id w' = current_message_id w
  /\ input_enabled w' = input_enabled w
  /\ trace w'
     = trace w
         ++ [Sys_listdir (Posixpath.abspath (getcwd (fs w))
                                            (current_path (left_panel w)));
             Sys_listdir (Posixpath.abspath (getcwd (fs w))
                                            (current_path (right_panel w)))].
Proof.
  unfold refresh_panels, bind, refresh_panel. simpl.
  rewrite <- app_assoc. repeat split; reflexivity.
Qed.

(** C1 fails on the code: an answer whose [action] is a string other than
    the six operations and [error] runs through [execute], whose chain of
    tests has no [else]; nothing is done to the file system (the panels
    are listed anew), and the request is recorded as a success and
    reported as done instead of ending as an error. *)
Theorem unknown_action_reported_done
        (answer : str) (members : list (str * json)) (a : str) (i : Z)
        (w : @world FS) :
  json_loads (unfence answer) = Ok (JObj members) ->
  dict_get members $"action" = Some (JStr a) ->
  known_action a = false ->
  bindable (dict_get members $"message") = true ->
  current_message_id w = Some i ->
  i <> 0%Z ->
  status_in (db w) i = Some pending ->
  let w' := on_response json_loads answer true w in
  fs w' = fs w
  /\ status_in (db w') i = Some success
  /\ last (chat w') Chat_thinking = Chat_done
  /\ input_enabled w' = true
  /\ trace w'
     = trace w
         ++ [Sys_listdir (Posixpath.abspath (getcwd (fs w))
                                            (current_path (left_panel w)));
             Sys_listdir (Posixpath.abspath (getcwd (fs w))
                                            (current_path (right_panel w)))].
Proof.
  intros Hloads Hact Hunknown Hmsg Hcur Hi Hpending w'. subst w'.
  set (msg := match dict_get members $"message" with
              | Some x => x | None => JStr [] end).
  assert (Hb : bindable (given (Some msg)) && bindable (given (Some (JStr a)))
               = true).
  { unfold msg. destruct (dict_get members $"message") as [[]|];
      try reflexivity; discriminate. }
  set (w1 := answered msg w).
  set (w2 := with_db (snd (update_message (db w1) i (Some msg) (Some (JStr a))
                             (dict_get members $"params") None None)) w1).
  assert (Hrun : on_response json_loads answer true w
                 = snd (execute (JObj members) w2)).
  { unfold on_response. cbn [negb].
    unfold try_except, interpret_and_run, lift, bind at 1. rewrite Hloads.
    unfold get_default, get, getitem, bind at 1 2 3 4 5 6 7, ret,
      chat_append, modify.
    rewrite Hact. cbv beta iota. fold msg.
    rewrite (db_update_run (Some msg) (Some (JStr a)) _ None None _ i);
      [| exact Hcur | exact Hi | exact Hb].
    unfold bind.
    assert (Herr : is_str (JStr a) $"error" = false).
    { revert Hunknown. unfold known_action, known_actions. cbn [existsb].
      rewrite !orb_false_iff. intros (_ & _ & _ & _ & _ & _ & E & _).
      exact E. }
    rewrite Herr.
    change (with_db _ _) with w2.
    rewrite (execute_unknown members a i w2 Hact Hunknown Hcur Hi).
    reflexivity. }
  rewrite Hrun, (execute_unknown members a i w2 Hact Hunknown Hcur Hi).
  cbv zeta. cbn [snd].
  destruct (refresh_panels_fields w2) as (Hfs & Hdb & Hchat & _ & Hin & Htr).
  split; [| split; [| split; [| split]]].
  - cbn [fs with_db with_chat]. rewrite Hfs. reflexivity.
  - cbn [db with_db with_chat]. rewrite Hdb.
    rewrite status_in_update by reflexivity.
    unfold w2. cbn [db with_db].
    rewrite (find_after_update _ i _ _ _ None None Hb).
    change (db w1) with (db w). unfold status_in in Hpending.
    destruct (find _ (rows (db w))); [reflexivity | discriminate].
  - cbn [chat with_db with_chat]. apply last_last.
  - cbn [input_enabled with_db with_chat]. rewrite Hin. reflexivity.
  - cbn [trace with_db with_chat]. rewrite Htr. reflexivity.
Qed.
End Response.

Lemma unknown_action_reported_done_witness :
  let w' := on_response (loads_table [(teleport_text, teleport_cmd)])
                        (fence ++ $"json" ++ [10%N] ++ teleport_text
                               ++ [10%N] ++ fence)
                        true pending_world in
  status_in (db pending_world) 1 = Some pending
  /\ fs w' = fs pending_world
  /\ status_in (db w') 1 = Some success
  /\ last (chat w') Chat_thinking = Chat_done.
Proof.
  split; [reflexivity |].
  pose proof (unknown_action_reported_done
                (loads_table [(teleport_text, teleport_cmd)])
                (fence ++ $"json" ++ [10%N] ++ teleport_text
                       ++ [10%N] ++ fence)
                [($"action", JStr $"teleport"); ($"params", JObj []);
                 ($"message", JStr $"beam up")]
                $"teleport" 1 pending_world) as Hrun.
  cbv zeta in Hrun.
  destruct Hrun as (Hfs & Hst & Hchat & _).
  - vm_compute; reflexivity.
  - reflexivity.
  - reflexivity.
  - reflexivity.
  - reflexivity.
  - discriminate.
  - reflexivity.
  - cbv zeta. auto.
Defined.

(** ** Creating what is already there *)

Module TreeFacts.
Import TreeFS.

Lemma assoc_put_same (es : list (str * node)) (k : str) (v : node) :
  assoc (put es k v) k = Some v.
Proof.
  induction es as [|[k' v'] es IH]; simpl.
  - rewrite eqb_refl. reflexivity.
  - destruct (eqb k' k) eqn:E; simpl.
    + rewrite eqb_refl. reflexivity.
    + rewrite E. exact IH.
Qed.

Lemma makedirs_in_file (now : Z) (ok : bool) (comps : list str) :
  forall es mt m text,
    stat_in es mt comps = inr (File m text) ->
    makedirs_in now ok es comps = inl EEXIST.
Proof.
  induction comps as [|c rest IH]; simpl; intros es mt m text; [discriminate |].
  destruct (assoc es c) as [[fm ftext | dm des] |]; [| | discriminate].
  - destruct rest; [reflexivity | discriminate].
  - intros Hs. rewrite (IH des dm m text Hs). reflexivity.
Qed.

Lemma alter_over_file (now : Z) (f : option node -> os_errno + option node)
      (v : node) (comps : list str) :
  (forall m text, f (Some (File m text)) = inr (Some v)) ->
  (exists m text, v = File m text) ->
  forall es mt m text,
    stat_in es mt comps = inr (File m text) ->
    exists es',
      alter now f es comps = inr es' /\ stat_in es' mt comps = inr v.
Proof.
  intros Hf [vm [vt ->]].
  induction comps as [|c rest IH]; simpl; intros es mt m text; [discriminate |].
  destruct (assoc es c) as [[fm ftext | dm des] |] eqn:Ea; [| | discriminate].
  - destruct rest as [|c' rest]; [| discriminate].
    intros _. rewrite Hf. eexists. split; [reflexivity |].
    simpl. rewrite assoc_put_same. reflexivity.
  - intros Hs. destruct rest as [|c' rest]; [discriminate |].
    destruct (IH des dm m text Hs) as [des' [Ha Hs']].
    rewrite Ha. eexists. split; [reflexivity |].
    cbn [stat_in]. rewrite assoc_put_same. exact Hs'.
Qed.

Lemma alter_over_dir (now : Z) (f : option node -> os_errno + option node)
      (comps : list str) :
  (forall m des, exists e, f (Some (Dir m des)) = inl e) ->
  forall es mt dm des,
    stat_in es mt comps = inr (Dir dm des) ->
    exists e, alter now f es comps = inl e.
Proof.
  intros Hf.
  induction comps as [|c rest IH]; simpl; intros es mt dm des; [eauto |].
  destruct (assoc es c) as [[fm ftext | dm' des'] |] eqn:Ea; [| | discriminate].
  - destruct rest; discriminate.
  - intros Hs. destruct rest as [|c' rest].
    + destruct (Hf dm' des') as [e ->]. eauto.
    + destruct (IH des' dm' dm des Hs) as [e ->]. eauto.
Qed.

End TreeFacts.

Lemma isdir_stat (fs0 : TreeFS.t) (path : str) :
  TreeFS.isdir fs0 path = true ->
  exists m des, TreeFS.stat fs0 path = Ok (TreeFS.Dir m des).
Proof.
  unfold TreeFS.isdir. destruct (TreeFS.stat fs0 path) as [[|m des] |];
    try discriminate. eauto.
Qed.

Lemma stat_inv (fs0 : TreeFS.t) (path : str) (n : TreeFS.node) :
  TreeFS.stat fs0 path = Ok n ->
  TreeFS.stat_in (TreeFS.root fs0) 0 (TreeFS.comps_of fs0 path) = inr n.
Proof.
  unfold TreeFS.stat. destruct (TreeFS.stat_in _ _ _); congruence.
Qed.

(** C2, as stated, fails: asked for a folder that is there, the command
    succeeds; asked for a file that is there, it succeeds too and the old
    text is gone. *)
Lemma create_succeeds_over_existing :
  path_exists (fs cluttered_world) $"/A/docs" = true
  /\ fst (do_create_folder (named $"docs" []) cluttered_world) = Ok tt
  /\ TreeFS.stat (fs cluttered_world) $"/A/a.txt"
     = Ok (TreeFS.File 1 $"aa")
  /\ fst (do_create_file (named $"a.txt" $"new") cluttered_world) = Ok tt
  /\ TreeFS.stat
       (fs (snd (do_create_file (named $"a.txt" $"new") cluttered_world)))
       $"/A/a.txt"
     = Ok (TreeFS.File 10 $"new").
Proof.
  vm_compute. repeat split.
Qed.

(** C2, amended (on the directory-tree file system): create-folder on a
    name that is a directory there succeeds and changes nothing
    ([exist_ok=True]); on a name that is a file it fails with
    [FileExistsError], nothing changed.  Create-file on a name that is a
    file succeeds and puts the given text in place of the old one; on a
    name that is a directory it fails, nothing changed. *)
Theorem create_over_existing
        (w : @world TreeFS.t) (members : list (str * json)) (name : str) :
  dict_get members $"name" = Some (JStr name) ->
  let path :=
    Posixpath.join (current_path (panel_of w (active_panel w))) name in
  (isdir (fs w) path = true ->
   do_create_folder (JObj members) w
   = (Ok tt, with_fs (fs w) (Sys_makedirs true path) w))
  /\ (forall m old,
         TreeFS.stat (fs w) path = Ok (TreeFS.File m old) ->
         do_create_folder (JObj members) w
         = (Err (OSError EEXIST path),
            with_fs (fs w) (Sys_makedirs true path) w))
  /\ (forall m old content,
         TreeFS.stat (fs w) path = Ok (TreeFS.File m old) ->
         dict_get members $"content" = Some (JStr content) ->
         exists w',
           do_create_file (JObj members) w = (Ok tt, w')
           /\ TreeFS.stat (fs w') path
              = Ok (TreeFS.File (TreeFS.clock (fs w)) content))
  /\ (forall content,
         isdir (fs w) path = true ->
         dict_get members $"content" = Some (JStr content) ->
         exists e,
           do_create_file (JObj members) w
           = (Err e, with_fs (fs w) (Sys_write_text path content) w)).
Proof.
  intros Hname path.
  assert (Hfolder : do_create_folder (JObj members) w
                    = os_makedirs path true w).
  { unfold do_create_folder, get_default, get, bind, ret, active_path, read,
      path_part. rewrite Hname. reflexivity. }
  assert (Hfile : forall content,
             dict_get members $"content" = Some (JStr content) ->
             do_create_file (JObj members) w = open_write path content w).
  { intros content Hc.
    unfold do_create_file, get_default, get, bind, ret, active_path, read,
      path_part. rewrite Hname, Hc. reflexivity. }
  split; [| split; [| split]].
  - intros Hd. rewrite Hfolder.
    unfold os_makedirs, os_call. cbn [makedirs TreeFS_OS].
    unfold TreeFS.makedirs. cbn [isdir TreeFS_OS] in Hd. rewrite Hd.
    reflexivity.
  - intros m old Hs. rewrite Hfolder.
    unfold os_makedirs, os_call. cbn [makedirs TreeFS_OS].
    unfold TreeFS.makedirs, TreeFS.isdir. rewrite Hs. cbn [andb].
    rewrite (TreeFacts.makedirs_in_file _ _ _ _ _ _ _ (stat_inv _ _ _ Hs)).
    reflexivity.
  - intros m old content Hs Hc. rewrite (Hfile content Hc).
    unfold open_write, os_call. cbn [write_text TreeFS_OS].
    unfold TreeFS.write_text, TreeFS.change.
    destruct (TreeFacts.alter_over_file (TreeFS.clock (fs w))
                (fun old0 =>
                   match old0 with
                   | Some (TreeFS.Dir _ _) => inl EISDIR
                   | _ => inr (Some (TreeFS.File (TreeFS.clock (fs w))
                                                 content))
                   end)
                (TreeFS.File (TreeFS.clock (fs w)) content)
                (TreeFS.comps_of (fs w) path)
                (fun _ _ => eq_refl) (ex_intro _ _ (ex_intro _ _ eq_refl))
                _ _ _ _ (stat_inv _ _ _ Hs)) as [es' [Ha Hs']].
    rewrite Ha. eexists. split; [reflexivity |].
    cbn [fs with_fs]. unfold TreeFS.stat, TreeFS.tick, TreeFS.comps_of.
    cbn [TreeFS.root TreeFS.cwd]. fold (TreeFS.comps_of (fs w) path).
    rewrite Hs'. reflexivity.
  - intros content Hd Hc. rewrite (Hfile content Hc).
    unfold open_write, os_call. cbn [write_text TreeFS_OS].
    unfold TreeFS.write_text, TreeFS.change.
    cbn [isdir TreeFS_OS] in Hd.
    destruct (isdir_stat _ _ Hd) as [dm [des Hs]].
    destruct (TreeFacts.alter_over_dir (TreeFS.clock (fs w))
                (fun old0 =>
                   match old0 with
                   | Some (TreeFS.Dir _ _) => inl EISDIR
                   | _ => inr (Some (TreeFS.File (TreeFS.clock (fs w))
                                                 content))
                   end)
                (TreeFS.comps_of (fs w) path)
                (fun _ _ => ex_intro _ EISDIR eq_refl)
                _ _ _ _ (stat_inv _ _ _ Hs)) as [e Ha].
    rewrite Ha. eexists. reflexivity.
Qed.

Lemma create_over_existing_witness :
  TreeFS.stat (fs cluttered_world) $"/A/a.txt" = Ok (TreeFS.File 1 $"aa")
  /\ exists w',
      do_create_file (named $"a.txt" $"new") cluttered_world = (Ok tt, w')
      /\ TreeFS.stat (fs w') $"/A/a.txt" = Ok (TreeFS.File 10 $"new").
Proof.
  split; [reflexivity |].
  apply (proj1 (proj2 (proj2
           (create_over_existing cluttered_world
              [($"name", JStr $"a.txt"); ($"content", JStr $"new")]
              $"a.txt" eq_refl)))
           1%Z $"aa" $"new"); reflexivity.
Defined.

(** ** Deleting all of a directory *)






Module TreeWalk.
Import TreeFS.




End TreeWalk.





(** ** More on the history *)

Lemma update_row_nothing (r : row) :
  update_row None None None None None r = r.
Proof. destruct r; reflexivity. Qed.

(** X1: [update_message] touches one row at most and never the ids: with no
    column given, or with an id no row has, the table stays as it is;
    otherwise every row with another id stays as it is, in its place. *)
Theorem update_message_frame
        (d : database) (i : Z) (a b c : option json)
        (st : option status) (e : option errtext) :
  let d' := snd (update_message d i a b c st e) in
  map id (rows d') = map id (rows d)
  /\ seq d' = seq d
  /\ (forall k r, nth_error (rows d) k = Some r -> id r <> i ->
                  nth_error (rows d') k = Some r)
  /\ ((forall r, In r (rows d) -> id r <> i) -> d' = d)
  /\ snd (update_message d i None None None None None) = d.
Proof.
  cbv zeta. split; [apply update_message_ids |].
  unfold update_message.
  split; [destruct (bindable (given a) && bindable (given b)); reflexivity |].
  split; [| split].
  - intros k r Hk Hid.
    destruct (bindable (given a) && bindable (given b)); [| exact Hk].
    cbn [snd rows]. rewrite nth_error_map, Hk. cbn [option_map].
    destruct (Z.eqb_spec (id r) i); [contradiction | reflexivity].
  - intros Hnone.
    destruct (bindable (given a) && bindable (given b)); [| reflexivity].
    cbn [snd]. destruct d as [rs sq]. cbn [rows seq] in *. f_equal.
    induction rs as [|r rs IH]; [reflexivity |]. cbn [map].
    destruct (Z.eqb_spec (id r) i) as [E | _].
    + destruct (Hnone r (or_introl eq_refl) E).
    + f_equal. apply IH. intros r' Hr'. apply Hnone. right. exact Hr'.
  - cbn [given bindable andb snd]. destruct d as [rs sq]. cbn [rows seq].
    f_equal. induction rs as [|r rs IH]; [reflexivity |]. cbn [map].
    rewrite update_row_nothing, IH. destruct (Z.eqb (id r) i); reflexivity.
Qed.

Lemma max_id_le (rs : list row) (s : Z) :
  (0 <= s)%Z -> Forall (fun r => (0 < id r <= s)%Z) rs -> (max_id rs <= s)%Z.
Proof.
  intros H0. unfold max_id.
  induction 1 as [|r rs Hr Hrs IH]; cbn [fold_right]; lia.
Qed.

(** Ids given out are never above [seq], which only grows. *)
Lemma reachable_seq (d : database) :
  reachable d ->
  (0 <= seq d)%Z /\ Forall (fun r => (0 < id r <= seq d)%Z) (rows d).
Proof.
  induction 1 as [| now d msg a b c st e Hd [IH0 IH] | d i a b c st e Hd [IH0 IH]
                  | d Hd [IH0 IH]].
  - split; [cbn; lia | constructor].
  - unfold add_message. destruct (bindable a && bindable b); cbn [snd seq rows].
    + assert (Hmax : (max_id (rows d) <= seq d)%Z).
      { apply max_id_le; assumption. }
      split; [lia |]. apply Forall_app. split.
      * eapply Forall_impl; [| exact IH]. cbn. intros r Hr. lia.
      * repeat constructor; cbn [id]; lia.
    + split; assumption.
  - split.
    + unfold update_message.
      destruct (bindable (given a) && bindable (given b)); exact IH0.
    + apply Forall_forall. intros r Hr.
      assert (Hs : seq (snd (update_message d i a b c st e)) = seq d).
      { unfold update_message.
        destruct (bindable (given a) && bindable (given b)); reflexivity. }
      rewrite Hs.
      apply (in_map id) in Hr. rewrite update_message_ids in Hr.
      apply in_map_iff in Hr. destruct Hr as [r0 [E Hr0]].
      rewrite Forall_forall in IH. rewrite <- E. apply IH. exact Hr0.
  - split; [exact IH0 | constructor].
Qed.

(** X2: the id [add_message] returns is one more than any id given out before,
    rows since deleted by [clear_history] included: no id is used twice. *)
Theorem add_message_fresh_id
        (d : database) (now msg : str) (a b c : option json)
        (st : option status) (e : option errtext) :
  reachable d ->
  bindable a && bindable b = true ->
  let after := add_message now d msg a b c st e in
  fst after = Ok (seq d + 1)%Z
  /\ seq (snd after) = (seq d + 1)%Z
  /\ Forall (fun r => (id r < seq d + 1)%Z) (rows d)
  /\ fst (add_message now (clear_history d) msg a b c st e)
     = Ok (seq d + 1)%Z.
Proof.
  intros Hd Hb. destruct (reachable_seq d Hd) as [H0 Hids].
  assert (Hmax : (max_id (rows d) <= seq d)%Z).
  { apply max_id_le; assumption. }
  cbv zeta. unfold add_message. rewrite Hb. cbn [fst snd seq rows clear_history].
  repeat split.
  - f_equal. lia.
  - lia.
  - eapply Forall_impl; [| exact Hids]. cbn. intros r Hr. lia.
  - cbn [max_id fold_right]. f_equal. lia.
Qed.

Lemma recent_after_add
        (d : database) (now msg : str) (a b c : option json)
        (st : option status) (e : option errtext) (n : nat) :
  reachable d ->
  bindable a && bindable b = true ->
  let after := add_message now d msg a b c st e in
  exists r,
    get_recent_history (snd after) (Z.of_nat (S n))
    = get_recent_history d (Z.of_nat n) ++ [r]
    /\ fst after = Ok (id r)
    /\ timestamp r = now /\ user_message r = msg
    /\ ai_response r = given a /\ action r = given b
    /\ status_of r = st /\ error_message r = e.
Proof.
  intros Hd Hb after.
  assert (Hd' : reachable (snd after)) by (constructor; exact Hd).
  rewrite (get_recent_history_last _ _ (reachable_by_id _ Hd')).
  rewrite (get_recent_history_last _ _ (reachable_by_id _ Hd)).
  subst after. unfold add_message. rewrite Hb. cbn [fst snd rows].
  eexists. split.
  - rewrite length_app. cbn [length].
    replace (length (rows d) + 1 - S n) with (length (rows d) - n) by lia.
    rewrite skipn_app.
    replace (length (rows d) - n - length (rows d)) with 0 by lia.
    reflexivity.
  - repeat split.
Qed.

(** X3: the entry just added is the last of the recent history, behind the
    entries that were recent before it; it is returned as it was given. *)
Theorem added_entry_is_latest
        (d : database) (now msg : str) (a b c : option json)
        (st : option status) (e : option errtext) (n : nat) :
  reachable d ->
  bindable a && bindable b = true ->
  let after := add_message now d msg a b c st e in
  exists r,
    get_recent_history (snd after) (Z.of_nat (S n))
    = get_recent_history d (Z.of_nat n) ++ [r]
    /\ fst after = Ok (id r)
    /\ timestamp r = now /\ user_message r = msg
    /\ ai_response r = given a /\ action r = given b
    /\ status_of r = st /\ error_message r = e.
Proof. intros Hd Hb. exact (recent_after_add d now msg a b c st e n Hd Hb). Qed.

Lemma added_entry_is_latest_witness :
  exists r,
    get_recent_history
      (snd (add_message $"t" (fold_left submit ten_requests init_database)
                        $"r10" None None None (Some pending) None))
      (Z.of_nat 3)
    = get_recent_history (fold_left submit ten_requests init_database)
                         (Z.of_nat 2) ++ [r]
    /\ user_message r = $"r10" /\ id r = 11%Z.
Proof.
  destruct (added_entry_is_latest
              (fold_left submit ten_requests init_database)
              $"t" $"r10" None None None (Some pending) None 2)
    as [r Hr].
  - apply submissions. constructor.
  - reflexivity.
  - exists r. destruct Hr as (Hh & Hid & _ & Hm & _).
    split; [exact Hh |]. split; [exact Hm |].
    assert (E : Ok (id r) = @Ok Z 11%Z) by (rewrite <- Hid; reflexivity).
    injection E as E. exact E.
Defined.

Lemma add_message_fresh_id_witness :
  let d := fold_left submit ten_requests init_database in
  reachable d
  /\ fst (add_message $"t" (clear_history d) $"again"
                      None None None (Some pending) None) = Ok 11%Z.
Proof.
  assert (Hd : reachable (fold_left submit ten_requests init_database)).
  { apply submissions. constructor. }
  split; [exact Hd |].
  apply (add_message_fresh_id _ $"t" $"again" None None None
                              (Some pending) None Hd eq_refl).
Defined.

(** ** More on listing and search *)

Section ListingMore.

Context {FS : Type} `{OS FS}.

(** X4: under the two name modes directories and files alike are ordered by
    lower-cased name, ascending for [name_asc], descending for
    [name_desc]. *)
Theorem name_orders (fs0 : FS) (cur : str) (entries : list str)
        (is_dir : bool) :
  Sorted name_le (sort_entries fs0 cur name_asc entries is_dir)
  /\ Sorted (fun a b => name_le b a)
            (sort_entries fs0 cur name_desc entries is_dir).
Proof.
  unfold sort_entries. split.
  - apply (sorted_Sorted ltb lower ltb_asym false).
  - apply (sorted_Sorted ltb lower ltb_asym true).
Qed.

(** X5: the sort mode decides the order of a listing and nothing else: two
    loads of the same path from the same file system show the same items,
    one list a rearrangement of the other, under any two modes. *)
Theorem sort_mode_only_reorders (fs0 : FS) (p1 p2 : panel) (path : str) :
  Permutation (file_list (load_directory fs0 p1 path))
              (file_list (load_directory fs0 p2 path))
  /\ current_path (load_directory fs0 p1 path)
     = current_path (load_directory fs0 p2 path).
Proof.
  split; [| reflexivity].
  unfold load_directory. cbn [file_list].
  destruct (listdir fs0 _) as [entries | e]; [| reflexivity].
  apply Permutation_app_head. apply Permutation_app; apply Permutation_map.
  - rewrite !sort_entries_perm. reflexivity.
  - rewrite !sort_entries_perm. reflexivity.
Qed.

(** A space is neither cased nor case-ignorable: whether a sigma is
    final is settled before a space is passed. *)
Lemma after_sigma_space (name rest : str) :
  match skip_ignorable (name ++ 32%N :: rest) with
  | c' :: _ => negb (cased c')
  | [] => true
  end
  = match skip_ignorable name with
    | c' :: _ => negb (cased c')
    | [] => true
    end.
Proof.
  induction name as [|c name IH]; cbn [app skip_ignorable].
  - assert (Hi : case_ignorable 32 = false) by (vm_compute; reflexivity).
    assert (Hc : cased 32 = false) by (vm_compute; reflexivity).
    rewrite Hi, Hc. reflexivity.
  - destruct (case_ignorable c); [exact IH | reflexivity].
Qed.

(** Lower-casing a text up to a space does not depend on what follows
    the space. *)
Lemma lower_from_space (name rest : str) :
  forall before,
    lower_from before (name ++ 32%N :: rest)
    = lower_from before name
        ++ lower_from (rev name ++ before) (32%N :: rest).
Proof.
  induction name as [|c name IH]; intros before; [reflexivity |].
  cbn [app lower_from rev]. rewrite IH, <- !app_assoc. cbn [app].
  f_equal. unfold lower_at, final_sigma.
  rewrite after_sigma_space. reflexivity.
Qed.

Lemma lower_space (name rest : str) :
  exists tail, lower (name ++ 32%N :: rest) = lower name ++ tail.
Proof.
  unfold lower. rewrite lower_from_space. eexists. reflexivity.
Qed.

Lemma contains_prefix (a b : str) : contains a (a ++ b) = true.
Proof. apply contains_spec. exists [], b. reflexivity. Qed.

Lemma search_hit_dir_item (cur name : str) :
  search_hit (lower name) (dir_item cur name) = true.
Proof.
  unfold search_hit, dir_item. cbn [text].
  rewrite <- (app_nil_r (lower name)) at 2. rewrite contains_prefix.
  reflexivity.
Qed.

Lemma search_hit_file_item (fs0 : FS) (cur name : str) :
  search_hit (lower name) (file_item fs0 cur name) = true.
Proof.
  unfold search_hit, file_item.
  destruct (getsize fs0 (Posixpath.join cur name)) as [size | e]; cbn [text].
  - destruct (lower_space name (40%N :: format_size size ++ $")"))
      as [tail Htail].
    change (name ++ $" (" ++ format_size size ++ $")")
      with (name ++ 32%N :: 40%N :: format_size size ++ $")").
    rewrite Htail, contains_prefix. reflexivity.
  - rewrite <- (app_nil_r (lower name)) at 2. rewrite contains_prefix.
    reflexivity.
Qed.

(** X6: typing the name of an entry, in whatever letter case, always shows
    the item of that entry. *)
Theorem search_finds_by_name (fs0 : FS) (p : panel) (path : str)
        (entries : list str) (name typed : str) :
  let loaded := load_directory fs0 p path in
  let cur := current_path loaded in
  listdir fs0 cur = Ok entries ->
  In name entries ->
  lower typed = lower name ->
  exists it,
    In it (file_list (type_search typed loaded))
    /\ user_role it = Some (Posixpath.join cur name)
    /\ In it (all_items loaded).
Proof.
  intros loaded cur Hls Hin Htyped.
  set (it := if isdir fs0 (Posixpath.join cur name)
             then dir_item cur name else file_item fs0 cur name).
  assert (Hrole : user_role it = Some (Posixpath.join cur name)).
  { unfold it, dir_item, file_item.
    destruct (isdir fs0 _); [reflexivity |].
    destruct (getsize fs0 _); reflexivity. }
  assert (Hhit : search_hit (lower name) it = true).
  { unfold it. destruct (isdir fs0 _);
      [apply search_hit_dir_item | apply search_hit_file_item]. }
  assert (Hall : In it (all_items loaded)).
  { unfold loaded, load_directory. cbn [all_items].
    change (Posixpath.abspath (getcwd fs0) path) with cur. rewrite Hls.
    apply in_or_app. right. apply in_or_app.
    unfold it. destruct (isdir fs0 (Posixpath.join cur name)) eqn:Ed.
    - left. apply in_map.
      apply (Permutation_in _ (Permutation_sym (sort_entries_perm _ _ _ _ _))).
      apply filter_In. split; [exact Hin | exact Ed].
    - right. apply in_map.
      apply (Permutation_in _ (Permutation_sym (sort_entries_perm _ _ _ _ _))).
      apply filter_In. split; [exact Hin |]. rewrite Ed. reflexivity. }
  exists it. split; [| split; [exact Hrole | exact Hall]].
  unfold type_search, filter_files. cbn [file_list search_input all_items].
  rewrite Htyped.
  destruct (truthy (lower name)); [| exact Hall].
  apply filter_In. split; [exact Hall | exact Hhit].
Qed.

Lemma filter_all {A} (l : list A) : filter (fun _ => true) l = l.
Proof.
  induction l as [|x l IH]; [reflexivity | cbn; f_equal; exact IH].
Qed.

(** X7: a search followed by clearing the search box shows again exactly the
    list as it was loaded, and no search changes the cache. *)
Theorem clear_search_restores (fs0 : FS) (p : panel) (path typed : str) :
  let loaded := load_directory fs0 p path in
  file_list (type_search [] (type_search typed loaded)) = file_list loaded
  /\ all_items (type_search typed loaded) = all_items loaded
  /\ (exists keep,
         file_list (type_search typed loaded)
         = filter keep (file_list loaded)).
Proof.
  cbv zeta. unfold type_search, filter_files, load_directory.
  cbn [file_list all_items search_input].
  change (truthy (lower [])) with false. cbv iota.
  split; [reflexivity |]. split; [reflexivity |].
  destruct (truthy (lower typed)).
  - eexists. reflexivity.
  - exists (fun _ => true). symmetry. apply filter_all.
Qed.

End ListingMore.

Lemma name_orders_witness :
  sort_entries accented_fs $"/A" name_asc
               [cap_e_acute_b; e_acute_a; cap_a_umlaut_b_txt] false
  = [cap_a_umlaut_b_txt; e_acute_a; cap_e_acute_b]
  /\ Sorted name_le
       (sort_entries accented_fs $"/A" name_asc
                     [cap_e_acute_b; e_acute_a; cap_a_umlaut_b_txt] false).
Proof.
  split; [vm_compute; reflexivity |].
  apply (name_orders accented_fs $"/A"
                     [cap_e_acute_b; e_acute_a; cap_a_umlaut_b_txt] false).
Defined.

Lemma search_finds_by_name_witness :
  let loaded :=
    load_directory accented_fs (fresh_panel $"/A" size_desc) $"/A" in
  listdir accented_fs (current_path loaded)
  = Ok [cap_e_acute_b; e_acute_a; cap_a_umlaut_b_txt]
  /\ lower (a_umlaut_b ++ $".TXT") = lower cap_a_umlaut_b_txt
  /\ exists it,
      In it (file_list (type_search (a_umlaut_b ++ $".TXT") loaded))
      /\ user_role it = Some ($"/A/" ++ cap_a_umlaut_b_txt).
Proof.
  split; [reflexivity |]. split; [vm_compute; reflexivity |].
  pose proof (@search_finds_by_name
                TreeFS.t TreeFS_OS accented_fs (fresh_panel $"/A" size_desc)
                $"/A" [cap_e_acute_b; e_acute_a; cap_a_umlaut_b_txt]
                cap_a_umlaut_b_txt (a_umlaut_b ++ $".TXT")) as Hfind.
  cbv zeta in Hfind.
  destruct Hfind as [it [Hin [Hrole _]]].
  - vm_compute; reflexivity.
  - right; right; left; reflexivity.
  - vm_compute; reflexivity.
  - exists it. split; [exact Hin | exact Hrole].
Defined.

(** ** [format_size] *)

Lemma digits_zero : digits 0 = [48%N].
Proof. reflexivity. Qed.

(** X8: a size below 1024 is shown in bytes, as the number itself with [.0]
    after it: [0.0 Б], [1023.0 Б]. *)
Theorem format_size_bytes (size : Z) :
  (0 <= size < 1024)%Z ->
  format_size size = digits (Z.to_N size) ++ $".0 " ++ [1041%N].
Proof.
  intros Hs. unfold format_size, units. cbn [format_size_loop].
  assert (Hn : (Z.to_N size < 1024)%N) by lia.
  rewrite N.mul_1_r. apply N.ltb_lt in Hn. rewrite Hn.
  unfold format_1f.
  rewrite N.div_1_r, N.mod_1_r. cbn [N.mul N.ltb N.eqb N.compare].
  change (1 <? 0)%N with false. change (0 =? 1)%N with false. cbv iota.
  rewrite N.div_mul by discriminate.
  rewrite N.Div0.mod_mul.
  rewrite digits_zero, <- app_assoc. reflexivity.
Qed.

Lemma format_size_bytes_witness :
  (0 <= 1023 < 1024)%Z /\ format_size 1023 = $"1023.0 " ++ [1041%N].
Proof.
  split; [lia |]. rewrite (format_size_bytes 1023); [reflexivity | lia].
Defined.

(** ** The text of an answer *)

Lemma lstrip_black (s : str) : starts_black s -> lstrip s = s.
Proof.
  destruct s as [|c s]; cbn [lstrip starts_black app forallb]; [reflexivity |]. intros ->. reflexivity.
Qed.

Lemma lstrip_starts_black (s : str) : starts_black (lstrip s).
Proof.
  induction s as [|c s IH]; cbn [lstrip starts_black app forallb]; [exact I |].
  destruct (isspace c) eqn:E; [exact IH | exact E].
Qed.

Lemma lstrip_white (lead s : str) :
  forallb isspace lead = true -> lstrip (lead ++ s) = lstrip s.
Proof.
  induction lead as [|c lead IH]; cbn [lstrip starts_black app forallb]; [reflexivity |].
  rewrite andb_true_iff. intros [-> Hl]. apply IH. exact Hl.
Qed.

Lemma lstrip_app_black (u v : str) :
  starts_black v -> v <> [] -> lstrip (u ++ v) = lstrip u ++ v.
Proof.
  intros Hv Hne. induction u as [|c u IH]; cbn [lstrip starts_black app forallb].
  - apply lstrip_black. exact Hv.
  - destruct (isspace c); [exact IH | reflexivity].
Qed.

Lemma lstrip_suffix (s : str) : exists pre, s = pre ++ lstrip s.
Proof.
  induction s as [|c s [pre IH]]; cbn [lstrip starts_black app forallb].
  - exists []. reflexivity.
  - destruct (isspace c).
    + exists (c :: pre). cbn [lstrip starts_black app forallb]. f_equal. exact IH.
    + exists []. reflexivity.
Qed.

(** [strip] takes the white space before a core that starts and ends in
    something else, and after it only what follows the core. *)
Lemma strip_around (lead core trail : str) :
  forallb isspace lead = true ->
  core <> [] -> starts_black core -> starts_black (rev core) ->
  strip (lead ++ core ++ trail) = core ++ rstripped trail.
Proof.
  intros Hlead Hne Hhead Hlast. unfold strip, rstripped.
  rewrite (lstrip_white _ _ Hlead).
  rewrite (lstrip_black (core ++ trail)).
  - rewrite rev_app_distr, lstrip_app_black, rev_app_distr, rev_involutive.
    + reflexivity.
    + exact Hlast.
    + intros E. apply Hne. rewrite <- (rev_involutive core), E. reflexivity.
  - destruct core; [contradiction | exact Hhead].
Qed.

(** [strip] does nothing to a text already stripped. *)
Lemma strip_idempotent (s : str) : strip (strip s) = strip s.
Proof.
  unfold strip.
  set (u := lstrip s). set (v := lstrip (rev u)).
  assert (Hu : starts_black u) by apply lstrip_starts_black.
  assert (Hv : starts_black v) by apply lstrip_starts_black.
  destruct (lstrip_suffix (rev u)) as [pre E]. fold v in E.
  assert (Hr : starts_black (rev v)).
  { assert (Eu : u = rev v ++ rev pre).
    { rewrite <- (rev_involutive u), E, rev_app_distr. reflexivity. }
    destruct (rev v) as [|c r] eqn:Er; [exact I |].
    rewrite Eu in Hu. exact Hu. }
  rewrite (lstrip_black _ Hr), rev_involutive, (lstrip_black _ Hv).
  reflexivity.
Qed.

Lemma split_on_fence_free (s t : str) :
  no_backtick s ->
  split_on_aux fence 0 (s ++ fence ++ t) = s :: split_on_aux fence 0 t.
Proof.
  unfold no_backtick. induction s as [|c s IH]; intros Hfree.
  - reflexivity.
  - cbn [existsb] in Hfree. apply orb_false_iff in Hfree.
    destruct Hfree as [Hc Hs].
    cbn [app split_on_aux]. 
    assert (Hst : startswith fence (c :: s ++ fence ++ t) = false).
    { unfold fence. cbn [startswith]. fold backtick. rewrite Hc. reflexivity. }
    rewrite Hst, (IH Hs). reflexivity.
Qed.

Lemma no_backtick_app (a b : str) :
  no_backtick a -> no_backtick b -> no_backtick (a ++ b).
Proof.
  unfold no_backtick. rewrite existsb_app. intros -> ->. reflexivity.
Qed.

Lemma no_backtick_in (s : str) :
  no_backtick s <-> ~ In backtick s.
Proof.
  unfold no_backtick. split.
  - intros Hf Hin.
    assert (Ht : existsb (N.eqb backtick) s = true).
    { apply existsb_exists. exists backtick. split; [exact Hin |].
      apply N.eqb_refl. }
    congruence.
  - intros Hn. destruct (existsb (N.eqb backtick) s) eqn:E; [| reflexivity].
    apply existsb_exists in E. destruct E as [x [Hx Ex]].
    apply N.eqb_eq in Ex. subst x. contradiction.
Qed.

Lemma no_backtick_strip (s : str) : no_backtick s -> no_backtick (strip s).
Proof.
  rewrite !no_backtick_in. intros Hn Hin. apply Hn.
  unfold strip in Hin. apply in_rev in Hin.
  destruct (lstrip_suffix (rev (lstrip s))) as [pre E].
  assert (H1 : In backtick (rev (lstrip s))).
  { rewrite E. apply in_or_app. right. exact Hin. }
  apply in_rev in H1.
  destruct (lstrip_suffix s) as [pre' E']. rewrite E'.
  apply in_or_app. right. exact H1.
Qed.

(** X9: an answer put in a code fence, with or without the [json] tag, after
    any white space and before any further text, is read as the bare
    answer is: both come to the stripped text between the fences. *)
Theorem unfence_fenced (lead body trail : str) :
  forallb isspace lead = true ->
  no_backtick body ->
  unfence (lead ++ fence ++ $"json" ++ body ++ fence ++ trail) = unfence body
  /\ (startswith $"json" body = false ->
      unfence (lead ++ fence ++ body ++ fence ++ trail) = unfence body)
  /\ unfence body = strip body.
Proof.
  intros Hlead Hfree.
  assert (Hplain : unfence body = strip body).
  { unfold unfence.
    assert (Hs : startswith fence (strip body) = false).
    { pose proof (no_backtick_strip _ Hfree) as Hn.
      destruct (strip body) as [|c r]; [reflexivity |].
      unfold no_backtick in Hn. cbn [existsb] in Hn.
      apply orb_false_iff in Hn. destruct Hn as [Hc _].
      unfold fence. cbn [startswith]. fold backtick. rewrite Hc. reflexivity. }
    rewrite Hs. apply strip_idempotent. }
  assert (Hcore : forall inner,
             no_backtick inner ->
             strip (lead ++ fence ++ inner ++ fence ++ trail)
             = fence ++ inner ++ fence ++ rstripped trail
             /\ nth 1 (split_on fence
                         (fence ++ inner ++ fence ++ rstripped trail)) []
                = inner).
  { intros inner Hin. split.
    - replace (lead ++ fence ++ inner ++ fence ++ trail)
        with (lead ++ (fence ++ inner ++ fence) ++ trail)
        by (rewrite <- !app_assoc; reflexivity).
      rewrite strip_around; try assumption.
      + rewrite <- !app_assoc. reflexivity.
      + discriminate.
      + reflexivity.
      + rewrite !rev_app_distr. reflexivity.
    - unfold split_on.
      change (fence ++ inner ++ fence ++ rstripped trail)
        with (backtick :: backtick :: backtick
                :: (inner ++ fence ++ rstripped trail)).
      cbn [split_on_aux startswith fence N.eqb Pos.eqb andb length Nat.sub].
      change (N.eqb 96 backtick) with true. cbv iota. cbn [andb].
      rewrite (split_on_fence_free _ _ Hin). reflexivity. }
  split; [| split; [| exact Hplain]].
  - rewrite Hplain. unfold unfence at 1.
    destruct (Hcore ($"json" ++ body)) as [Hs Hn].
    { apply no_backtick_app; [reflexivity | exact Hfree]. }
    rewrite <- app_assoc in Hs. rewrite Hs.
    change (startswith fence (fence ++ ($"json" ++ body) ++ fence
                                    ++ rstripped trail)) with true.
    cbv iota. rewrite Hn. reflexivity.
  - intros Hnotag. rewrite Hplain. unfold unfence at 1.
    destruct (Hcore body Hfree) as [Hs Hn]. rewrite Hs.
    change (startswith fence (fence ++ body ++ fence ++ rstripped trail))
      with true.
    cbv iota. rewrite Hn, Hnotag. reflexivity.
Qed.

Lemma unfence_fenced_witness :
  unfence ([10%N] ++ fence ++ $"json" ++ ([10%N] ++ teleport_text ++ [10%N])
                  ++ fence ++ $" done")
  = teleport_text.
Proof.
  rewrite (proj1 (unfence_fenced [10%N] ([10%N] ++ teleport_text ++ [10%N])
                                 $" done" eq_refl eq_refl)).
  reflexivity.
Defined.

(** ** What the file operations leave alone *)

Section Frame.

Context {FS : Type} `{OS FS}.

Lemma same_dialog_refl (w : @world FS) : same_dialog w w.
Proof. repeat split. Qed.

Lemma same_dialog_trans (w1 w2 w3 : @world FS) :
  same_dialog w1 w2 -> same_dialog w2 w3 -> same_dialog w1 w3.
Proof.
  unfold same_dialog. intros (a1 & a2 & a3 & a4 & a5 & a6 & a7)
                             (b1 & b2 & b3 & b4 & b5 & b6 & b7).
  repeat split; congruence.
Qed.

Lemma fs_only_ret {A} (a : A) : fs_only (@ret FS A a).
Proof. intros w. apply same_dialog_refl. Qed.

Lemma fs_only_raise {A} (e : exn) : fs_only (@raise FS A e).
Proof. intros w. apply same_dialog_refl. Qed.

Lemma fs_only_read {A} (f : @world FS -> A) : fs_only (read f).
Proof. intros w. apply same_dialog_refl. Qed.

Lemma fs_only_bind {A B} (m : @M FS A) (k : A -> @M FS B) :
  fs_only m -> (forall a, fs_only (k a)) -> fs_only (bind m k).
Proof.
  intros Hm Hk w. unfold bind. specialize (Hm w).
  destruct (m w) as [[a | e] w1]; cbn [snd] in *.
  - eapply same_dialog_trans; [exact Hm |]. apply Hk.
  - exact Hm.
Qed.

Lemma fs_only_try {A} (m : @M FS A) (handler : exn -> @M FS A) :
  fs_only m -> (forall e, fs_only (handler e)) -> fs_only (try_except m handler).
Proof.
  intros Hm Hh w. unfold try_except. specialize (Hm w).
  destruct (m w) as [[a | e] w1]; cbn [snd] in *.
  - exact Hm.
  - eapply same_dialog_trans; [exact Hm |]. apply Hh.
Qed.

Lemma fs_only_os_call (c : syscall) (f : FS -> result unit * FS) :
  fs_only (os_call c f).
Proof.
  intros w. unfold os_call. destruct (f (fs w)). repeat split.
Qed.

Lemma fs_only_listdir (path : str) : fs_only (os_listdir path).
Proof. intros w. repeat split. Qed.

Lemma fs_only_for_matching (op : batch_op) (pattern : str)
      (act : str -> @M FS unit) (items : list str) :
  (forall item, fs_only (act item)) ->
  forall count, fs_only (for_matching op pattern act items count).
Proof.
  intros Hact. induction items as [|item items IH]; intros count;
    cbn [for_matching].
  - apply fs_only_ret.
  - destruct (Fnmatch.fnmatch item pattern); [| apply IH].
    apply fs_only_bind; [| intros _; apply IH].
    apply fs_only_try; [apply Hact | intros e; apply fs_only_raise].
Qed.

Ltac frame :=
  repeat first
    [ apply fs_only_ret | apply fs_only_raise | apply fs_only_read
    | apply fs_only_os_call | apply fs_only_listdir
    | apply fs_only_bind; [| intros ?]
    | apply fs_only_try; [| intros ?]
    | apply fs_only_for_matching; intros ?
    | match goal with
      | |- fs_only (if ?b then _ else _) => destruct b
      | |- fs_only (match ?x with _ => _ end) => destruct x
      end ].

Lemma dispatch_fs_only (action' params' : json) :
  fs_only (dispatch action' params').
Proof.
  unfold dispatch.
  repeat match goal with
         | |- fs_only (if ?b then _ else _) => destruct b
         end;
    unfold do_copy, do_move, do_delete, do_create_folder, do_create_file,
      do_rename, get_default, get_or, get, reject_multiple, path_part,
      active_path, copy_item, move_item, delete_item, os_isdir, os_exists,
      shutil_copytree, shutil_copy2, shutil_move, shutil_rmtree, os_remove,
      os_makedirs, open_write, os_rename;
    frame; unfold get; frame.
Qed.

(** X10: the six operations an answer can ask for read the panels' paths and
    act on the file system; whatever their outcome, they leave the
    history, the chat, the lock of the input line, the request in flight
    and the panels as they were. *)
Theorem operations_act_on_files_only (action' params' : json)
        (w : @world FS) :
  same_dialog w (snd (dispatch action' params' w)).
Proof. exact (dispatch_fs_only action' params' w). Qed.

End Frame.

(** ** Every answer settles the request *)

Lemma in_ids_find (i : Z) (rs : list row) :
  In i (map id rs) <->
  exists r, find (fun r => Z.eqb (id r) i) rs = Some r.
Proof.
  induction rs as [|x rs IH]; cbn [map In find].
  - split; [tauto | intros [r Hr]; discriminate].
  - destruct (Z.eqb_spec (id x) i) as [E | N].
    + split; [eauto | auto].
    + rewrite IH. split; [intros [E | Hr]; [contradiction | exact Hr] | auto].
Qed.

Lemma error_in_update (d : database) (i : Z) (a b c : option json)
      (st : option status) (e : option errtext) :
  bindable (given a) && bindable (given b) = true ->
  error_in (snd (update_message d i a b c st e)) i
  = match find (fun r => Z.eqb (id r) i) (rows d) with
    | Some r => or_else e (error_message r)
    | None => None
    end.
Proof.
  intros Hb. unfold error_in. rewrite (find_after_update d i a b c st e Hb).
  destruct (find _ (rows d)); reflexivity.
Qed.

Section Settling.

Context {FS : Type} `{OS FS}.

Lemma in_flight_same_dialog (i : Z) (w w' : @world FS) :
  same_dialog w w' -> in_flight i w -> in_flight i w'.
Proof.
  unfold same_dialog, in_flight. intros (Hd & Hc & _) (H1 & H2 & H3).
  rewrite Hd, Hc. auto.
Qed.

(** An update of the entry in flight that the database accepts. *)
Lemma mark_run (a b c : option json) (st : option status)
      (e : option errtext) (w : @world FS) (i : Z) :
  in_flight i w ->
  bindable (given a) && bindable (given b) = true ->
  exists w',
    db_update a b c st e w = (Ok tt, w')
    /\ in_flight i w' /\ same_disk w w'
    /\ input_enabled w' = input_enabled w
    /\ chat w' = chat w
    /\ (forall x, st = Some x -> status_in (db w') i = Some x)
    /\ (forall x, e = Some x -> error_in (db w') i = Some x).
Proof.
  intros (Hcur & Hi & Hin) Hb.
  rewrite (db_update_run a b c st e w i Hcur Hi Hb).
  eexists. split; [reflexivity |].
  apply in_ids_find in Hin. destruct Hin as [r Hr].
  split; [| split; [| split; [| split; [| split]]]].
  - unfold in_flight. cbn [db with_db current_message_id].
    split; [exact Hcur |]. split; [exact Hi |].
    rewrite update_message_ids. apply in_ids_find. eauto.
  - repeat split.
  - reflexivity.
  - reflexivity.
  - intros x ->. cbn [db with_db].
    rewrite status_in_update by exact Hb. rewrite Hr. reflexivity.
  - intros x ->. cbn [db with_db].
    rewrite error_in_update by exact Hb. rewrite Hr. reflexivity.
Qed.

(** A line in the chat and a status in the history: what every end of
    [on_response] and [execute] does. *)
Lemma settle_run (l : chat_line) (s : status) (e : option errtext)
      (w : @world FS) (i : Z) :
  in_flight i w ->
  exists w',
    bind (chat_append l)
         (fun _ => db_update None None None (Some s) e) w = (Ok tt, w')
    /\ in_flight i w' /\ same_disk w w'
    /\ input_enabled w' = input_enabled w
    /\ status_in (db w') i = Some s
    /\ (forall x, e = Some x -> error_in (db w') i = Some x)
    /\ chat w' = chat w ++ [l].
Proof.
  intros (Hcur & Hi & Hin).
  unfold bind, chat_append, modify.
  rewrite (db_update_run None None None (Some s) e _ i);
    [| exact Hcur | exact Hi | reflexivity].
  eexists. split; [reflexivity |].
  apply in_ids_find in Hin. destruct Hin as [r Hr].
  split; [| split; [| split; [| split; [| split]]]].
  - unfold in_flight. cbn [db with_db with_chat current_message_id].
    split; [exact Hcur |]. split; [exact Hi |].
    rewrite update_message_ids. apply in_ids_find. eauto.
  - repeat split.
  - reflexivity.
  - cbn [db with_db with_chat].
    rewrite status_in_update by reflexivity. rewrite Hr. reflexivity.
  - intros x ->. cbn [db with_db with_chat].
    rewrite error_in_update by reflexivity. rewrite Hr. reflexivity.
  - reflexivity.
Qed.

Lemma refresh_panels_run (w : @world FS) :
  refresh_panels w = (Ok tt, snd (refresh_panels w)).
Proof. reflexivity. Qed.

Lemma execute_settles (cmd : json) (w : @world FS) (i : Z) :
  in_flight i w ->
  forall r w',
    execute cmd w = (r, w') ->
    in_flight i w'
    /\ input_enabled w' = input_enabled w
    /\ (r = Ok tt -> settled (db w') i)
    /\ (forall e, r = Err e -> w' = w).
Proof.
  intros Hfl r w'. unfold execute, getitem, bind at 1.
  destruct cmd as [| b0 | n0 | s0 | l0 | members];
    try (unfold raise; intros [= <- <-];
         split; [exact Hfl | split; [reflexivity | split;
           [discriminate | reflexivity]]]).
  destruct (dict_get members $"action") as [action' |];
    [| unfold raise; intros [= <- <-];
       split; [exact Hfl | split; [reflexivity | split;
         [discriminate | reflexivity]]]].
  unfold ret at 1. unfold get_default, get, bind at 1 2, ret.
  set (params' := match dict_get members $"params" with
                  | Some x => x | None => JObj [] end).
  unfold try_except, bind at 1.
  pose proof (dispatch_fs_only action' params' w) as Hframe.
  destruct (dispatch action' params' w) as [[[] | e] wd]; cbn [snd] in Hframe.
  - unfold bind at 1. rewrite refresh_panels_run.
    destruct (refresh_panels_fields wd) as (_ & Hdb & _ & Hcur & Hinp & _).
    assert (Hfl' : in_flight i (snd (refresh_panels wd))).
    { pose proof (in_flight_same_dialog i w wd Hframe Hfl) as (F1 & F2 & F3).
      unfold in_flight. rewrite Hdb, Hcur. auto. }
    destruct (settle_run Chat_done success None _ i Hfl')
      as [wf (Hrun & Hflf & _ & Hinpf & Hst & _)].
    rewrite Hrun. intros [= <- <-].
    split; [exact Hflf |]. split.
    + rewrite Hinpf, Hinp. apply Hframe.
    + split; [intros _; left; exact Hst | discriminate].
  - pose proof (in_flight_same_dialog i w wd Hframe Hfl) as Hfl'.
    destruct (settle_run (Chat_error (Str_of e)) error (Some (Str_of e))
                         _ i Hfl')
      as [wf (Hrun & Hflf & _ & Hinpf & Hst & _)].
    rewrite Hrun. intros [= <- <-].
    split; [exact Hflf |]. split.
    + rewrite Hinpf. apply Hframe.
    + split; [intros _; right; exact Hst | discriminate].
Qed.

End Settling.

Section Answer.

Context {FS : Type} `{OS FS}.

Variable json_loads : str -> result json.

Lemma db_update_refused (a b c : option json) (st : option status)
      (e : option errtext) (w : @world FS) (i : Z) :
  current_message_id w = Some i -> i <> 0%Z ->
  bindable (given a) && bindable (given b) = false ->
  db_update a b c st e w = (Err SqliteBindError, w).
Proof.
  intros Hcur Hi Hb. unfold db_update. rewrite Hcur.
  destruct (Z.eqb_spec i 0) as [E | _]; [contradiction |].
  unfold update_message. rewrite Hb. destruct w; reflexivity.
Qed.

Lemma same_disk_refl (w : @world FS) : same_disk w w.
Proof. repeat split. Qed.

Lemma same_disk_trans (w1 w2 w3 : @world FS) :
  same_disk w1 w2 -> same_disk w2 w3 -> same_disk w1 w3.
Proof.
  unfold same_disk. intros (a1 & a2 & a3 & a4) (b1 & b2 & b3 & b4).
  repeat split; congruence.
Qed.

(** What the [try] block of [on_response] comes to: the entry stays in
    flight; unless the answer is a command other than [error], neither
    the file system nor the panels are touched and an orderly end
    records an error; an orderly end always settles the entry. *)
Lemma interpret_settles (answer : str) (w : @world FS) (i : Z) :
  in_flight i w ->
  forall r w',
    interpret_and_run json_loads answer w = (r, w') ->
    in_flight i w'
    /\ input_enabled w' = input_enabled w
    /\ (r = Ok tt -> settled (db w') i)
    /\ ((same_disk w w' /\ (r = Ok tt -> status_in (db w') i = Some error))
        \/ exists members action',
            json_loads (unfence answer) = Ok (JObj members)
            /\ dict_get members $"action" = Some action'
            /\ is_str action' $"error" = false).
Proof.
  intros Hfl r w'.
  assert (Hstop : forall e, (@Err unit e, w) = (r, w') ->
            in_flight i w' /\ input_enabled w' = input_enabled w
            /\ (r = Ok tt -> settled (db w') i)
            /\ ((same_disk w w'
                 /\ (r = Ok tt -> status_in (db w') i = Some error))
                \/ exists members action',
                    json_loads (unfence answer) = Ok (JObj members)
                    /\ dict_get members $"action" = Some action'
                    /\ is_str action' $"error" = false)).
  { intros e [= <- <-]. split; [exact Hfl |]. split; [reflexivity |].
    split; [discriminate |]. left. split; [apply same_disk_refl | discriminate]. }
  unfold interpret_and_run, lift, bind at 1.
  destruct (json_loads (unfence answer)) as [cmd | e] eqn:Hloads;
    [| apply Hstop].
  unfold get_default at 1, get at 1, bind at 1 2.
  destruct cmd as [| b0 | n0 | s0 | l0 | members];
    try (unfold raise; apply Hstop).
  unfold ret at 1 2. unfold bind at 1, chat_append, modify.
  set (msg := match dict_get members $"message" with
              | Some x => x | None => JStr [] end).
  set (w1 := with_chat (chat w ++ [Chat_ai msg]) w).
  assert (Hfl1 : in_flight i w1) by exact Hfl.
  unfold bind at 1, get at 1, ret at 1.
  unfold bind at 1, get at 1, ret at 1.
  destruct Hfl1 as (Hcur & Hi & Hin).
  unfold bind at 1.
  destruct (bindable (given (Some msg))
            && bindable (given (dict_get members $"action"))) eqn:Hb.
  - rewrite (db_update_run (Some msg) (dict_get members $"action")
               (dict_get members $"params") None None w1 i Hcur Hi Hb).
    set (w2 := with_db _ w1).
    assert (Hfl2 : in_flight i w2).
    { unfold in_flight, w2. cbn [current_message_id with_db db].
      split; [exact Hcur |]. split; [exact Hi |].
      rewrite update_message_ids. exact Hin. }
    assert (Hd2 : same_disk w w2) by (repeat split).
    unfold bind at 1, getitem.
    destruct (dict_get members $"action") as [action' |] eqn:Hact.
    + unfold ret at 1.
      destruct (is_str action' $"error") eqn:Herr.
      * destruct (mark_run None None None (Some error) None w2 i Hfl2
                           eq_refl)
          as [w3 (Hrun & Hfl3 & Hd3 & Hinp3 & _ & Hst & _)].
        rewrite Hrun. intros [= <- <-].
        specialize (Hst error eq_refl).
        split; [exact Hfl3 |].
        split; [rewrite Hinp3; reflexivity |].
        split; [intros _; right; exact Hst |].
        left. split; [| intros _; exact Hst].
        apply (same_disk_trans w w2 w3 Hd2 Hd3).
      * intros Hexec.
        destruct (execute_settles (JObj members) w2 i Hfl2 r w' Hexec)
          as (He1 & He2 & He3 & _).
        split; [exact He1 |]. split; [rewrite He2; reflexivity |].
        split; [exact He3 |].
        right. exists members, action'. auto.
    + unfold raise. intros [= <- <-].
      split; [exact Hfl2 |]. split; [reflexivity |].
      split; [discriminate |]. left. split; [exact Hd2 | discriminate].
  - rewrite (db_update_refused (Some msg) (dict_get members $"action")
               (dict_get members $"params") None None w1 i Hcur Hi Hb).
    intros [= <- <-].
    split; [split; [exact Hcur | split; [exact Hi | exact Hin]] |].
    split; [reflexivity |]. split; [discriminate |].
    left. split; [repeat split | discriminate].
Qed.

(** X11: whatever comes back from the endpoint, [on_response] unlocks the
    input line and leaves the entry of the request with the status
    [success] or [error]: no answer leaves a request pending. *)
Theorem on_response_settles (answer : str) (succeeded : bool)
        (w : @world FS) (i : Z) :
  in_flight i w ->
  let w' := on_response json_loads answer succeeded w in
  settled (db w') i
  /\ input_enabled w' = true
  /\ in_flight i w'.
Proof.
  intros Hfl. cbv zeta. unfold on_response.
  set (w0 := with_chat _ (with_input true w)).
  assert (Hfl0 : in_flight i w0) by exact Hfl.
  destruct succeeded; cbn [negb].
  - unfold try_except.
    destruct (interpret_and_run json_loads answer w0) as [[[] | e] w1] eqn:E.
    + destruct (interpret_settles answer w0 i Hfl0 _ _ E)
        as (H1 & H2 & H3 & _).
      cbn [snd]. split; [apply H3; reflexivity |].
      split; [rewrite H2; reflexivity | exact H1].
    + destruct (interpret_settles answer w0 i Hfl0 _ _ E)
        as (H1 & H2 & _).
      destruct (settle_run (Chat_failure (Str_of e)) error
                           (Some (Str_of e)) w1 i H1)
        as [wf (Hrun & Hflf & _ & Hinp & Hst & _)].
      rewrite Hrun. cbn [snd].
      split; [right; exact Hst |].
      split; [rewrite Hinp, H2; reflexivity | exact Hflf].
  - destruct (settle_run (Chat_failure (Text_of answer)) error
                         (Some (Text_of answer)) w0 i Hfl0)
      as [wf (Hrun & Hflf & _ & Hinp & Hst & _)].
    rewrite Hrun. cbn [snd].
    split; [right; exact Hst |].
    split; [rewrite Hinp; reflexivity | exact Hflf].
Qed.

(** X12: an answer that is no command changes nothing outside the dialog: when
    the endpoint reported a failure, or the answer is no JSON, no object,
    has no [action] or has the action [error], the file system, the
    noted calls and both panels stay as they were, and the entry of the
    request ends with the status [error]. *)
Theorem rejected_answer_touches_nothing (answer : str) (succeeded : bool)
        (w : @world FS) (i : Z) :
  in_flight i w ->
  succeeded = false \/ not_a_command (json_loads (unfence answer)) ->
  let w' := on_response json_loads answer succeeded w in
  same_disk w w' /\ status_in (db w') i = Some error.
Proof.
  intros Hfl Hrej. cbv zeta. unfold on_response.
  set (w0 := with_chat _ (with_input true w)).
  assert (Hfl0 : in_flight i w0) by exact Hfl.
  assert (Hd0 : same_disk w w0) by (repeat split).
  destruct succeeded; cbn [negb].
  - destruct Hrej as [Hrej | Hrej]; [discriminate |].
    unfold try_except.
    destruct (interpret_and_run json_loads answer w0) as [[[] | e] w1] eqn:E;
      destruct (interpret_settles answer w0 i Hfl0 _ _ E)
        as (H1 & _ & _ & [[Hd1 Hst1] | (members & action' & Hl & Ha & He)]);
      try (rewrite Hl in Hrej; cbn [not_a_command] in Hrej;
           rewrite Ha in Hrej; congruence).
    + cbn [snd]. split; [| apply Hst1; reflexivity].
      apply (same_disk_trans w w0 w1 Hd0 Hd1).
    + destruct (settle_run (Chat_failure (Str_of e)) error
                           (Some (Str_of e)) w1 i H1)
        as [wf (Hrun & _ & Hdf & _ & Hst & _)].
      rewrite Hrun. cbn [snd]. split; [| exact Hst].
      apply (same_disk_trans w w1 wf); [| exact Hdf].
      apply (same_disk_trans w w0 w1 Hd0 Hd1).
  - destruct (settle_run (Chat_failure (Text_of answer)) error
                         (Some (Text_of answer)) w0 i Hfl0)
      as [wf (Hrun & _ & Hdf & _ & Hst & _)].
    rewrite Hrun. cbn [snd]. split; [| exact Hst].
    apply (same_disk_trans w w0 wf Hd0 Hdf).
Qed.

(** X13: [execute] never raises once the command has an action.  When the
    operation succeeds, both panels are listed again from the file system
    it left, the chat says so and the entry gets the status [success];
    when it raises, the panels are not listed again, the chat and the
    entry get the text of the exception and the status is [error]. *)
Theorem execute_records_outcome (members : list (str * json))
        (action' : json) (w : @world FS) (i : Z) :
  in_flight i w ->
  dict_get members $"action" = Some action' ->
  let after := dispatch action' (params_of members) w in
  exists w',
    execute (JObj members) w = (Ok tt, w')
    /\ fs w' = fs (snd after)
    /\ match fst after with
       | Ok _ =>
           status_in (db w') i = Some success
           /\ left_panel w' = refresh (fs w') (left_panel w)
           /\ right_panel w' = refresh (fs w') (right_panel w)
           /\ chat w' = chat w ++ [Chat_done]
       | Err e =>
           status_in (db w') i = Some error
           /\ error_in (db w') i = Some (Str_of e)
           /\ left_panel w' = left_panel w
           /\ right_panel w' = right_panel w
           /\ trace w' = trace (snd after)
           /\ chat w' = chat w ++ [Chat_error (Str_of e)]
       end.
Proof.
  intros Hfl Hact. cbv zeta.
  unfold execute, getitem, bind at 1. rewrite Hact.
  unfold ret at 1. unfold get_default, get, bind at 1 2, ret.
  fold (params_of members).
  unfold try_except, bind at 1.
  pose proof (dispatch_fs_only action' (params_of members) w) as Hframe.
  destruct (dispatch action' (params_of members) w) as [[[] | e] wd];
    cbn [fst snd] in *.
  - unfold bind at 1. rewrite refresh_panels_run.
    destruct (refresh_panels_fields wd) as (Hfs & Hdb & Hchat & Hcur & _).
    assert (Hfl' : in_flight i (snd (refresh_panels wd))).
    { pose proof (in_flight_same_dialog i w wd Hframe Hfl) as (F1 & F2 & F3).
      unfold in_flight. rewrite Hdb, Hcur. auto. }
    destruct (settle_run Chat_done success None _ i Hfl')
      as [wf (Hrun & _ & (D1 & D2 & D3 & D4) & _ & Hst & _ & Hc)].
    rewrite Hrun. exists wf. split; [reflexivity |].
    destruct Hframe as (_ & _ & _ & Fc & Fl & Fr & _).
    split; [rewrite D1; exact Hfs |].
    split; [exact Hst |].
    split; [rewrite D3, D1, Hfs, <- Fl; reflexivity |].
    split; [rewrite D4, D1, Hfs, <- Fr; reflexivity |].
    rewrite Hc, Hchat, Fc. reflexivity.
  - pose proof (in_flight_same_dialog i w wd Hframe Hfl) as Hfl'.
    destruct (settle_run (Chat_error (Str_of e)) error (Some (Str_of e))
                         wd i Hfl')
      as [wf (Hrun & _ & (D1 & D2 & D3 & D4) & _ & Hst & He & Hc)].
    rewrite Hrun. exists wf. split; [reflexivity |].
    destruct Hframe as (_ & _ & _ & Fc & Fl & Fr & _).
    split; [exact D1 |].
    split; [exact Hst |].
    split; [apply He; reflexivity |].
    split; [rewrite D3; exact Fl |].
    split; [rewrite D4; exact Fr |].
    split; [exact D2 |].
    rewrite Hc, Fc. reflexivity.
Qed.

End Answer.

(** ** From the input line to the settled entry *)

Lemma lstrip_nil_iff (s : str) :
  lstrip s = [] <-> forallb isspace s = true.
Proof.
  induction s as [|c s IH]; cbn [lstrip forallb]; [tauto |].
  destruct (isspace c); cbn [andb]; [exact IH |].
  split; discriminate.
Qed.

Lemma forallb_rev {A : Type} (f : A -> bool) (l : list A) :
  forallb f (rev l) = forallb f l.
Proof.
  induction l as [|x l IH]; [reflexivity |].
  cbn [rev forallb]. rewrite forallb_app, IH. cbn [forallb].
  rewrite andb_true_r. apply andb_comm.
Qed.

(** A text strips to nothing exactly when it is white space only. *)
Lemma strip_nil_iff (s : str) :
  strip s = [] <-> forallb isspace s = true.
Proof.
  unfold strip. rewrite <- lstrip_nil_iff.
  split.
  - intros E. apply (f_equal (@rev N)) in E. rewrite rev_involutive in E.
    cbn [rev] in E. apply lstrip_nil_iff in E. rewrite forallb_rev in E.
    pose proof (lstrip_starts_black s) as Hb.
    destruct (lstrip s) as [|c u]; [reflexivity |].
    cbn [starts_black] in Hb. cbn [forallb] in E. rewrite Hb in E.
    discriminate.
  - intros ->. reflexivity.
Qed.

Lemma find_past {A : Type} (f : A -> bool) (l l' : list A) :
  (forall x, In x l -> f x = false) -> find f (l ++ l') = find f l'.
Proof.
  induction l as [|x l IH]; intros Hl; [reflexivity |].
  cbn [app find]. rewrite (Hl x (or_introl eq_refl)).
  apply IH. intros y Hy. apply Hl. right. exact Hy.
Qed.

Section Conversation.

Context {FS : Type} `{OS FS}.

Variable json_loads : str -> result json.

(** X14: [send] with nothing but white space in the input line does nothing.
    With anything else, in a history that the interface has built, it
    stores a pending entry and makes it the request in flight, locks the
    input line, touches neither the file system nor the panels, and asks
    for an answer to the five entries that were the most recent ones
    followed by the new text twice: once as the entry just stored, once
    as the current turn. *)
Theorem send_opens_request (now text : str) (w : @world FS) :
  reachable (db w) ->
  (forallb isspace text = true -> send now text w = (w, None))
  /\ (forallb isspace text = false ->
      exists i w',
        send now text w
        = (w', Some (System_prompt (current_path (left_panel w))
                                   (current_path (right_panel w))
                                   (active_panel w)
                     :: flat_map turns (get_recent_history (db w) 5)
                     ++ [User_turn (strip text); User_turn (strip text)]))
        /\ in_flight i w'
        /\ ~ In i (map id (rows (db w)))
        /\ status_in (db w') i = Some pending
        /\ input_enabled w' = false
        /\ same_disk w w'
        /\ chat w' = chat w ++ [Chat_user (strip text); Chat_thinking]).
Proof.
  intros Hd. split.
  - intros Hw. apply strip_nil_iff in Hw. unfold send. rewrite Hw.
    reflexivity.
  - intros Hw.
    assert (Ht : truthy (strip text) = true).
    { destruct (strip text) as [|c u] eqn:E; [| reflexivity].
      apply strip_nil_iff in E. congruence. }
    destruct (recent_after_add (db w) now (strip text) None None None
                               (Some pending) None 5 Hd eq_refl)
      as [r (Hrec & Hid & _ & Hmsg & Hai & _ & Hst & _)].
    cbv zeta in Hrec, Hid.
    destruct (reachable_seq (db w) Hd) as [H0 Hids].
    assert (Hmax : (max_id (rows (db w)) <= seq (db w))%Z)
      by (apply max_id_le; assumption).
    unfold send. rewrite Ht. cbn [negb].
    unfold add_message in *. cbn [bindable andb given fst snd] in *.
    injection Hid as Hid.
    exists (id r). eexists. split.
    + cbn [db with_db with_current with_input with_chat left_panel
             right_panel active_panel current_message_id].
      apply f_equal2; [reflexivity |]. do 2 f_equal.
      change 6%Z with (Z.of_nat 6). rewrite Hrec.
      assert (Hturn : turns r = [User_turn (strip text)])
        by (unfold turns; rewrite Hmsg, Hai; reflexivity).
      rewrite flat_map_app. cbn [flat_map]. rewrite Hturn.
      cbn [app]. rewrite <- app_assoc. reflexivity.
    + assert (Hnew : (id r = Z.max (seq (db w)) (max_id (rows (db w))) + 1)%Z)
        by (symmetry; exact Hid).
      split; [| split; [| split; [| split; [| split]]]].
      * unfold in_flight.
        cbn [db with_db with_current with_input with_chat
               current_message_id rows].
        split; [rewrite Hid; reflexivity |]. split; [lia |].
        rewrite map_app. apply in_or_app. right. left. exact Hid.
      * intros Hin. apply in_map_iff in Hin. destruct Hin as [x [Hx Hin]].
        rewrite Forall_forall in Hids. specialize (Hids x Hin). lia.
      * cbn [db with_db with_current with_input with_chat rows].
        unfold status_in. cbn [rows]. rewrite find_past.
        { cbn [find id]. rewrite Hid, Z.eqb_refl. reflexivity. }
        intros x Hin.
        rewrite Forall_forall in Hids. specialize (Hids x Hin).
        apply Z.eqb_neq. lia.
      * reflexivity.
      * repeat split.
      * reflexivity.
Qed.

End Conversation.

(** ** What a pattern operation touches *)

Section Touched.

Context {FS : Type} `{OS FS}.

Lemma item_action_trace (op : batch_op) (from_path to_path item : str)
      (w w' : @world FS) (r : result unit) :
  item_action op from_path to_path item w = (r, w') ->
  exists c, acts_on op from_path to_path item c
            /\ trace w' = trace w ++ [c].
Proof.
  destruct op; unfold item_action, acts_on, copy_item, move_item,
    delete_item, bind, os_isdir, read, shutil_copytree, shutil_copy2,
    shutil_move, shutil_rmtree, os_remove.
  - destruct (isdir (fs w) (Posixpath.join from_path item)); intros Hrun;
      apply os_call_trace in Hrun; eexists; (split; [| exact Hrun]);
      [left | right]; reflexivity.
  - intros Hrun. apply os_call_trace in Hrun. eexists.
    split; [reflexivity | exact Hrun].
  - destruct (isdir (fs w) (Posixpath.join from_path item)); intros Hrun;
      apply os_call_trace in Hrun; eexists; (split; [| exact Hrun]);
      [left | right]; reflexivity.
Qed.

(** The loop of a pattern operation makes one call for each selected
    item, in the order of the listing, up to the first that fails. *)
Lemma for_matching_trace (op : batch_op) (pattern from_path to_path : str)
      (items : list str) :
  forall (count : nat) (w w' : @world FS) (r : result nat),
    for_matching op pattern (item_action op from_path to_path) items count w
    = (r, w') ->
    exists done rest calls,
      selected_by pattern items = done ++ rest
      /\ trace w' = trace w ++ calls
      /\ Forall2 (acts_on op from_path to_path) done calls
      /\ (forall n, r = Ok n -> rest = [] /\ n = count + length done)
      /\ (forall e, r = Err e ->
            exists item cause, e = ItemFailed op item cause
                               /\ last done item = item /\ done <> []).
Proof.
  unfold selected_by.
  induction items as [|item items IH]; intros count w w' r;
    cbn [for_matching filter].
  - intros [= <- <-]. exists [], [], [].
    split; [reflexivity |]. split; [symmetry; apply app_nil_r |].
    split; [constructor |]. split.
    + intros n [= <-]. split; [reflexivity | cbn; lia].
    + intros e. discriminate.
  - destruct (Fnmatch.fnmatch item pattern) eqn:Hm; [| apply IH].
    unfold bind at 1, try_except.
    destruct (item_action op from_path to_path item w) as [[[] | e] w1] eqn:E;
      destruct (item_action_trace _ _ _ _ _ _ _ E) as [c [Hc Ht1]].
    + intros Hrest. apply IH in Hrest.
      destruct Hrest as (done & rest & calls & Hsel & Ht & Hf & Hok & Herr).
      exists (item :: done), rest, (c :: calls).
      split; [cbn [app]; rewrite Hsel; reflexivity |].
      split; [rewrite Ht, Ht1, <- app_assoc; reflexivity |].
      split; [constructor; assumption |]. split.
      * intros n Hn. destruct (Hok n Hn) as [-> ->].
        split; [reflexivity | cbn [length]; lia].
      * intros e Hr. destruct (Herr e Hr) as (it & cause & -> & Hl & Hne).
        exists it, cause. split; [reflexivity |].
        split; [| discriminate].
        destruct done as [|d done]; [contradiction | exact Hl].
    + unfold raise. intros [= <- <-].
      exists [item], (filter (fun i => Fnmatch.fnmatch i pattern) items), [c].
      split; [reflexivity |]. split; [exact Ht1 |].
      split; [repeat constructor; exact Hc |]. split.
      * intros n. discriminate.
      * intros e0 [= <-]. exists item, e. split; [reflexivity |].
        split; [reflexivity | discriminate].
Qed.

(** X15: a copy, move or delete with a pattern lists the source directory
    once and then makes calls for entries the pattern selects only: one
    call each, in the order of the listing, up to the end or to the first
    entry whose call fails.  It succeeds when the calls for all selected
    entries did and there was one at least; with nothing selected it
    makes no call and raises the no-match error. *)
Theorem batch_touches_selected_only
        (op : batch_op) (members : list (str * json)) (pattern : str)
        (items : list str) (w w' : @world FS) (r : result unit) :
  let from_path :=
    current_path (panel_of w (from_side (dict_get members $"from"))) in
  let to_path :=
    current_path (panel_of w (to_side (dict_get members $"to"))) in
  dict_get members $"pattern" = Some (JStr pattern) ->
  has_separator pattern = false ->
  listdir (fs w) from_path = Ok items ->
  batch op (JObj members) w = (r, w') ->
  exists done rest calls,
    selected_by pattern items = done ++ rest
    /\ trace w' = trace w ++ Sys_listdir from_path :: calls
    /\ Forall2 (acts_on op from_path to_path) done calls
    /\ (r = Ok tt -> rest = [] /\ done <> [])
    /\ (selected_by pattern items = [] <-> r = Err (NoMatch pattern)).
Proof.
  intros from_path to_path Hpat Hsep Hls.
  rewrite (batch_unfold op members pattern w Hpat Hsep).
  fold from_path to_path. rewrite Hls.
  destruct (for_matching op pattern (item_action op from_path to_path)
                         items 0 (listed from_path w))
    as [r0 w0] eqn:E.
  destruct (for_matching_trace op pattern from_path to_path items 0 _ _ _ E)
    as (done & rest & calls & Hsel & Ht & Hf & Hok & Herr).
  assert (Htrace : forall w1, w1 = w0 ->
            trace w1 = trace w ++ Sys_listdir from_path :: calls).
  { intros w1 ->. rewrite Ht. unfold listed. cbn [trace with_fs].
    rewrite <- app_assoc. reflexivity. }
  destruct r0 as [[|n] | e].
  - intros [= <- <-]. destruct (Hok 0 eq_refl) as [-> Hn].
    assert (Hd : done = []) by (destruct done; [reflexivity | discriminate]).
    exists done, [], calls.
    split; [exact Hsel |]. split; [apply Htrace; reflexivity |].
    split; [exact Hf |]. split; [discriminate |].
    rewrite Hsel, Hd. split; reflexivity.
  - intros [= <- <-]. destruct (Hok (S n) eq_refl) as [-> Hn].
    exists done, [], calls.
    split; [exact Hsel |]. split; [apply Htrace; reflexivity |].
    split; [exact Hf |]. split.
    + intros _. split; [reflexivity |]. intros ->. discriminate.
    + rewrite Hsel, app_nil_r. split; [| discriminate].
      intros ->. discriminate.
  - intros [= <- <-].
    destruct (Herr e eq_refl) as (it & cause & -> & _ & Hne).
    exists done, rest, calls.
    split; [exact Hsel |]. split; [apply Htrace; reflexivity |].
    split; [exact Hf |]. split; [discriminate |].
    rewrite Hsel. split; [| discriminate].
    intros Hnil. apply app_eq_nil in Hnil.
    destruct Hnil as [-> _]. contradiction.
Qed.

End Touched.

(** ** Renaming on request *)

Section Renaming.

Context {FS : Type} `{OS FS}.

Lemma get_or_run (members : list (str * json)) (k1 k2 : str)
      (w : @world FS) :
  exists v,
    get_or (JObj members) k1 k2 w = (Ok v, w)
    /\ (json_truthy v = true ->
        dict_get members k1 = Some v \/ dict_get members k2 = Some v).
Proof.
  unfold get_or, get_default, get, bind, ret.
  destruct (dict_get members k1) as [v1 |] eqn:E1.
  - destruct (json_truthy v1) eqn:T1.
    + exists v1. split; [reflexivity | intros _; left; reflexivity].
    + destruct (dict_get members k2) as [v2 |] eqn:E2.
      * exists v2. split; [reflexivity | intros _; right; reflexivity].
      * exists (JStr []). split; [reflexivity | discriminate].
  - destruct (dict_get members k2) as [v2 |] eqn:E2.
    + exists v2. split; [reflexivity | intros _; right; reflexivity].
    + exists (JStr []). split; [reflexivity | discriminate].
Qed.

(** X16: the rename an answer asks for either fails with the world as it was,
    or comes to the one call [os.rename] from a name that was there to a
    name that was not, both in the directory of the active panel and
    both given as strings, under the keys [old_name] and [new_name] or
    [old] and [new]: it never names a path that exists as the target. *)
Theorem rename_never_overwrites (p : json) (w w' : @world FS)
        (r : result unit) :
  do_rename p w = (r, w') ->
  ((exists e, r = Err e) /\ w' = w)
  \/ exists members old_name new_name,
      let cur := current_path (panel_of w (active_panel w)) in
      p = JObj members
      /\ (dict_get members $"old_name" = Some (JStr old_name)
          \/ dict_get members $"old" = Some (JStr old_name))
      /\ (dict_get members $"new_name" = Some (JStr new_name)
          \/ dict_get members $"new" = Some (JStr new_name))
      /\ path_exists (fs w) (Posixpath.join cur old_name) = true
      /\ path_exists (fs w) (Posixpath.join cur new_name) = false
      /\ (r, w') = os_rename (Posixpath.join cur old_name)
                             (Posixpath.join cur new_name) w.
Proof.
  assert (Hstop : forall e, (@Err unit e, w) = (r, w') ->
            ((exists e, r = Err e) /\ w' = w)
            \/ exists members old_name new_name,
                let cur := current_path (panel_of w (active_panel w)) in
                p = JObj members
                /\ (dict_get members $"old_name" = Some (JStr old_name)
                    \/ dict_get members $"old" = Some (JStr old_name))
                /\ (dict_get members $"new_name" = Some (JStr new_name)
                    \/ dict_get members $"new" = Some (JStr new_name))
                /\ path_exists (fs w) (Posixpath.join cur old_name) = true
                /\ path_exists (fs w) (Posixpath.join cur new_name) = false
                /\ (r, w') = os_rename (Posixpath.join cur old_name)
                                       (Posixpath.join cur new_name) w).
  { intros e [= <- <-]. left. split; [eauto | reflexivity]. }
  unfold do_rename.
  destruct p as [| b0 | n0 | s0 | l0 | members];
    try (unfold get_or, get, bind, raise; apply Hstop).
  unfold bind at 1.
  destruct (get_or_run members $"old_name" $"old" w) as [vo [-> Ho]].
  unfold bind at 1.
  destruct (get_or_run members $"new_name" $"new" w) as [vn [-> Hn]].
  destruct (json_truthy vo) eqn:To; cbn [negb orb];
    [| unfold raise; apply Hstop].
  destruct (json_truthy vn) eqn:Tn; cbn [negb orb];
    [| unfold raise; apply Hstop].
  unfold active_path, bind at 1, read.
  unfold bind at 1, path_part.
  destruct vo as [| bo | no | old_name | lo | mo];
    try (unfold raise; apply Hstop).
  unfold ret at 1. unfold bind at 1.
  destruct vn as [| bn | nn | new_name | ln | mn];
    try (unfold raise; apply Hstop).
  unfold ret at 1. unfold bind at 1, os_exists, read.
  destruct (path_exists (fs w) (Posixpath.join _ old_name)) eqn:Eo;
    cbn [negb]; [| unfold raise; apply Hstop].
  unfold bind at 1.
  destruct (path_exists (fs w) (Posixpath.join _ new_name)) eqn:En;
    [unfold raise; apply Hstop |].
  intros Hrun. right. exists members, old_name, new_name. cbv zeta.
  split; [reflexivity |]. split; [apply Ho; reflexivity |].
  split; [apply Hn; reflexivity |]. split; [exact Eo |].
  split; [exact En | symmetry; exact Hrun].
Qed.

End Renaming.

(** ** The operations of the window *)

Section WindowFacts.

Context {FS : Type} `{OS FS}.

Lemma refresh_panels_refreshes : refreshes both (@refresh_panels FS _).
Proof.
  intros w1. eexists. split; [reflexivity |].
  do 4 (split; [reflexivity |]). intros []; reflexivity.
Qed.

Lemma refresh_panel_refreshes (s0 : side) :
  refreshes (side_eqb s0) (@refresh_panel FS _ s0).
Proof.
  intros w1. eexists. split; [reflexivity |].
  destruct s0; do 4 (split; [reflexivity |]); intros []; reflexivity.
Qed.

Lemma attempt_ends (refreshed : side -> bool) (body after : @M FS unit)
      (w : @world FS) :
  fs_only body -> refreshes refreshed after ->
  ends_as refreshed true w (attempt body after w).
Proof.
  intros Hbody Hafter. unfold ends_as, attempt, bind.
  specialize (Hbody w).
  destruct (body w) as [[[] | e] w1]; cbn [snd] in Hbody;
    destruct Hbody as (Bd & _ & _ & Bc & Bl & Br & Ba).
  - destruct (Hafter w1) as [w2 (-> & Af & Ad & Ac & Aa & Ap)].
    cbn [fst snd].
    split; [congruence |]. split; [congruence |]. split; [congruence |].
    split; [reflexivity |].
    intros s. rewrite Ap, Af.
    assert (Hp : panel_of w1 s = panel_of w s)
      by (destruct s; [exact Bl | exact Br]).
    rewrite Hp. reflexivity.
  - cbn [fst snd].
    split; [exact Bd |]. split; [exact Bc |]. split; [exact Ba |].
    split; [reflexivity |].
    intros []; [exact Bl | exact Br].
Qed.

Lemma declined_ends (refreshed : side -> bool) (w : @world FS) :
  ends_as refreshed false w (None, w).
Proof. repeat split. Qed.

Lemma fs_only_copy_path (a b : str) : fs_only (@copy_path FS _ a b).
Proof.
  unfold copy_path, os_isdir, shutil_copytree, shutil_copy2.
  apply fs_only_bind; [apply fs_only_read |].
  intros []; apply fs_only_os_call.
Qed.

Lemma fs_only_delete_path (a : str) : fs_only (@delete_path FS _ a).
Proof.
  unfold delete_path, os_isdir, shutil_rmtree, os_remove.
  apply fs_only_bind; [apply fs_only_read |].
  intros []; apply fs_only_os_call.
Qed.

(** X17: every operation of the keys and of the context menu asks first.
    Copying and moving list both panels again when they succeed; making
    a folder or a file, deleting and renaming list one panel again, the
    active one or the one whose menu was used, so that the other panel
    keeps its listing even when it shows the same directory.  An
    operation that fails lists nothing again. *)
Theorem window_operations_end
        (selected : option str) (self : side) (path name : str)
        (reply : bool) (w : @world FS) :
  ends_as both (reply && picked selected) w (copy_file selected reply w)
  /\ ends_as both (reply && picked selected) w (move_file selected reply w)
  /\ ends_as (side_eqb (active_panel w)) (reply && picked selected) w
             (delete_file selected reply w)
  /\ ends_as (side_eqb (active_panel w))
             (reply && picked selected && truthy name
              && negb (eqb name (Posixpath.basename
                                   (match selected with
                                    | Some p => p
                                    | None => []
                                    end)))) w
             (rename_file selected name reply w)
  /\ ends_as (side_eqb (active_panel w)) (reply && truthy name) w
             (create_directory name reply w)
  /\ ends_as (side_eqb (active_panel w)) (reply && truthy name) w
             (create_file name reply w)
  /\ ends_as both reply w (copy_to_other_panel self path reply w)
  /\ ends_as both reply w (move_to_other_panel self path reply w)
  /\ ends_as (side_eqb self) reply w (delete_item_of self path reply w)
  /\ ends_as (side_eqb self)
             (reply && truthy name
              && negb (eqb name (Posixpath.basename path))) w
             (rename_item self path name reply w).
Proof.
  unfold copy_file, move_file, delete_file, rename_file, create_directory,
    create_file, copy_to_other_panel, move_to_other_panel, delete_item_of,
    rename_item, picked, shutil_move, os_makedirs, open_write, os_rename.
  destruct selected as [[|c p] |], reply, name as [|d name];
    repeat match goal with |- _ /\ _ => split end;
    cbn [andb negb truthy];
    repeat match goal with
           | |- context [eqb ?a ?b] => destruct (eqb a b)
           end;
    cbn [andb negb];
    first
      [ apply declined_ends
      | apply attempt_ends;
        [ first [ apply fs_only_copy_path | apply fs_only_delete_path
                | apply fs_only_os_call ]
        | first [ apply refresh_panels_refreshes
                | apply refresh_panel_refreshes ] ] ].
Qed.

End WindowFacts.

Lemma after_last_free (c : N) (s : str) :
  existsb (N.eqb c) s = false -> after_last c s = 0.
Proof.
  induction s as [|x s IH]; cbn [existsb after_last]; [reflexivity |].
  rewrite orb_false_iff. intros [Hx Hs]. rewrite (IH Hs), N.eqb_sym, Hx.
  reflexivity.
Qed.

Lemma after_last_app_free (c : N) (s t : str) :
  existsb (N.eqb c) t = false -> after_last c (s ++ t) = after_last c s.
Proof.
  intros Ht. induction s as [|x s IH]; cbn [app after_last].
  - apply after_last_free. exact Ht.
  - rewrite IH. reflexivity.
Qed.

Lemma after_last_snoc (c : N) (s : str) :
  after_last c (s ++ [c]) = S (length s).
Proof.
  induction s as [|x s IH]; cbn [app after_last length].
  - rewrite N.eqb_refl. reflexivity.
  - rewrite IH. reflexivity.
Qed.

(** The base name of a path made by joining a directory and a name
    without a slash is the name. *)
Lemma basename_join (dir name : str) :
  existsb (N.eqb Posixpath.slash) name = false ->
  Posixpath.basename (Posixpath.join dir name) = name.
Proof.
  intros Hfree. unfold Posixpath.basename, Posixpath.join.
  assert (Hstart : startswith [Posixpath.slash] name = false).
  { destruct name as [|x name]; [reflexivity |].
    cbn [existsb] in Hfree. apply orb_false_iff in Hfree.
    destruct Hfree as [Hx _]. cbn [startswith].
    first [rewrite Hx | rewrite N.eqb_sym, Hx]. reflexivity. }
  rewrite Hstart.
  assert (Hcut : forall a,
             skipn (after_last Posixpath.slash
                               ((a ++ [Posixpath.slash]) ++ name))
                   ((a ++ [Posixpath.slash]) ++ name) = name).
  { intros a. rewrite (after_last_app_free _ _ _ Hfree), after_last_snoc.
    replace (S (length a)) with (length (a ++ [Posixpath.slash]) + 0)
      by (rewrite length_app; cbn [length]; lia).
    rewrite skipn_app, skipn_all2 by lia.
    replace (length (a ++ [Posixpath.slash]) + 0
             - length (a ++ [Posixpath.slash])) with 0 by lia.
    reflexivity. }
  destruct dir as [|d dir].
  - rewrite (after_last_free _ _ Hfree). reflexivity.
  - destruct (N.eqb_spec (last (d :: dir) 0%N) Posixpath.slash) as [E | _].
    + destruct (exists_last (l := d :: dir)) as [a [x Ha]]; [discriminate |].
      rewrite Ha in E |- *. rewrite last_last in E. subst x. apply Hcut.
    + replace ((d :: dir) ++ Posixpath.slash :: name)
        with (((d :: dir) ++ [Posixpath.slash]) ++ name)
        by (rewrite <- app_assoc; reflexivity).
      apply Hcut.
Qed.

Section Keys.

Context {FS : Type} `{OS FS}.

Lemma target_is_other (self : side) (w : @world FS) :
  target_of self w = panel_of w (other self).
Proof.
  unfold target_of, get_inactive_panel.
  destruct (active_panel w), self; reflexivity.
Qed.

(** X18: on an entry of a listing, the keys and the context menu make the
    calls the assistant makes for one selected item: F5, F6 and F8 on the
    path a panel keeps for the entry [name] of [cur] copy, move and
    delete as the loops of [do_copy], [do_move] and [do_delete] do for
    that item, towards the panel that is not active; the context menu
    does the same towards the panel other than its own, whichever is
    active. *)
Theorem keys_act_as_the_assistant (cur name : str) (self : side)
        (w : @world FS) :
  existsb (N.eqb Posixpath.slash) name = false ->
  truthy (Posixpath.join cur name) = true ->
  let path := Posixpath.join cur name in
  let there := current_path (panel_of w (other (active_panel w))) in
  let across := current_path (panel_of w (other self)) in
  copy_file (Some path) true w
  = attempt (copy_item cur there name) refresh_panels w
  /\ move_file (Some path) true w
     = attempt (move_item cur there name) refresh_panels w
  /\ delete_file (Some path) true w
     = attempt (delete_item cur name) (refresh_panel (active_panel w)) w
  /\ copy_to_other_panel self path true w
     = attempt (copy_item cur across name) refresh_panels w
  /\ move_to_other_panel self path true w
     = attempt (move_item cur across name) refresh_panels w
  /\ delete_item_of self path true w
     = attempt (delete_item cur name) (refresh_panel self) w.
Proof.
  intros Hfree Htruthy. cbv zeta.
  unfold copy_file, move_file, delete_file, copy_to_other_panel,
    move_to_other_panel, delete_item_of.
  rewrite Htruthy, (basename_join cur name Hfree), target_is_other.
  cbn [negb]. unfold get_inactive_panel.
  repeat split.
Qed.

End Keys.

(** ** Making what is already there, by hand *)

Lemma makedirs_in_taken (now : Z) (comps : list str) :
  forall es mt n,
    TreeFS.stat_in es mt comps = inr n ->
    TreeFS.makedirs_in now false es comps = inl EEXIST.
Proof.
  induction comps as [|c rest IH]; intros es mt n;
    cbn [TreeFS.stat_in TreeFS.makedirs_in]; [reflexivity |].
  destruct (TreeFS.assoc es c) as [[fm ftext | dm des] |]; [| | discriminate].
  - destruct rest; [reflexivity | discriminate].
  - intros Hs. rewrite (IH des dm n Hs). reflexivity.
Qed.

(** X19: F7 and Shift+F7 over a name that is taken, on the directory-tree
    file system: making a folder fails with [FileExistsError] whatever
    bears the name, a folder too, nothing is changed and no panel is
    listed again; making a file over a file succeeds and leaves the file
    empty. *)
Theorem keys_create_over_existing
        (w : @world TreeFS.t) (name : str) :
  truthy name = true ->
  let path :=
    Posixpath.join (current_path (panel_of w (active_panel w))) name in
  (path_exists (fs w) path = true ->
   create_directory name true w
   = (Some (Notice_failed (Str_of (OSError EEXIST path))),
      with_fs (fs w) (Sys_makedirs false path) w))
  /\ (forall m old,
         TreeFS.stat (fs w) path = Ok (TreeFS.File m old) ->
         exists w',
           create_file name true w = (Some Notice_done, w')
           /\ TreeFS.stat (fs w') path
              = Ok (TreeFS.File (TreeFS.clock (fs w)) [])).
Proof.
  intros Hname path. split.
  - intros Hthere. unfold create_directory, attempt, bind, os_makedirs,
      os_call. rewrite Hname. cbn [andb]. fold path.
    cbn [makedirs TreeFS_OS]. unfold TreeFS.makedirs.
    cbn [path_exists TreeFS_OS] in Hthere.
    unfold TreeFS.path_exists in Hthere.
    destruct (TreeFS.stat (fs w) path) as [n |] eqn:Hs; [| discriminate].
    rewrite andb_false_r.
    rewrite (makedirs_in_taken _ _ _ _ _ (stat_inv _ _ _ Hs)).
    reflexivity.
  - intros m old Hs. unfold create_file, attempt, bind, open_write, os_call.
    rewrite Hname. cbn [andb]. fold path.
    cbn [write_text TreeFS_OS].
    unfold TreeFS.write_text, TreeFS.change.
    destruct (TreeFacts.alter_over_file (TreeFS.clock (fs w))
                (fun old0 =>
                   match old0 with
                   | Some (TreeFS.Dir _ _) => inl EISDIR
                   | _ => inr (Some (TreeFS.File (TreeFS.clock (fs w)) []))
                   end)
                (TreeFS.File (TreeFS.clock (fs w)) [])
                (TreeFS.comps_of (fs w) path)
                (fun _ _ => eq_refl) (ex_intro _ _ (ex_intro _ _ eq_refl))
                _ _ _ _ (stat_inv _ _ _ Hs))
      as [root' [Ha Hs']].
    rewrite Ha. eexists. split; [reflexivity |].
    cbn [fs with_fs with_panels]. 
    unfold TreeFS.stat, TreeFS.tick, TreeFS.comps_of in *.
    destruct (active_panel w); cbn [fs with_fs with_panels TreeFS.root TreeFS.cwd];
      rewrite Hs'; reflexivity.
Qed.

Lemma pending_in_flight : in_flight 1 pending_world.
Proof.
  split; [reflexivity |]. split; [discriminate | left; reflexivity].
Qed.

Lemma on_response_settles_witness :
  let w' := on_response (loads_table [(teleport_text, teleport_cmd)])
                        $"no json here" true pending_world in
  in_flight 1 pending_world
  /\ settled (db w') 1
  /\ input_enabled w' = true.
Proof.
  split; [exact pending_in_flight |].
  destruct (on_response_settles
              (loads_table [(teleport_text, teleport_cmd)])
              $"no json here" true pending_world 1 pending_in_flight)
    as (Hs & Hi & _).
  split; [exact Hs | exact Hi].
Defined.

Lemma rejected_answer_touches_nothing_witness :
  let w' := on_response (loads_table [(teleport_text, teleport_cmd)])
                        $"no json here" true pending_world in
  same_disk pending_world w'
  /\ status_in (db w') 1 = Some error.
Proof.
  apply (rejected_answer_touches_nothing
           (loads_table [(teleport_text, teleport_cmd)])
           $"no json here" true pending_world 1 pending_in_flight).
  right. vm_compute. exact I.
Defined.

Lemma execute_records_outcome_witness :
  exists w',
    execute (JObj [($"action", JStr $"delete");
                   ($"params", JObj [($"pattern", JStr $"*.log");
                                     ($"from", JStr $"left")])])
            pending_world = (Ok tt, w')
    /\ status_in (db w') 1 = Some success
    /\ chat w' = chat pending_world ++ [Chat_done].
Proof.
  destruct (execute_records_outcome
              [($"action", JStr $"delete");
               ($"params", JObj [($"pattern", JStr $"*.log");
                                 ($"from", JStr $"left")])]
              (JStr $"delete") pending_world 1 pending_in_flight eq_refl)
    as [w' (Hrun & _ & Hend)].
  assert (E : fst (dispatch (JStr $"delete")
                            (params_of
                               [($"action", JStr $"delete");
                                ($"params", JObj [($"pattern", JStr $"*.log");
                                                  ($"from", JStr $"left")])])
                            pending_world) = Ok tt)
    by (vm_compute; reflexivity).
  rewrite E in Hend. destruct Hend as (Hst & _ & _ & Hchat).
  exists w'. split; [exact Hrun |]. split; [exact Hst | exact Hchat].
Defined.

Lemma answered_world_reachable : reachable (db answered_world).
Proof.
  assert (E : db answered_world
              = snd (update_message
                       (snd (update_message
                               (snd (add_message $"2026-01-01T00:00:00"
                                                 init_database
                                                 $"teleport me home"
                                                 None None None
                                                 (Some pending) None))
                               1 (Some (JNum 0)) (Some (JStr $"error"))
                               None None None))
                       1 None None None (Some error) None))
    by (vm_compute; reflexivity).
  rewrite E. do 2 apply reach_update. apply reach_add. apply reach_init.
Qed.

Lemma send_opens_request_witness :
  send $"2026-01-01" $"  " answered_world = (answered_world, None)
  /\ snd (send $"2026-01-02" $" and again " answered_world)
     = Some [System_prompt $"/A" $"/B" Left;
             User_turn $"teleport me home";
             Assistant_turn (JStr $"0");
             User_turn $"and again";
             User_turn $"and again"]
  /\ exists i,
      in_flight i (fst (send $"2026-01-02" $" and again " answered_world)).
Proof.
  destruct (send_opens_request $"2026-01-01" $"  " answered_world
                               answered_world_reachable)
    as [Hblank _].
  destruct (send_opens_request $"2026-01-02" $" and again " answered_world
                               answered_world_reachable)
    as [_ Hsend].
  split; [apply Hblank; reflexivity |].
  destruct (Hsend eq_refl) as (i & w' & Hrun & Hfl & _).
  rewrite Hrun. cbn [fst snd].
  split; [vm_compute; reflexivity |].
  exists i. exact Hfl.
Defined.

Lemma batch_touches_selected_only_witness :
  let run := batch Deleting (left_to_right $"*.txt") sample_world in
  exists done rest calls,
    selected_by $"*.txt" [$"a.txt"; $"b.txt"; $"c.log"] = done ++ rest
    /\ trace (snd run) = trace sample_world ++ Sys_listdir $"/A" :: calls
    /\ Forall2 (acts_on Deleting $"/A" $"/B") done calls
    /\ (fst run = Ok tt -> rest = [] /\ done <> []).
Proof.
  pose proof (@batch_touches_selected_only
                TreeFS.t TreeFS_OS Deleting
                [($"pattern", JStr $"*.txt"); ($"from", JStr $"left");
                 ($"to", JStr $"right")]
                $"*.txt" [$"a.txt"; $"b.txt"; $"c.log"] sample_world
                (snd (batch Deleting (left_to_right $"*.txt") sample_world))
                (fst (batch Deleting (left_to_right $"*.txt") sample_world)))
    as Hrun.
  cbv zeta in Hrun.
  destruct Hrun as (done & rest & calls & H1 & H2 & H3 & H4 & _);
    [reflexivity | reflexivity | vm_compute; reflexivity
     | apply surjective_pairing |].
  exists done, rest, calls. auto.
Defined.

Lemma rename_never_overwrites_witness :
  let p := JObj [($"old", JStr $"a.txt"); ($"new", JStr $"b.txt")] in
  fst (do_rename p sample_world) = Err (NewExists $"b.txt")
  /\ snd (do_rename p sample_world) = sample_world.
Proof.
  destruct (rename_never_overwrites
              (JObj [($"old", JStr $"a.txt"); ($"new", JStr $"b.txt")])
              sample_world
              (snd (do_rename (JObj [($"old", JStr $"a.txt");
                                     ($"new", JStr $"b.txt")]) sample_world))
              (fst (do_rename (JObj [($"old", JStr $"a.txt");
                                     ($"new", JStr $"b.txt")]) sample_world))
              (surjective_pairing _))
    as [[_ Hsame] | (members & old_name & new_name & _)].
  - split; [reflexivity | exact Hsame].
  - split; reflexivity.
Defined.

Lemma keys_act_as_the_assistant_witness :
  copy_file (Some $"/A/a.txt") true sample_world
  = attempt (copy_item $"/A" $"/B" $"a.txt") refresh_panels sample_world.
Proof.
  apply (keys_act_as_the_assistant $"/A" $"a.txt" Left sample_world
                                   eq_refl eq_refl).
Defined.

Lemma keys_create_over_existing_witness :
  create_directory $"a.txt" true sample_world
  = (Some (Notice_failed (Str_of (OSError EEXIST $"/A/a.txt"))),
     with_fs (fs sample_world) (Sys_makedirs false $"/A/a.txt") sample_world).
Proof.
  apply (proj1 (keys_create_over_existing sample_world $"a.txt" eq_refl)).
  reflexivity.
Defined.

(** ** Dropping an entry on a panel *)

Lemma last_all_eq (c : N) (s : str) :
  all_eq c s = true -> s <> [] -> last s 0%N = c.
Proof.
  unfold all_eq. induction s as [|x s IH]; [contradiction |].
  cbn [forallb]. rewrite andb_true_iff, N.eqb_eq. intros [<- Hs] _.
  destruct s as [|y s]; [reflexivity |].
  change (last (c :: y :: s) 0%N) with (last (y :: s) 0%N).
  apply IH; [exact Hs | discriminate].
Qed.

Lemma firstn_length_app {A : Type} (a b : list A) :
  firstn (length a) (a ++ b) = a.
Proof.
  rewrite firstn_app, firstn_all, Nat.sub_diag. cbn [firstn].
  apply app_nil_r.
Qed.

(** The directory part of a path made by joining a tidy directory and a
    name without a slash is the directory. *)
Lemma dirname_join (dir name : str) :
  existsb (N.eqb Posixpath.slash) name = false ->
  tidy dir ->
  Posixpath.dirname (Posixpath.join dir name) = dir.
Proof.
  intros Hfree Htidy. unfold Posixpath.dirname, Posixpath.join.
  assert (Hstart : startswith [Posixpath.slash] name = false).
  { destruct name as [|x name]; [reflexivity |].
    cbn [existsb] in Hfree. apply orb_false_iff in Hfree.
    destruct Hfree as [Hx _]. cbn [startswith].
    first [rewrite Hx | rewrite N.eqb_sym, Hx]. reflexivity. }
  rewrite Hstart.
  assert (Hcut : forall a,
             firstn (after_last Posixpath.slash
                                ((a ++ [Posixpath.slash]) ++ name))
                    ((a ++ [Posixpath.slash]) ++ name)
             = a ++ [Posixpath.slash]).
  { intros a. rewrite (after_last_app_free _ _ _ Hfree), after_last_snoc.
    replace (S (length a)) with (length (a ++ [Posixpath.slash]))
      by (rewrite length_app; cbn [length]; lia).
    apply firstn_length_app. }
  destruct dir as [|d dir].
  - rewrite (after_last_free _ _ Hfree). reflexivity.
  - destruct (N.eqb_spec (last (d :: dir) 0%N) Posixpath.slash) as [E | N].
    + destruct (exists_last (l := d :: dir)) as [a [x Ha]]; [discriminate |].
      rewrite Ha in E, Htidy |- *. rewrite last_last in E. subst x.
      rewrite Hcut.
      destruct (all_eq Posixpath.slash (a ++ [Posixpath.slash])) eqn:R;
        [rewrite andb_false_r; reflexivity |].
      destruct Htidy as [Hr | Hroot];
        [| unfold is_root in Hroot; congruence].
      destruct (truthy (a ++ [Posixpath.slash])); [exact Hr | reflexivity].
    + replace ((d :: dir) ++ Posixpath.slash :: name)
        with (((d :: dir) ++ [Posixpath.slash]) ++ name)
        by (rewrite <- app_assoc; reflexivity).
      rewrite Hcut.
      assert (Hnot : all_eq Posixpath.slash
                            ((d :: dir) ++ [Posixpath.slash]) = false).
      { destruct (all_eq Posixpath.slash ((d :: dir) ++ [Posixpath.slash]))
          eqn:R; [| reflexivity].
        exfalso. apply N. unfold all_eq in R. rewrite forallb_app in R.
        apply andb_true_iff in R. destruct R as [R _].
        apply (last_all_eq _ _ R). discriminate. }
      rewrite Hnot. cbn [app truthy andb negb].
      change (d :: dir ++ [Posixpath.slash])
        with ((d :: dir) ++ [Posixpath.slash]).
      rewrite rstrip_snoc.
      destruct Htidy as [Hr | Hroot]; [exact Hr |].
      exfalso. apply N. apply (last_all_eq _ _ Hroot). discriminate.
Qed.

(** X20: dragging an entry of a panel and dropping it on the same panel is
    ignored, whatever the answer would be: nothing is asked, moved or
    listed again.  So is dropping a path that does not exist. *)
Theorem drop_on_own_panel_ignored {FS : Type} `{OS FS}
        (self : side) (name path : str) (reply : bool) (w : @world FS) :
  let cur := current_path (panel_of w self) in
  existsb (N.eqb Posixpath.slash) name = false ->
  tidy cur ->
  handle_file_drop self (Posixpath.join cur name) reply w = (None, w)
  /\ (path_exists (fs w) path = false ->
      handle_file_drop self path reply w = (None, w)).
Proof.
  intros cur Hfree Htidy. unfold handle_file_drop. split.
  - destruct (path_exists (fs w) (Posixpath.join cur name));
      cbn [negb]; [| reflexivity].
    fold cur. rewrite (dirname_join cur name Hfree Htidy), eqb_refl.
    reflexivity.
  - intros ->. reflexivity.
Qed.

Lemma drop_on_own_panel_ignored_witness :
  handle_file_drop Left $"/A/a.txt" true sample_world = (None, sample_world).
Proof.
  apply (proj1 (drop_on_own_panel_ignored Left $"a.txt" [] true sample_world
                                          eq_refl (or_introl eq_refl))).
Defined.

(** ** The path a panel shows *)

Lemma rstrip_fixed (c : N) (s : str) :
  s = [] \/ last s 0%N <> c -> rstrip c s = s.
Proof.
  induction s as [|x s IH]; [reflexivity |].
  intros [E | Hl]; [discriminate |].
  cbn [rstrip]. destruct s as [|y s].
  - cbn [rstrip]. cbn [last] in Hl.
    destruct (N.eqb_spec x c); [contradiction | reflexivity].
  - rewrite IH; [reflexivity |]. right. exact Hl.
Qed.

Lemma last_app_nonempty {A : Type} (a b : list A) (d : A) :
  b <> [] -> last (a ++ b) d = last b d.
Proof.
  intros Hb. destruct (exists_last Hb) as [b' [y ->]].
  rewrite app_assoc, !last_last. reflexivity.
Qed.

(** A component of a path: not empty and without a slash. *)
Lemma split_pieces_free (c : N) (s : str) :
  Forall (fun piece => existsb (N.eqb c) piece = false) (split c s).
Proof.
  induction s as [|x s IH]; cbn [split].
  - repeat constructor.
  - destruct (N.eqb x c) eqn:E.
    + constructor; [reflexivity | exact IH].
    + destruct (split c s) as [|piece pieces].
      * repeat constructor. cbn [existsb]. rewrite N.eqb_sym, E. reflexivity.
      * inversion IH as [|? ? Hp Hps]; subst. constructor; [| exact Hps].
        cbn [existsb]. rewrite N.eqb_sym, E, Hp. reflexivity.
Qed.

Lemma norm_comps_keeps (P : str -> Prop) (n : nat) (comps : list str) :
  forall rev_new,
    Forall (fun comp => comp <> [] -> P comp) comps ->
    Forall P rev_new ->
    Forall P (Posixpath.norm_comps n comps rev_new).
Proof.
  induction comps as [|comp comps IH]; intros rev_new Hc Hn;
    cbn [Posixpath.norm_comps].
  - apply Forall_rev. exact Hn.
  - inversion Hc as [|? ? Hcomp Hrest]; subst.
    destruct (eqb comp [] || eqb comp Posixpath.dot) eqn:E;
      [apply IH; assumption |].
    apply orb_false_iff in E. destruct E as [Hne _].
    assert (Hp : P comp).
    { apply Hcomp. intros ->. discriminate. }
    destruct (negb (eqb comp Posixpath.dotdot) || _ || _).
    + apply IH; [exact Hrest | constructor; assumption].
    + destruct rev_new as [|top popped]; [apply IH; assumption |].
      apply IH; [exact Hrest |]. inversion Hn; assumption.
Qed.

Lemma join_ends_black (parts : list str) :
  Forall (fun comp => comp <> []
                      /\ existsb (N.eqb Posixpath.slash) comp = false) parts ->
  parts <> [] ->
  PyStr.join [Posixpath.slash] parts <> []
  /\ last (PyStr.join [Posixpath.slash] parts) 0%N <> Posixpath.slash.
Proof.
  induction parts as [|p ps IH]; [contradiction |].
  intros Hall _. inversion Hall as [|? ? [Hne Hfree] Hps]; subst.
  destruct ps as [|q ps].
  - cbn [PyStr.join]. split; [exact Hne |].
    intros Hl.
    assert (Hin : In (last p 0%N) p).
    { destruct (exists_last Hne) as [a [x ->]]. rewrite last_last.
      apply in_or_app. right. left. reflexivity. }
    rewrite Hl in Hin.
    assert (Ht : existsb (N.eqb Posixpath.slash) p = true).
    { apply existsb_exists. exists Posixpath.slash.
      split; [exact Hin | apply N.eqb_refl]. }
    congruence.
  - destruct (IH Hps ltac:(discriminate)) as [Hj Hl].
    change (PyStr.join [Posixpath.slash] (p :: q :: ps))
      with (p ++ [Posixpath.slash] ++ PyStr.join [Posixpath.slash] (q :: ps)).
    split.
    + intros E. apply app_eq_nil in E. destruct E as [_ E]. discriminate.
    + rewrite app_assoc, last_app_nonempty by exact Hj. exact Hl.
Qed.

Lemma all_eq_repeat (c : N) (n : nat) : all_eq c (repeat c n) = true.
Proof.
  unfold all_eq. induction n as [|n IH]; [reflexivity |].
  cbn [repeat forallb]. rewrite N.eqb_refl. exact IH.
Qed.

Lemma normpath_tidy (path : str) : tidy (Posixpath.normpath path).
Proof.
  unfold Posixpath.normpath.
  destruct path as [|x path]; [left; reflexivity |].
  set (n := if startswith [Posixpath.slash] (x :: path) then _ else 0).
  set (comps := Posixpath.norm_comps n _ []).
  assert (Hcomps : Forall (fun comp =>
                             comp <> []
                             /\ existsb (N.eqb Posixpath.slash) comp = false)
                          comps).
  { apply norm_comps_keeps; [| constructor].
    eapply Forall_impl; [| apply split_pieces_free].
    cbn beta. intros comp Hfree Hne. split; assumption. }
  clearbody comps. destruct comps as [|c0 rest].
  - cbn [PyStr.join]. rewrite app_nil_r.
    destruct (repeat Posixpath.slash n) eqn:R; [left; reflexivity |].
    right. unfold is_root. rewrite <- R. apply all_eq_repeat.
  - destruct (join_ends_black (c0 :: rest) Hcomps ltac:(discriminate))
      as [Hj Hl].
    assert (Hout : last (repeat Posixpath.slash n
                           ++ PyStr.join [Posixpath.slash] (c0 :: rest)) 0%N
                   <> Posixpath.slash)
      by (rewrite last_app_nonempty by exact Hj; exact Hl).
    destruct (repeat Posixpath.slash n
                ++ PyStr.join [Posixpath.slash] (c0 :: rest)) eqn:R.
    + left. reflexivity.
    + left. apply rstrip_fixed. right. exact Hout.
Qed.

Section Shown.

Context {FS : Type} `{OS FS}.

(** X21: the path of a panel that has loaded a directory is normalised: it
    has no slash at its end unless it is the root.  So the path the
    panel keeps for an entry splits again into the panel's path and the
    entry's name: an entry dropped on its own panel is ignored, and the
    key and menu operations act under the entry's own name. *)
Theorem loaded_panel_path_is_tidy (fs0 : FS) (p : panel) (path name : str) :
  let loaded := load_directory fs0 p path in
  let cur := current_path loaded in
  tidy cur
  /\ (existsb (N.eqb Posixpath.slash) name = false ->
      Posixpath.dirname (Posixpath.join cur name) = cur
      /\ Posixpath.basename (Posixpath.join cur name) = name).
Proof.
  cbv zeta. unfold load_directory. cbn [current_path].
  assert (Ht : tidy (Posixpath.abspath (getcwd fs0) path))
    by apply normpath_tidy.
  split; [exact Ht |].
  intros Hfree. split.
  - apply dirname_join; assumption.
  - apply basename_join. exact Hfree.
Qed.

End Shown.

Lemma loaded_panel_path_is_tidy_witness :
  let cur := current_path
               (load_directory sample_fs (fresh_panel $"/" name_asc)
                               $"/A/../B//") in
  cur = $"/B"
  /\ Posixpath.dirname (Posixpath.join cur $"x.txt") = cur.
Proof.
  split; [reflexivity |].
  apply (loaded_panel_path_is_tidy sample_fs (fresh_panel $"/" name_asc)
                                   $"/A/../B//" $"x.txt").
  reflexivity.
Defined.
